(** * ibaqpy: peptide normalisation and batch correction

    A shallow embedding of the parts of ibaqpy that decide the behaviour of
    the peptide-normalisation pipeline and of the batch-correction command:

    - [PyStr]: the Python string operations the sources call
      ([str.split], [str.join], [str.count], [in], [str.replace]);
    - [Py]: dictionary keys, exceptions and the outcome of a call;
    - [Commons]: names of the constants imported from [ibaqpy_commons];
    - [Pandas]: the pandas and numpy operations the sources call;
    - [Ibaq]: [src/ibaq/peptide_normalization.py];
    - [Stream]: [src/bin/peptide_normalization_stream.py];
    - [CorrectBatches]: [src/ibaqpy/commands/correct_batches.py];
    - [Statements]: the notions the theorems are stated with;
    - the modules named [...Facts]: the theorems.

    Python [float]s are IEEE-754 binary64 numbers and are modelled by Rocq's
    primitive floats where the code computes with them; Python [dict]s are
    stdpp [gmap]s, or association lists where the keys are heterogeneous. *)

From Stdlib Require Import ZArith List Bool Ascii String Lia Permutation.
From Stdlib Require Import Floats.PrimFloat Floats.SpecFloat Floats.FloatOps.
From Stdlib Require Import Floats.FloatAxioms.
From Stdlib Require Uint63.
From Stdlib Require OrderedTypeEx.
From stdpp Require Import base option list gmap strings sorting.
Import ListNotations.

Local Open Scope string_scope.
Local Open Scope list_scope.

(* ===================================================================== *)
(** ** Python string operations *)
(* ===================================================================== *)

Module PyStr.

(** [s.count(c)] for a one-character [c]. *)
Fixpoint count_char (c : ascii) (s : string) : nat :=
  match s with
  | EmptyString => 0
  | String a rest => (if Ascii.eqb a c then 1 else 0) + count_char c rest
  end.

(** [s.split(c)] for a one-character separator: every occurrence cuts, empty
    fields are kept, and the result always has at least one field. *)
Fixpoint split (c : ascii) (s : string) : list string :=
  match s with
  | EmptyString => [EmptyString]
  | String a rest =>
      if Ascii.eqb a c then EmptyString :: split c rest
      else match split c rest with
           | [] => [String a EmptyString]
           | w :: ws => String a w :: ws
           end
  end.

(** [sep.join(l)]. *)
Fixpoint join (sep : string) (l : list string) : string :=
  match l with
  | [] => EmptyString
  | [x] => x
  | x :: rest => x +:+ sep +:+ join sep rest
  end.

(** [s.startswith(p)]. *)
Fixpoint startswith (p s : string) : bool :=
  match p, s with
  | EmptyString, _ => true
  | String a p', String b s' => Ascii.eqb a b && startswith p' s'
  | String _ _, EmptyString => false
  end.

(** [p in s]: [p] occurs in [s] as a substring. *)
Fixpoint contains (p s : string) : bool :=
  startswith p s ||
  match s with
  | EmptyString => false
  | String _ s' => contains p s'
  end.

(** [s.replace(c, '')] for a one-character [c]. *)
Fixpoint remove_char (c : ascii) (s : string) : string :=
  match s with
  | EmptyString => EmptyString
  | String a rest =>
      if Ascii.eqb a c then remove_char c rest else String a (remove_char c rest)
  end.

(** [l[i]] on a list of strings; [None] stands for [IndexError]. *)
Definition item (l : list string) (i : nat) : option string := nth_error l i.

(** [re.split(pattern, s)[0]] for a pattern that is an alternation of the
    non-empty literal strings [markers]: the part of [s] before the leftmost
    place where one of them occurs, and all of [s] when none occurs. *)
Fixpoint before_first_match (markers : list string) (s : string) : string :=
  match s with
  | EmptyString => EmptyString
  | String c rest =>
      if existsb (fun m => startswith m s) markers then EmptyString
      else String c (before_first_match markers rest)
  end.

(** [str.isspace] on an ASCII character: tab to carriage return, the
    separators [0x1c] to [0x1f], and the space. *)
Definition isspace (c : ascii) : bool :=
  let n := nat_of_ascii c in
  ((9 <=? n) && (n <=? 13) || (28 <=? n) && (n <=? 32))%nat.

(** The truth value of [s.strip()]: some character of [s] is not white
    space. *)
Fixpoint strip_nonempty (s : string) : bool :=
  match s with
  | EmptyString => false
  | String c rest => negb (isspace c) || strip_nonempty rest
  end.

End PyStr.

(* ===================================================================== *)
(** ** Python values, exceptions and results *)
(* ===================================================================== *)

Module Py.

(** Keys used with dictionaries and index labels: a string, an integer, a
    missing label (NaN), or the name of a group, the tuple [(Run, Channel)] or
    [(Run, Fraction)]. *)
Inductive pykey : Type :=
  | KStr (s : string)
  | KInt (i : Z)
  | KNaN
  | KGroup (run : string) (second : Z).

#[global] Instance pykey_eq_dec : EqDecision pykey.
Proof. solve_decision. Defined.

(** The exceptions the modelled code can raise. *)
Inductive exn : Type :=
  | SystemExit (code : string)
  | KeyError (key : pykey)
  | ValueError (msg : string)
  | UnboundLocalError (name : string).

(** The outcome of a call: a value or a raised exception. *)
Inductive result (A : Type) : Type :=
  | Ok (a : A)
  | Raise (e : exn).
Arguments Ok {A} a.
Arguments Raise {A} e.

#[global] Instance result_ret : MRet result := fun A a => Ok a.
#[global] Instance result_bind : MBind result :=
  fun A B f m => match m with Ok a => f a | Raise e => Raise e end.

(** A [for] loop whose body may raise: the state is threaded through the
    elements in order and the first exception ends the loop. *)
Fixpoint for_each {A S : Type} (body : S -> A -> result S) (l : list A) (s : S)
  : result S :=
  match l with
  | [] => Ok s
  | x :: rest => s' ← body s x; for_each body rest s'
  end.

(** A list comprehension whose element expression may raise. *)
Fixpoint traverse {A B : Type} (f : A -> result B) (l : list A) : result (list B) :=
  match l with
  | [] => Ok []
  | x :: rest => y ← f x; ys ← traverse f rest; Ok (y :: ys)
  end.

(** Conversion of a Python [int] to [float], for integers below [2^63] in
    absolute value (here: counts of samples and of observations). *)
Definition float_of_Z (z : Z) : float :=
  if (z <? 0)%Z then PrimFloat.opp (PrimFloat.of_uint63 (Uint63.of_Z (- z)))
  else PrimFloat.of_uint63 (Uint63.of_Z z).

End Py.

(* ===================================================================== *)
(** ** Constants of [ibaqpy_commons] *)
(* ===================================================================== *)

Module Commons.

(** The channel tables [TMT16plex], ..., [ITRAQ4plex] are dictionaries from
    label name to channel number defined in [ibaqpy_commons]; label resolution
    only selects one of them, so a table is represented by its name. *)
Inductive channel_table : Type :=
  | TMT16plex | TMT11plex | TMT10plex | TMT6plex | ITRAQ8plex | ITRAQ4plex.

(** [NORM_INTENSITY], the name of the normalised-intensity column (the
    sources also write it as the literal ["NormIntensity"]). *)
Definition NORM_INTENSITY : string := "NormIntensity".

End Commons.

(* ===================================================================== *)
(** ** pandas and numpy operations *)
(* ===================================================================== *)

Module Pandas.

(** A missing number is NaN. *)
Definition notna (x : float) : bool := negb (PrimFloat.is_nan x).

(** [Series.dropna()]. *)
Definition dropna (col : list float) : list float := List.filter notna col.

(** Increasing and decreasing order on floats, as relations for sorting. *)
Definition fle (x y : float) : Prop := PrimFloat.leb x y = true.
Definition fge (x y : float) : Prop := PrimFloat.leb y x = true.

#[global] Instance fle_dec x y : Decision (fle x y).
Proof. unfold fle. apply _. Defined.
#[global] Instance fge_dec x y : Decision (fge x y).
Proof. unfold fge. apply _. Defined.

(** [Series.sort_values(ascending=False)] on a column without NaN; the index
    is dropped by the callers, so only the sequence of values matters. *)
Definition sort_desc (col : list float) : list float := merge_sort fge col.
Definition sort_asc (col : list float) : list float := merge_sort fle col.

(** Membership of a float in a collection compared with [==]. *)
Definition fmem (x : float) (l : list float) : bool :=
  existsb (PrimFloat.eqb x) l.

(** [Series.drop_duplicates()] and [set(...)] on floats: the first occurrence
    of each value is kept. *)
Fixpoint drop_duplicates_from (seen col : list float) : list float :=
  match col with
  | [] => []
  | x :: rest =>
      if fmem x seen then drop_duplicates_from seen rest
      else x :: drop_duplicates_from (x :: seen) rest
  end.
Definition drop_duplicates (col : list float) : list float :=
  drop_duplicates_from [] col.

(** [Series.unique()]: the distinct values in order of first appearance
    (also used for the elements of a Python [set], whose order is free). *)
Fixpoint unique_from {A : Type} `{EqDecision A} (seen col : list A) : list A :=
  match col with
  | [] => []
  | x :: rest =>
      if bool_decide (x ∈ seen) then unique_from seen rest
      else x :: unique_from (x :: seen) rest
  end.
Definition unique {A : Type} `{EqDecision A} (col : list A) : list A :=
  unique_from [] col.

(** [Series.reset_index(drop=True).to_dict()]: position to value. *)
Definition to_dict {A : Type} (col : list A) : gmap nat A :=
  map_seq 0 col.

(** [np.median]: NaN when a NaN is present or the input is empty, otherwise
    the middle value of the sorted input, or the mean of the two middle
    values. *)
Definition median (l : list float) : float :=
  if existsb PrimFloat.is_nan l then PrimFloat.nan
  else
    let s := sort_asc l in
    let n := length s in
    if (n =? 0)%nat then PrimFloat.nan
    else if Nat.odd n then nth (n / 2) s PrimFloat.nan
    else PrimFloat.div
           (PrimFloat.add (nth (n / 2 - 1) s PrimFloat.nan)
                          (nth (n / 2) s PrimFloat.nan)) 2%float.

(** [Series.idxmax()] within one group (NaN skipped): the index label of the
    first row holding the largest value, [None] when every value is NaN. *)
Fixpoint idxmax_from (best : nat * float) (g : list (nat * float)) : nat :=
  match g with
  | [] => fst best
  | (i, v) :: rest =>
      if notna v && PrimFloat.ltb (snd best) v then idxmax_from (i, v) rest
      else idxmax_from best rest
  end.
Fixpoint idxmax (g : list (nat * float)) : option nat :=
  match g with
  | [] => None
  | (i, v) :: rest => if notna v then Some (idxmax_from (i, v) rest) else idxmax rest
  end.

Section groupby.
Context {A K : Type} `{EqDecision K}.
Context (le : relation K) `{forall x y, Decision (le x y)}.

(** [df.groupby(columns)]: the rows of each distinct key, in the order of the
    frame, the groups ordered by key; rows with a missing key column (key
    [None]) belong to no group. *)
Definition groupby (key : A -> option K) (df : list A) : list (K * list A) :=
  map (fun k => (k, List.filter (fun r => bool_decide (key r = Some k)) df))
      (merge_sort le (remove_dups (omap key df))).

End groupby.

(** A frame with pandas' default index: each row with its position. *)
Definition with_index {A : Type} (df : list A) : list (nat * A) :=
  imap (fun i r => (i, r)) df.

(** [df.loc[label]] on an indexed frame whose labels are unique. *)
Definition loc {A : Type} (df : list (nat * A)) (label : nat) : option A :=
  snd <$> List.find (fun ir => Nat.eqb (fst ir) label) df.

(** [Series.str.contains(pat)] on one string, for a pattern whose characters
    other than the pipe are literal: the alternatives between the pipes are
    searched as substrings, and an empty alternative is found everywhere. *)
Definition str_contains (pat : string) (s : string) : bool :=
  existsb (fun alternative => PyStr.contains alternative s) (PyStr.split "|" pat).

(** [pd.merge(left, right, how="left", on=keys)] on frames given as keyed
    rows: each left row is paired with every right row of the same key, in
    the order of [right]; a left row without a match is kept, with the
    columns of [right] missing. *)
Definition merge_left {K L R : Type} `{EqDecision K}
  (left : list (K * L)) (right : list (K * R)) : list (K * L * option R) :=
  concat
    (map (fun l =>
            match List.filter (fun r => bool_decide (fst r = fst l)) right with
            | [] => [(fst l, snd l, None)]
            | matches => map (fun r => (fst l, snd l, Some (snd r))) matches
            end)
         left).

End Pandas.

(* ===================================================================== *)
(** ** [src/ibaq/peptide_normalization.py] *)
(* ===================================================================== *)

Module Ibaq.
Import Py Commons.

(** [parse_uniprot_accession]: of an accession with exactly two pipes, as in
    [tr|CONTAMINANT_Q3SX28|CONTAMINANT_TPM2_BOVIN], the field of index 1 is
    kept ([CONTAMINANT_Q3SX28]). The index always exists when there are two
    pipes; the fallback stands for the unreachable [IndexError]. *)
Definition parse_uniprot_accession (uniprot_id : string) : string :=
  let uniprot_list := PyStr.split ";" uniprot_id in
  let result_uniprot_list :=
    map (fun accession =>
           if (PyStr.count_char "|" accession =? 2)%nat
           then default accession (PyStr.item (PyStr.split "|" accession) 1)
           else accession)
        uniprot_list in
  PyStr.join ";" result_uniprot_list.

(** The character classes of the pattern ["[\(\[].*?[\)\]]"]. *)
Definition is_open (c : ascii) : bool := Ascii.eqb c "(" || Ascii.eqb c "[".
Definition is_close (c : ascii) : bool := Ascii.eqb c ")" || Ascii.eqb c "]".
Definition newline : ascii := "010"%char.

(** Whether [".*?[\)\]]"] matches at the start of [s]: a closing character is
    reached before the end of the line ([.] does not match a newline). *)
Fixpoint closes (s : string) : bool :=
  match s with
  | EmptyString => false
  | String c rest =>
      if is_close c then true
      else if Ascii.eqb c newline then false
      else closes rest
  end.

(** [re.sub("[\(\[].*?[\)\]]", '', s)]: the string is scanned from the left;
    at an opening character from which the pattern matches, everything up to
    and including the first closing character is dropped ([inside] is true
    while such a match is being skipped) and the scan resumes after it; any
    other character is copied. *)
Fixpoint re_sub_annotations (inside : bool) (s : string) : string :=
  match s with
  | EmptyString => EmptyString
  | String c rest =>
      if inside then
        if is_close c then re_sub_annotations false rest
        else re_sub_annotations true rest
      else if is_open c && closes rest then re_sub_annotations true rest
      else String c (re_sub_annotations false rest)
  end.

(** [get_canonical_peptide]. *)
Definition get_canonical_peptide (peptide_sequence : string) : string :=
  let clean_peptide := re_sub_annotations false peptide_sequence in
  PyStr.remove_char "-" (PyStr.remove_char "." clean_peptide).

(** [x in labels]. *)
Definition mem (x : string) (labels : list string) : bool :=
  existsb (String.eqb x) labels.

(** The choice of the TMT channel table, shared by the label resolvers. *)
Definition tmt_choice (labels : list string) : channel_table :=
  if (11 <? length labels)%nat
     || mem "TMT134N" labels || mem "TMT133C" labels || mem "TMT133N" labels
     || mem "TMT132C" labels || mem "TMT132N" labels
  then TMT16plex
  else if (length labels =? 11)%nat || mem "TMT131C" labels then TMT11plex
  else if (6 <? length labels)%nat then TMT10plex
  else TMT6plex.

Definition itraq_choice (labels : list string) : channel_table :=
  if (4 <? length labels)%nat then ITRAQ8plex else ITRAQ4plex.

Definition unsupported : string :=
  "Warning: Only support label free, TMT and ITRAQ experiment!".

(** [get_label] (module level). [labels] is the collection of distinct label
    values in its iteration order. *)
Definition get_label (labels : list string)
  : result (string * option channel_table) :=
  if (length labels =? 1)%nat then Ok ("LFQ", None)
  else if PyStr.contains "TMT" (PyStr.join "," labels)
          || PyStr.contains "tmt" (PyStr.join "," labels)
  then Ok ("TMT", Some (tmt_choice labels))
  else if PyStr.contains "ITRAQ" (PyStr.join "," labels)
          || PyStr.contains "itraq" (PyStr.join "," labels)
  then Ok ("ITRAQ", Some (itraq_choice labels))
  else Raise (SystemExit unsupported).

(** [Feature.get_label] (static method): a single label is label free only
    when it says so. *)
Definition Feature_get_label (labels : list string)
  : result (string * option channel_table) :=
  if (length labels =? 1)%nat
     && (PyStr.contains "LABEL FREE" (PyStr.join "," labels)
         || PyStr.contains "label free" (PyStr.join "," labels))
  then Ok ("LFQ", None)
  else if PyStr.contains "TMT" (PyStr.join "," labels)
          || PyStr.contains "tmt" (PyStr.join "," labels)
  then Ok ("TMT", Some (tmt_choice labels))
  else if PyStr.contains "ITRAQ" (PyStr.join "," labels)
          || PyStr.contains "itraq" (PyStr.join "," labels)
  then Ok ("ITRAQ", Some (itraq_choice labels))
  else Raise (SystemExit unsupported).

(** The columns of the feature frame that peptidoform selection reads or
    carries. A missing key cell is [None]; a missing number is NaN. *)
Record row : Type := mk_row {
  ProteinName : string;
  PeptideSequence : option string;
  PeptideCanonical : string;
  PrecursorCharge : option Z;
  SampleID : option string;
  Condition : option string;
  BioReplicate : option Z;
  NormIntensity : float;
  SearchEngine : float
}.

(** The group key [PEPTIDE_SEQUENCE, PEPTIDE_CHARGE, SAMPLE_ID, CONDITION,
    BIOREPLICATE]. *)
Definition peptidoform_key : Type := string * Z * string * string * Z.

Definition key_of (r : row) : option peptidoform_key :=
  s ← PeptideSequence r; c ← PrecursorCharge r; sa ← SampleID r;
  co ← Condition r; b ← BioReplicate r; Some (s, c, sa, co, b).

Definition lex (c1 c2 : comparison) : comparison :=
  match c1 with Eq => c2 | _ => c1 end.

Definition key_compare (a b : peptidoform_key) : comparison :=
  let '(s1, c1, sa1, co1, b1) := a in
  let '(s2, c2, sa2, co2, b2) := b in
  lex (String.compare s1 s2)
      (lex (Z.compare c1 c2)
           (lex (String.compare sa1 sa2)
                (lex (String.compare co1 co2) (Z.compare b1 b2)))).

Definition key_le (a b : peptidoform_key) : Prop := key_compare a b <> Gt.

#[global] Instance key_le_dec a b : Decision (key_le a b).
Proof. unfold key_le. destruct (key_compare a b); [left|left|right]; congruence. Defined.

(** [dataset.loc[dataset.groupby(keys)[column].idxmax()]] on the rows whose
    normalised intensity is present. The frame carries pandas' default index
    (each row labelled by its position, as [read_csv] produces it). A group
    whose [column] is NaN throughout has no label to look up. *)
Definition select_best (column : row -> float) (dataset : list row)
  : result (list row) :=
  let dataset :=
    List.filter (fun ir => Pandas.notna (NormIntensity (snd ir)))
                (Pandas.with_index dataset) in
  let groups := Pandas.groupby key_le (fun ir => key_of (snd ir)) dataset in
  labels ← traverse
    (fun g => match Pandas.idxmax (map (fun ir => (fst ir, column (snd ir))) (snd g)) with
              | Some i => Ok i
              | None => Raise (KeyError KNaN)
              end) groups;
  traverse
    (fun i => match Pandas.loc dataset i with
              | Some r => Ok r
              | None => Raise (KeyError (KInt (Z.of_nat i)))
              end) labels.

(** [get_peptidoform_normalize_intensities]. *)
Definition get_peptidoform_normalize_intensities
  (dataset : list row) (higher_intensity : bool) : result (list row) :=
  if higher_intensity then select_best NormIntensity dataset
  else select_best SearchEngine dataset.

(** [get_spectrum_prefix]: [re.split(r"\.mzML|\.MZML|\.raw|\.RAW|\.d|\.wiff",
    reference_spectrum)[0]]. *)
Definition get_spectrum_prefix (reference_spectrum : string) : string :=
  PyStr.before_first_match [".mzML"; ".MZML"; ".raw"; ".RAW"; ".d"; ".wiff"]
                           reference_spectrum.

(** [get_study_accession]: [sample_id.split("-")[0]]. *)
Definition get_study_accession (sample_id : string) : string :=
  default EmptyString (PyStr.item (PyStr.split "-" sample_id) 0).

(** [remove_contaminants_entrapments_decoys]: the rows whose protein field
    does not match [CONTAMINANT|ENTRAPMENT|DECOY]. *)
Definition remove_contaminants_entrapments_decoys {A : Type}
  (dataset : list A) (protein_field : A -> string) : list A :=
  let contaminants := ["CONTAMINANT"; "ENTRAPMENT"; "DECOY"] in
  let cregex := PyStr.join "|" contaminants in
  List.filter (fun r => negb (Pandas.str_contains cregex (protein_field r))) dataset.

(** [remove_protein_by_ids], on the text of the file [protein_file]: its
    lines that are not blank are joined with pipes into the pattern. The
    lines are taken to hold no regular-expression operator but the pipe. *)
Definition remove_protein_by_ids {A : Type}
  (dataset : list A) (protein_file : string) (protein_field : A -> string)
  : list A :=
  let contaminants := PyStr.split newline protein_file in
  let contaminants := List.filter PyStr.strip_nonempty contaminants in
  let cregex := PyStr.join "|" contaminants in
  List.filter (fun r => negb (Pandas.str_contains cregex (protein_field r))) dataset.

(** [range(0, stop, step)] for a positive [step]: the multiples of [step]
    below [stop]. *)
Definition range_step (stop step : nat) : list nat :=
  map (fun k => k * step)%nat (seq 0 ((stop + step - 1) / step)).

(** [Feature.iter_samples]: the list [ref_list] of the groups of samples
    that are read together, [self.samples[i : i + file_num]] for [i] in
    [range(0, len(self.samples), file_num)]. A step of zero is refused by
    [range]; a negative step gives no group. *)
Definition iter_samples (samples : list string) (file_num : Z)
  : result (list (list string)) :=
  if (file_num =? 0)%Z then Raise (ValueError "range() arg 3 must not be zero")
  else if (file_num <? 0)%Z then Ok []
  else
    let n := Z.to_nat file_num in
    Ok (map (fun i => take n (drop i samples)) (range_step (length samples) n)).

(** *** [data_common_process] (lines 217-252) *)

Module DataCommon.

(** The columns of a feature frame that [data_common_process] reads or
    writes. [Fraction] has a meaning only when the frame has the column. *)
Record data_row : Type := mk_data_row {
  ProteinName : string;
  PeptideCanonical : string;
  Intensity : float;
  Condition : string;
  SampleID : string;
  StudyID : string;
  Fraction : Z
}.

(** A frame: its rows, and whether [Fraction] is among its columns. *)
Record frame : Type := mk_frame {
  has_fraction : bool;
  rows : list data_row
}.

(** [data_common_process]. The length of a peptide is its number of
    characters; peptides are written in ASCII letters. *)
Definition data_common_process (data_df : frame) (min_aa : Z) : frame :=
  let data := List.filter (fun x => PrimFloat.ltb 0%float (Intensity x)) (rows data_df) in
  let data := List.filter (fun x => negb (String.eqb (Condition x) "Empty")) data in
  let data :=
    List.filter
      (fun x => (min_aa <=? Z.of_nat (String.length (PeptideCanonical x)))%Z) data in
  let data :=
    map (fun x => mk_data_row (parse_uniprot_accession (ProteinName x))
                              (PeptideCanonical x) (Intensity x) (Condition x)
                              (SampleID x) (StudyID x) (Fraction x)) data in
  let data :=
    map (fun x => mk_data_row (ProteinName x) (PeptideCanonical x) (Intensity x)
                              (Condition x) (SampleID x)
                              (get_study_accession (SampleID x)) (Fraction x)) data in
  if negb (has_fraction data_df) then
    mk_frame true
      (map (fun x => mk_data_row (ProteinName x) (PeptideCanonical x) (Intensity x)
                                 (Condition x) (SampleID x) (StudyID x) 1%Z) data)
  else mk_frame (has_fraction data_df) data.

End DataCommon.

End Ibaq.

(* ===================================================================== *)
(** ** [src/bin/peptide_normalization_stream.py] *)
(* ===================================================================== *)

Module Stream.
Import Py Commons.

(** [parse_uniprot_accession]: of an accession with exactly two pipes, as in
    [tr|CONTAMINANT_Q3SX28|CONTAMINANT_TPM2_BOVIN], the field of index 2 is
    kept ([CONTAMINANT_TPM2_BOVIN]). *)
Definition parse_uniprot_accession (uniprot_id : string) : string :=
  let uniprot_list := PyStr.split ";" uniprot_id in
  let result_uniprot_list :=
    map (fun accession =>
           if (PyStr.count_char "|" accession =? 2)%nat
           then default accession (PyStr.item (PyStr.split "|" accession) 2)
           else accession)
        uniprot_list in
  PyStr.join ";" result_uniprot_list.

(** [get_peptidoform_normalize_intensities]: the same selection as in
    [Ibaq], on a frame read with [read_csv]. *)
Definition get_peptidoform_normalize_intensities
  (dataset : list Ibaq.row) (higher_intensity : bool) : result (list Ibaq.row) :=
  if higher_intensity then Ibaq.select_best Ibaq.NormIntensity dataset
  else Ibaq.select_best Ibaq.SearchEngine dataset.

(** *** Design resolution *)

(** The columns of the design table that label resolution reads. *)
Record sdrf_row : Type := mk_sdrf_row {
  source_name : string;
  data_file : string;
  comment_label : string
}.

(** [extract_label_from_sdrf]: the label type, the sample names and the
    channel table. The annotated copy of the design table, the first
    component of the tuple the source returns, needs the contents of the
    channel tables and is left out. *)
Definition extract_label_from_sdrf (sdrf_df : list sdrf_row)
  : result (string * list string * option channel_table) :=
  let labels := Pandas.unique (map comment_label sdrf_df) in
  let sample_names := Pandas.unique (map source_name sdrf_df) in
  if (length labels =? 1)%nat then Ok ("LFQ", sample_names, None)
  else if PyStr.contains "TMT" (PyStr.join "," labels)
          || PyStr.contains "tmt" (PyStr.join "," labels)
  then Ok ("TMT", sample_names, Some (Ibaq.tmt_choice labels))
  else if PyStr.contains "ITRAQ" (PyStr.join "," labels)
          || PyStr.contains "itraq" (PyStr.join "," labels)
  then Ok ("ITRAQ", sample_names, Some (Ibaq.itraq_choice labels))
  else Raise (SystemExit "1").

(** [get_study_accession]: [sample_id.split("-")[0]]. *)
Definition get_study_accession (sample_id : string) : string :=
  default EmptyString (PyStr.item (PyStr.split "-" sample_id) 0).

(** [get_reference_name]: [re.split(r"\.mzML|\.MZML|\.raw|\.RAW",
    reference_spectrum)[0]]. *)
Definition get_reference_name (reference_spectrum : string) : string :=
  PyStr.before_first_match [".mzML"; ".MZML"; ".raw"; ".RAW"] reference_spectrum.

(** *** Protein support ([peptide_normalization], lines 411-427) *)

Module Support.

(** A row of [result_df] projected to [PEPTIDE_CANONICAL, PROTEIN_NAME]. *)
Definition support_row : Type := string * string.

(** [result_df.groupby(PEPTIDE_CANONICAL).filter(lambda x:
    len(set(x[PROTEIN_NAME])) == 1)]: the rows of the peptides that have one
    protein within the batch. *)
Definition unique_df (result_df : list support_row) : list support_row :=
  List.filter
    (fun r =>
       (length (Pandas.unique
                  (map snd (List.filter (fun r' => String.eqb (fst r') (fst r))
                                        result_df))) =? 1)%nat)
    result_df.

(** [dict(zip(keys, values))]: a later value replaces an earlier one. *)
Definition dict_zip (items : list support_row) : gmap string string :=
  list_to_map (reverse items).

(** The body of the loop over [unique_dict.keys()]: an entry with another
    protein is popped, otherwise the proposal is stored. ([i] is a key of
    [unique_dict]; the first case stands for the [KeyError] that cannot
    occur.) *)
Definition merge_key (unique_dict : gmap string string)
  (unique_peptides : gmap string string) (i : string) : gmap string string :=
  match unique_dict !! i with
  | None => unique_peptides
  | Some proposed =>
      match unique_peptides !! i with
      | Some known =>
          if bool_decide (proposed <> known) then delete i unique_peptides
          else <[i := proposed]> unique_peptides
      | None => <[i := proposed]> unique_peptides
      end
  end.

(** One batch folded into [unique_peptides]. *)
Definition merge_batch (unique_peptides : gmap string string)
  (result_df : list support_row) : gmap string string :=
  let unique_df := unique_df result_df in
  let unique_dict := dict_zip unique_df in
  foldl (merge_key unique_dict) unique_peptides (Pandas.unique (map fst unique_df)).

(** [unique_peptides] after the loop over all batches. *)
Definition ingest (batches : list (list support_row)) : gmap string string :=
  foldl merge_batch ∅ batches.

(** [proteins_list], [count_dict] and [strong_proteins]. *)
Definition proteins_list (unique_peptides : gmap string string) : list string :=
  map snd (map_to_list unique_peptides).

Definition count (element : string) (l : list string) : Z :=
  Z.of_nat (length (List.filter (String.eqb element) l)).

Definition strong_proteins (min_unique : Z) (unique_peptides : gmap string string)
  : list string :=
  let proteins_list := proteins_list unique_peptides in
  List.filter (fun element => (min_unique <=? count element proteins_list)%Z)
              (Pandas.unique proteins_list).

End Support.

(** *** Quantile normalisation ([peptide_normalization], lines 466-490,
    551-567 and 615-617) *)

Module Quantile.

Definition recalculate (original : float) (count : Z) (value : float)
  : float * Z :=
  (PrimFloat.div (PrimFloat.add (PrimFloat.mul original (float_of_Z count)) value)
                 (float_of_Z (count + 1)),
   (count + 1)%Z).

Definition getitem {A : Type} (d : gmap nat A) (i : nat) : result A :=
  match d !! i with
  | Some v => Ok v
  | None => Raise (KeyError (KInt (Z.of_nat i)))
  end.

(** The [qnorm] branch of the first pass for one sample, whose
    [NORM_INTENSITY] column is [column]. *)
Definition quantile_update (quantile : gmap nat (float * Z)) (column : list float)
  : result (gmap nat (float * Z)) :=
  let dic := Pandas.to_dict (Pandas.sort_desc (Pandas.dropna column)) in
  if (size quantile =? 0)%nat then Ok ((fun v => (v, 1%Z)) <$> dic)
  else
    let update := Nat.min (size quantile) (size dic) in
    quantile ← for_each
      (fun quantile i =>
         oc ← getitem quantile i;
         v ← getitem dic i;
         Ok (<[i := recalculate (fst oc) (snd oc) v]> quantile))
      (seq 0 update) quantile;
    if (size dic <=? size quantile)%nat then Ok quantile
    else Ok (((fun v => (v, 1%Z)) <$> filter (fun kv => (update <= fst kv)%nat) dic)
             ∪ quantile).

(** The first pass over the samples, from the empty [quantile]. *)
Definition quantile_pass (columns : list (list float))
  : result (gmap nat (float * Z)) :=
  for_each quantile_update columns ∅.

(** [norm_intensity = {k: v[0] for k, v in quantile.items()}]. *)
Definition norm_intensity (quantile : gmap nat (float * Z)) : gmap nat float :=
  fst <$> quantile.

(** [ref_dict]: each distinct value of the sample, in decreasing order, with
    the reference value of its rank. *)
Definition ref_dict (norm_intensity : gmap nat float) (column : list float)
  : result (list (float * float)) :=
  let ranked :=
    Pandas.sort_desc (Pandas.drop_duplicates (Pandas.dropna column)) in
  traverse (fun kv => r ← getitem norm_intensity (fst kv); Ok (snd kv, r))
           (imap (fun k v => (k, v)) ranked).

(** [ref_dict[x] if x in ref_dict.keys() else np.nan]. *)
Fixpoint ref_lookup (ref_dict : list (float * float)) (x : float) : float :=
  match ref_dict with
  | [] => PrimFloat.nan
  | (v, r) :: rest => if PrimFloat.eqb v x then r else ref_lookup rest x
  end.

(** The [qnorm] branch of [normalization] for one sample. *)
Definition qnorm (norm_intensity : gmap nat float) (column : list float)
  : result (list float) :=
  ref_dict ← ref_dict norm_intensity column;
  Ok (map (ref_lookup ref_dict) column).

End Quantile.

(** *** Per-run centering ([peptide_normalization] with [nmethod ==
    "msstats"], lines 452-465, 618-641 and 529-550) *)

Module Centering.

(** The columns of a sample's frame that the centering reads. *)
Record msrow : Type := mk_msrow {
  Run : string;
  Channel : Z;
  Fraction : Z;
  NormIntensity : float
}.

(** A dictionary in insertion order, as an association list. *)
Definition dict (V : Type) : Type := list (pykey * V).

Fixpoint dict_find {V : Type} (d : dict V) (k : pykey) : option V :=
  match d with
  | [] => None
  | (k', v) :: rest => if bool_decide (k' = k) then Some v else dict_find rest k
  end.

(** [k in d]. *)
Definition dict_mem {V : Type} (d : dict V) (k : pykey) : bool :=
  match dict_find d k with Some _ => true | None => false end.

(** [d[k]]. *)
Definition dict_get {V : Type} (d : dict V) (k : pykey) : result V :=
  match dict_find d k with Some v => Ok v | None => Raise (KeyError k) end.

(** [d[k] = v] and [d.update({k: v})]. *)
Fixpoint dict_set {V : Type} (d : dict V) (k : pykey) (v : V) : dict V :=
  match d with
  | [] => [(k, v)]
  | (k', v') :: rest =>
      if bool_decide (k' = k) then (k, v) :: rest else (k', v') :: dict_set rest k v
  end.

Definition is_multiplexed (label : string) : bool :=
  String.eqb label "TMT" || String.eqb label "ITRAQ".

(** The group of a row: [(Run, Channel)] for multiplexed data, [(Run,
    Fraction)] otherwise. *)
Definition group_name (label : string) (r : msrow) : string * Z :=
  if is_multiplexed label then (Run r, Channel r) else (Run r, Fraction r).

Definition group_le (a b : string * Z) : Prop :=
  Ibaq.lex (String.compare (fst a) (fst b)) (Z.compare (snd a) (snd b)) <> Gt.

#[global] Instance group_le_dec a b : Decision (group_le a b).
Proof.
  unfold group_le.
  destruct (Ibaq.lex _ _); [left|left|right]; congruence.
Defined.

(** First pass, one sample: the loop [for name, group in g]. For a group name
    already present the source reads [group_intensities[NORM_INTENSITY]]. *)
Definition accumulate_groups (label : string)
  (group_intensities : dict (list float)) (msstats_df : list msrow)
  : result (dict (list float)) :=
  for_each
    (fun group_intensities g =>
       let name := KGroup (fst (fst g)) (snd (fst g)) in
       let group_intensity := map NormIntensity (snd g) in
       if negb (dict_mem group_intensities name)
       then Ok (dict_set group_intensities name group_intensity)
       else
         known ← dict_get group_intensities (KStr NORM_INTENSITY);
         Ok (dict_set group_intensities name (known ++ group_intensity)))
    (Pandas.groupby group_le (fun r => Some (group_name label r)) msstats_df)
    group_intensities.

(** First pass over the samples, from the empty [group_intensities]. *)
Definition first_pass (label : string) (samples : list (list msrow))
  : result (dict (list float)) :=
  for_each (accumulate_groups label) samples [].

(** [i[1]] for a key [i] of [group_intensities]. *)
Definition second (k : pykey) : option Z :=
  match k with KGroup _ z => Some z | _ => None end.

Definition group_medians (group_intensities : dict (list float)) : dict float :=
  map (fun kv => (fst kv, Pandas.median (snd kv))) group_intensities.

(** [median_baseline = np.median(list(set(sum(values, []))))]. *)
Definition median_baseline (group_intensities : dict (list float)) : float :=
  Pandas.median (Pandas.drop_duplicates (concat (map snd group_intensities))).

(** [fraction_median]: for each fraction, the median of the intensities of
    all groups of that fraction. It is computed and not read again. *)
Definition fraction_median (group_intensities : dict (list float))
  : list (Z * float) :=
  foldl
    (fun fm fraction =>
       let fraction_intensities :=
         concat (map snd (List.filter
                            (fun kv => bool_decide (second (fst kv) = Some fraction))
                            group_intensities)) in
       let m := Pandas.median fraction_intensities in
       if existsb (fun e => Z.eqb (fst e) fraction) fm
       then map (fun e => if Z.eqb (fst e) fraction then (fraction, m) else e) fm
       else fm ++ [(fraction, m)])
    [] (omap (fun kv => second (fst kv)) group_intensities).

(** Second pass for one sample of multiplexed data. *)
Definition center_multiplexed (group_intensities : dict float)
  (median_baseline : float) (dataset_df : list msrow) : result (list float) :=
  traverse
    (fun x =>
       m ← dict_get group_intensities (KGroup (Run x) (Channel x));
       Ok (PrimFloat.add (PrimFloat.sub (NormIntensity x) m) median_baseline))
    dataset_df.

(** Second pass for one sample of label-free data: the value added back is
    the median of the group medians of the row's fraction. *)
Definition center_label_free (group_intensities : dict float)
  (dataset_df : list msrow) : result (list float) :=
  traverse
    (fun x =>
       m ← dict_get group_intensities (KGroup (Run x) (Fraction x));
       Ok (PrimFloat.add
             (PrimFloat.sub (NormIntensity x) m)
             (Pandas.median
                (map snd (List.filter
                            (fun kv => bool_decide (second (fst kv) = Some (Fraction x)))
                            group_intensities)))))
    dataset_df.

(** Both passes: the centred [NORM_INTENSITY] column of every sample. *)
Definition msstats_normalization (label : string) (samples : list (list msrow))
  : result (list (list float)) :=
  group_intensities ← first_pass label samples;
  if is_multiplexed label then
    traverse (center_multiplexed (group_medians group_intensities)
                                 (median_baseline group_intensities)) samples
  else
    traverse (center_label_free (group_medians group_intensities)) samples.

End Centering.

(** *** Frequency filter ([peptide_normalization], lines 643-659, 691-700
    and 703-717) *)

Module Frequency.

(** The columns of a normalised sample frame that are exported. *)
Record out_row : Type := mk_out_row {
  PeptideCanonical : string;
  ProteinName : string;
  SampleID : string;
  NormIntensity : float;
  Condition : string
}.

(** One iteration of the loop of lines 643-659. [None] is a sample whose
    file has no rows (skipped by [continue]); otherwise [norm_df] is the
    result of [normalization]. *)
Definition count_sample (remove_low_frequency_peptides : bool)
  (peptides_count : gmap string Z) (sample : option (list out_row))
  : gmap string Z :=
  match sample with
  | None => peptides_count
  | Some norm_df =>
      let sample_peptides := Pandas.unique (map PeptideCanonical norm_df) in
      if remove_low_frequency_peptides then
        list_to_map
          (map (fun peptide =>
                  (peptide, (default 0 (peptides_count !! peptide) + 1)%Z))
               sample_peptides)
      else peptides_count
  end.

(** The threshold [0.2] as the binary64 number Python reads it as. *)
Definition threshold : float := 0x1.999999999999ap-3%float.

(** Lines 693-700: the keys of the filtered [peptides_count]. *)
Definition strong_peptides (sample_number : Z) (peptides_count : gmap string Z)
  : list string :=
  let min_sample := if (1 <? sample_number)%Z then 1%Z else 0%Z in
  map fst
    (List.filter
       (fun kv =>
          PrimFloat.leb threshold
            (PrimFloat.div (float_of_Z (snd kv)) (float_of_Z sample_number))
          && (min_sample <? snd kv)%Z)
       (map_to_list peptides_count)).

(** [Series.isin]. *)
Definition isin (values : list string) (r : out_row) : bool :=
  existsb (String.eqb (PeptideCanonical r)) values.

(** The export loop of lines 703-717. [strong_peptides] is [None] when the
    name is not bound; the rows written to [output] so far are returned with
    the exception that ended the loop, if any. *)
Fixpoint export (remove_low_frequency_peptides : bool)
  (strong_peptides : option (list string)) (files : list (list out_row))
  (output : list out_row) : list out_row * option exn :=
  match files with
  | [] => (output, None)
  | dataset_df :: rest =>
      if remove_low_frequency_peptides then
        match strong_peptides with
        | None => (output, Some (UnboundLocalError "strong_peptides"))
        | Some values =>
            export remove_low_frequency_peptides None rest
                   (output ++ List.filter (isin values) dataset_df)
        end
      else export remove_low_frequency_peptides strong_peptides rest
                  (output ++ dataset_df)
  end.

(** Counting, thresholding and export over the samples in order. *)
Definition frequency_filter (remove_low_frequency_peptides : bool)
  (samples : list (option (list out_row))) : list out_row * option exn :=
  let peptides_count :=
    foldl (count_sample remove_low_frequency_peptides) ∅ samples in
  let strong :=
    if remove_low_frequency_peptides
    then Some (strong_peptides (Z.of_nat (length samples)) peptides_count)
    else None in
  export remove_low_frequency_peptides strong (map (default []) samples) [].

End Frequency.

(** *** The median over peptidoforms ([average_peptide_intensities], lines
    76-93) *)

Module Rollup.
Import Stream.Frequency.

(** The columns [PeptideCanonical], [SampleID] and [Condition]. *)
Definition peptide_key : Type := string * string * string.

Definition peptide_key_of (r : out_row) : peptide_key :=
  (PeptideCanonical r, SampleID r, Condition r).

Definition peptide_key_le (a b : peptide_key) : Prop :=
  Ibaq.lex (String.compare (fst (fst a)) (fst (fst b)))
           (Ibaq.lex (String.compare (snd (fst a)) (snd (fst b)))
                     (String.compare (snd a) (snd b))) <> Gt.

#[global] Instance peptide_key_le_dec a b : Decision (peptide_key_le a b).
Proof.
  unfold peptide_key_le.
  destruct (Ibaq.lex _ _); [left|left|right]; congruence.
Defined.

(** [groupby(...)[NORM_INTENSITY].median()]: the median of the values of a
    group that are present. *)
Definition group_median (group : list out_row) : float :=
  Pandas.median (Pandas.dropna (map NormIntensity group)).

(** [average_peptide_intensities]. A row of the result holds the key columns,
    the median, and the protein name of the row of [dataset] it is merged
    with. *)
Definition average_peptide_intensities (dataset : list out_row)
  : list (peptide_key * float * option string) :=
  let dataset_df :=
    map (fun g => (fst g, group_median (snd g)))
        (Pandas.groupby peptide_key_le (fun r => Some (peptide_key_of r)) dataset) in
  Pandas.merge_left dataset_df (map (fun r => (peptide_key_of r, ProteinName r)) dataset).

End Rollup.

(** *** The loop over the chunks of the input ([peptide_normalization],
    lines 333-340 and 398-405) *)

Module Chunks.

(** [inner_canonical_dict]: the distinct sequences of the chunk with their
    canonical peptides. [get_canonical_peptide] comes from
    [ibaq.ibaqpy_commons] and is an argument here. *)
Definition inner_canonical_dict (get_canonical_peptide : string -> string)
  (sequences : list string) : gmap string string :=
  let modified_seqs := Pandas.unique sequences in
  let canonical_seqs := map get_canonical_peptide modified_seqs in
  Support.dict_zip (zip modified_seqs canonical_seqs).

(** The new column [PEPTIDE_CANONICAL]:
    [inner_canonical_dict[x[PEPTIDE_SEQUENCE]]] for each row. *)
Definition add_canonical (get_canonical_peptide : string -> string)
  (sequences : list string) : result (list string) :=
  let inner_canonical_dict := inner_canonical_dict get_canonical_peptide sequences in
  traverse (fun x => match inner_canonical_dict !! x with
                     | Some canonical => Ok canonical
                     | None => Raise (KeyError (KStr x))
                     end)
           sequences.

(** The loop [for sample in sample_names] for one chunk. [files] holds the
    rows of each file of [ibaqpy_temp/] that exists: the rows of the chunk
    with the sample id are appended to the file, which is created when it
    does not exist. A row whose sample id is missing equals no sample. *)
Definition write_samples {A : Type} (sample_id : A -> option string)
  (sample_names : list string) (files : gmap string (list A)) (result_df : list A)
  : gmap string (list A) :=
  foldl
    (fun files sample =>
       <[sample := default [] (files !! sample)
                   ++ List.filter (fun r => bool_decide (sample_id r = Some sample))
                                  result_df]> files)
    files sample_names.

(** The files after all chunks. *)
Definition write_chunks {A : Type} (sample_id : A -> option string)
  (sample_names : list string) (files : gmap string (list A))
  (chunks : list (list A)) : gmap string (list A) :=
  foldl (write_samples sample_id sample_names) files chunks.

End Chunks.

End Stream.

(* ===================================================================== *)
(** ** [src/ibaqpy/commands/correct_batches.py] *)
(* ===================================================================== *)

Module CorrectBatches.
Import Py.

(** The character class [[A-Za-z0-9]]. *)
Definition is_alnum (c : ascii) : bool :=
  let n := nat_of_ascii c in
  ((48 <=? n) && (n <=? 57) || (65 <=? n) && (n <=? 90)
   || (97 <=? n) && (n <=? 122))%nat.

(** The states of the matcher of [^[A-Za-z0-9]+(-[A-Za-z0-9]+)*$]: a token
    is expected, or a token has begun. *)
Inductive sample_state : Type := ExpectToken | InToken.

Fixpoint sample_id_match (st : sample_state) (s : string) : bool :=
  match s with
  | EmptyString => match st with InToken => true | ExpectToken => false end
  | String c rest =>
      if is_alnum c then sample_id_match InToken rest
      else match st with
           | InToken => Ascii.eqb c "-" && sample_id_match ExpectToken rest
           | ExpectToken => false
           end
  end.

(** Modelled from the spec: [SAMPLE_ID_REGEX] is defined in
    [ibaqpy.ibaq.ibaqpy_commons], which is not among the sources; the
    specification gives the structure [^[A-Za-z0-9]+(-[A-Za-z0-9]+)*$]. The
    definition is [re.compile(SAMPLE_ID_REGEX).fullmatch] as a predicate. *)
Definition SAMPLE_ID_REGEX (sample : string) : bool :=
  sample_id_match ExpectToken sample.

(** The [samples] argument: a single string, or a list or Series. *)
Inductive samples_arg : Type :=
  | One (sample : string)
  | Many (samples : list string).

(** [is_valid_sample_id]: the lines printed and the value returned.
    [sample_id_pattern] is the compiled pattern's [fullmatch]. *)
Definition is_valid_sample_id (samples : samples_arg)
  (sample_id_pattern : string -> bool) : list string * bool :=
  let samples := match samples with One s => [s] | Many l => l end in
  let invalid_samples :=
    List.filter (fun sample => negb (sample_id_pattern sample)) samples in
  match invalid_samples with
  | [] => ([], true)
  | _ :: _ =>
      ("The following sample IDs are invalid:"
         :: map (fun invalid_sample => " - " +:+ invalid_sample) invalid_samples,
       false)
  end.

(** [re.match(r"^[A-Za-z0-9]+$", s)]: one or more alphanumeric characters up
    to the end of the string, or up to a final newline. *)
Fixpoint alnum_to_end (s : string) : bool :=
  match s with
  | EmptyString => true
  | String c rest =>
      if is_alnum c then alnum_to_end rest
      else Ascii.eqb c Ibaq.newline
           && match rest with EmptyString => true | _ => false end
  end.
Definition batch_id_match (s : string) : bool :=
  match s with
  | EmptyString => false
  | String c rest => is_alnum c && alnum_to_end rest
  end.

(** [pd.factorize(values)[0]]: each value is coded by the rank of its first
    appearance. *)
Fixpoint index_of (x : string) (l : list string) : option nat :=
  match l with
  | [] => None
  | y :: rest => if String.eqb y x then Some 0%nat else S <$> index_of x rest
  end.
Fixpoint factorize_from (uniques values : list string) : list Z :=
  match values with
  | [] => []
  | x :: rest =>
      match index_of x uniques with
      | Some i => Z.of_nat i :: factorize_from uniques rest
      | None => Z.of_nat (length uniques) :: factorize_from (uniques ++ [x]) rest
      end
  end.
Definition factorize (values : list string) : list Z := factorize_from [] values.

(** The body of the loop of [get_batch_id_from_sample_names]. *)
Definition batch_id_of (sample : string) : result string :=
  let parts := PyStr.split "-" sample in
  match parts with
  | [] =>
      Raise (ValueError ("Invalid sample name format: " +:+ sample
                         +:+ ". Expected batch-id prefix."))
  | batch_id :: _ =>
      if bool_decide (batch_id = EmptyString) then
        Raise (ValueError ("Invalid sample name format: " +:+ sample
                           +:+ ". Expected batch-id prefix."))
      else if negb (batch_id_match batch_id) then
        Raise (ValueError ("Invalid batch ID format: " +:+ batch_id
                           +:+ ". Expected alphanumeric characters only."))
      else Ok batch_id
  end.

(** [get_batch_id_from_sample_names]. *)
Definition get_batch_id_from_sample_names (samples : list string)
  : result (list Z) :=
  batch_ids ← traverse batch_id_of samples;
  Ok (factorize batch_ids).

(** [run_batch_correction], lines 117-122: the validation of the columns of
    the wide table and the derivation of the batch ids handed to the
    correction routine. The lines printed are returned with the outcome. *)
Definition run_batch_correction (columns : list string)
  : list string * result (list Z) :=
  let '(printed, valid) := is_valid_sample_id (Many columns) SAMPLE_ID_REGEX in
  if negb valid then
    (printed, Raise (ValueError "Invalid sample IDs found in the data."))
  else (printed, get_batch_id_from_sample_names columns).

End CorrectBatches.

(* ===================================================================== *)
(** * Notions used in the statements *)
(* ===================================================================== *)

Module Statements.

Module Accession.
Import PyStr.

(** What the specification says of one accession, for a choice [pick] of the
    field kept: an accession [db|id|name] with pipe-free fields is reduced
    to [pick db id name]; an accession with another number of pipes is left
    as it is. *)
Inductive reduced (pick : string -> string -> string -> string)
  : string -> string -> Prop :=
  | reduced_fields db id name :
      count_char "|" db = 0%nat -> count_char "|" id = 0%nat ->
      count_char "|" name = 0%nat ->
      reduced pick (db +:+ String "|" (id +:+ String "|" name)) (pick db id name)
  | reduced_other accession :
      count_char "|" accession <> 2%nat ->
      reduced pick accession accession.

Definition trailing_name (db id name : string) : string := name.
Definition middle_id (db id name : string) : string := id.

End Accession.

Module Canonical.
Import Ibaq.

(** No opening character of [s] starts a match of the pattern. *)
Fixpoint settled (s : string) : Prop :=
  match s with
  | EmptyString => True
  | String c rest => (is_open c = true -> closes rest = false) /\ settled rest
  end.

End Canonical.

Module Support.
Import Stream.Support.

(** The batches of the failing input: [p1] maps to [A], then to [B], then to
    [B] again next to [p2]. *)
Definition three_batches : list (list support_row) :=
  [ [("p1", "A")]; [("p1", "B")]; [("p1", "B"); ("p2", "B")] ].

End Support.

Module Centering.
Import Py Stream.Centering.
Local Open Scope float_scope.

(** Every key of the dictionary is the name of a group. *)
Definition group_keys {V : Type} (d : dict V) : Prop :=
  Forall (fun kv => exists run z, fst kv = KGroup run z) d.

(** Two samples with a row each in run [r1], fraction and channel 1. *)
Definition shared_group : list (list msrow) :=
  [ [mk_msrow "r1" 1 1 10]; [mk_msrow "r1" 1 1 12] ].

End Centering.

Module Frequency.
Import Stream.Frequency.

(** A normalised sample frame with one row for each peptide. *)
Definition sample_of (name : string) (peptides : list string)
  : option (list out_row) :=
  Some (map (fun p => mk_out_row p "PROT1" name 1%float "c1") peptides).

(** Ten samples: [COMMONPEPK] is in all of them, [PEPTIDEK] in the first
    three only. *)
Definition ten_samples : list (option (list out_row)) :=
  [ sample_of "S1" ["COMMONPEPK"; "PEPTIDEK"];
    sample_of "S2" ["COMMONPEPK"; "PEPTIDEK"];
    sample_of "S3" ["COMMONPEPK"; "PEPTIDEK"];
    sample_of "S4" ["COMMONPEPK"]; sample_of "S5" ["COMMONPEPK"];
    sample_of "S6" ["COMMONPEPK"]; sample_of "S7" ["COMMONPEPK"];
    sample_of "S8" ["COMMONPEPK"]; sample_of "S9" ["COMMONPEPK"];
    sample_of "S10" ["COMMONPEPK"] ].

(** The same peptides with [PEPTIDEK] in the last three samples. *)
Definition ten_samples_late : list (option (list out_row)) :=
  [ sample_of "S1" ["COMMONPEPK"]; sample_of "S2" ["COMMONPEPK"];
    sample_of "S3" ["COMMONPEPK"]; sample_of "S4" ["COMMONPEPK"];
    sample_of "S5" ["COMMONPEPK"]; sample_of "S6" ["COMMONPEPK"];
    sample_of "S7" ["COMMONPEPK"];
    sample_of "S8" ["COMMONPEPK"; "PEPTIDEK"];
    sample_of "S9" ["COMMONPEPK"; "PEPTIDEK"];
    sample_of "S10" ["COMMONPEPK"; "PEPTIDEK"] ].

End Frequency.

Module Batches.
Import CorrectBatches.

(** The characters of [s] before the first [c]. *)
Fixpoint prefix_before (c : ascii) (s : string) : string :=
  match s with
  | EmptyString => EmptyString
  | String a rest => if Ascii.eqb a c then EmptyString else String a (prefix_before c rest)
  end.

(** The token before the first hyphen of a sample name. *)
Definition batch_token (sample : string) : string := prefix_before "-" sample.

Fixpoint all_alnum (s : string) : bool :=
  match s with
  | EmptyString => true
  | String c rest => is_alnum c && all_alnum rest
  end.

(** The distinct values once [values] has been read, starting from
    [uniques]. *)
Fixpoint uniques_after (uniques values : list string) : list string :=
  match values with
  | [] => uniques
  | x :: rest =>
      match index_of x uniques with
      | Some _ => uniques_after uniques rest
      | None => uniques_after (uniques ++ [x]) rest
      end
  end.

End Batches.

Module Peptidoform.
Import Pandas Ibaq.

(** The label [i] belongs to an entry of [g] whose value [v] is present and
    is at least every present value of [g]. *)
Definition is_max (g : list (nat * float)) (i : nat) (v : float) : Prop :=
  In (i, v) g /\ notna v = true
  /\ forall j w, In (j, w) g -> notna w = true -> PrimFloat.leb w v = true.

(** The indexed rows of [dataset] with a normalised intensity, and their
    groups. *)
Definition present (dataset : list row) : list (nat * row) :=
  List.filter (fun ir => notna (NormIntensity (snd ir))) (with_index dataset).
Definition groups (dataset : list row)
  : list (peptidoform_key * list (nat * row)) :=
  groupby key_le (fun ir => key_of (snd ir)) (present dataset).

(** What the selection keeps of the group of key [k]: a row of the group
    whose intensity no row of the group exceeds. *)
Definition best_of (dataset : list row) (k : peptidoform_key) (r : row) : Prop :=
  key_of r = Some k /\ In r dataset /\ notna (NormIntensity r) = true
  /\ forall r', In r' dataset -> key_of r' = Some k ->
                notna (NormIntensity r') = true ->
                PrimFloat.leb (NormIntensity r') (NormIntensity r) = true.

(** A row of sample [S1], condition [c1], replicate 1. *)
Definition peptidoform (sequence : string) (charge : Z) (intensity score : float)
  : row :=
  mk_row "P1" (Some sequence) "PEPTIDEK" (Some charge) (Some "S1") (Some "c1")
         (Some 1%Z) intensity score.

End Peptidoform.

Module Reduction.
Import PyStr.

(** The reduction of one accession that keeps the field of index [i]. *)
Definition reduce_at (i : nat) (accession : string) : string :=
  if (count_char "|" accession =? 2)%nat
  then default accession (item (split "|" accession) i)
  else accession.

End Reduction.

Module Labels.
Import Commons PyStr.

(** Some label contains [word]. *)
Definition has_word (word : string) (labels : list string) : Prop :=
  exists label, In label labels /\ contains word label = true.

Definition tmt_tables : list channel_table :=
  [TMT16plex; TMT11plex; TMT10plex; TMT6plex].
Definition itraq_tables : list channel_table := [ITRAQ8plex; ITRAQ4plex].

(** The label type and the channel table of an outcome fit together. *)
Definition fits (label : string) (choice : option channel_table) : Prop :=
  (label = "LFQ" /\ choice = None)
  \/ (label = "TMT" /\ exists t, choice = Some t /\ In t tmt_tables)
  \/ (label = "ITRAQ" /\ exists t, choice = Some t /\ In t itraq_tables).

End Labels.

Module Merging.

(** What a proposal [proposed] makes of the entry [known] of a peptide: an
    entry with another protein is dropped, otherwise the proposal is the
    entry. *)
Definition merged (proposed known : option string) : option string :=
  match proposed, known with
  | None, _ => known
  | Some v, Some w => if bool_decide (v <> w) then None else Some v
  | Some v, None => Some v
  end.

End Merging.

Module Ranks.
Import Stream.Quantile.

(** The ranks of the state are [0] to [size - 1], without a gap. *)
Definition dense {A : Type} (quantile : gmap nat A) : Prop :=
  forall i, is_Some (quantile !! i) <-> (i < size quantile)%nat.

(** The values a sample contributes, by rank. *)
Definition ranked (column : list float) : list float :=
  Pandas.sort_desc (Pandas.dropna column).

(** What one sample makes of the entry of one rank: the value of the sample
    at that rank is folded into the entry, or starts it. *)
Definition folded (entry : option (float * Z)) (value : option float)
  : option (float * Z) :=
  match entry, value with
  | Some oc, Some v => Some (recalculate (fst oc) (snd oc) v)
  | Some oc, None => Some oc
  | None, Some v => Some (v, 1%Z)
  | None, None => None
  end.

(** The number of samples that have a value at rank [i]. *)
Definition reaching (columns : list (list float)) (i : nat) : Z :=
  Z.of_nat (length (List.filter (fun column => (i <? length (Pandas.dropna column))%nat)
                                columns)).

(** The largest number of values of a sample. *)
Definition longest (columns : list (list float)) : nat :=
  foldr (fun column => Nat.max (length (Pandas.dropna column))) 0%nat columns.

(** The state after some samples: the count of a rank is the number of
    samples that reach it, and a rank that no sample reaches has no entry. *)
Definition counted (quantile : gmap nat (float * Z)) (columns : list (list float))
  : Prop :=
  forall i, snd <$> quantile !! i
            = if (i <? longest columns)%nat then Some (reaching columns i) else None.
End Ranks.

Module Groups.
Import Py Stream.Centering.

(** The key of [group_intensities] under which a row is recorded. *)
Definition name_of (label : string) (r : msrow) : pykey :=
  KGroup (fst (group_name label r)) (snd (group_name label r)).

(** Two frames have a row each in the same group. *)
Definition shares (label : string) (s1 s2 : list msrow) : Prop :=
  exists r1 r2, In r1 s1 /\ In r2 s2 /\ group_name label r1 = group_name label r2.

(** Two samples of the run have a group in common. *)
Definition shared (label : string) (samples : list (list msrow)) : Prop :=
  exists i j s1 s2, (i < j)%nat /\ samples !! i = Some s1 /\ samples !! j = Some s2
                    /\ shares label s1 s2.

(** What one sample adds to [group_intensities] when its groups are new:
    one entry for each group, in the order of the groups, with the
    intensities of the rows of the group. *)
Definition entries (label : string) (msstats_df : list msrow) : dict (list float) :=
  map (fun g => (KGroup (fst (fst g)) (snd (fst g)), map NormIntensity (snd g)))
      (Pandas.groupby group_le (fun r => Some (group_name label r)) msstats_df).

(** A row of the frame is in a recorded group. *)
Definition meets (label : string) (d : dict (list float)) (df : list msrow) : bool :=
  existsb (fun r => dict_mem d (name_of label r)) df.

End Groups.

Module Streak.
Import Py Stream.Frequency.

(** The number of samples in a row, from the newest back, that hold the
    peptide; samples without rows are passed over. *)
Fixpoint streak_from (peptide : string) (newest_first : list (option (list out_row)))
  : Z :=
  match newest_first with
  | [] => 0
  | None :: rest => streak_from peptide rest
  | Some norm_df :: rest =>
      if bool_decide (peptide ∈ map PeptideCanonical norm_df)
      then (streak_from peptide rest + 1)%Z
      else 0%Z
  end.

Definition streak (peptide : string) (samples : list (option (list out_row))) : Z :=
  streak_from peptide (rev samples).

End Streak.

Module BatchErrors.
Import Py CorrectBatches Statements.Batches.

(** The error of [get_batch_id_from_sample_names] for a sample whose first
    token is empty or not alphanumeric. *)
Definition batch_error (sample : string) : exn :=
  if bool_decide (batch_token sample = EmptyString)
  then ValueError ("Invalid sample name format: " +:+ sample
                   +:+ ". Expected batch-id prefix.")
  else ValueError ("Invalid batch ID format: " +:+ batch_token sample
                   +:+ ". Expected alphanumeric characters only.").

End BatchErrors.

Module Rollup.
Import Stream.Frequency Stream.Rollup.

(** The rows of the frame with the key columns of [r]. *)
Definition group_of (dataset : list out_row) (r : out_row) : list out_row :=
  List.filter (fun r' => bool_decide (peptide_key_of r' = peptide_key_of r)) dataset.

(** What becomes of a row: its key columns, the median of its group, and its
    protein name. *)
Definition averaged (dataset : list out_row) (r : out_row)
  : peptide_key * float * option string :=
  (peptide_key_of r, group_median (group_of dataset r), Some (ProteinName r)).

End Rollup.

Module DataCommon.
Import Ibaq Ibaq.DataCommon.

(** The three tests a row has to pass. *)
Definition passes (min_aa : Z) (x : data_row) : bool :=
  PrimFloat.ltb 0%float (Intensity x)
  && negb (String.eqb (Condition x) "Empty")
  && (min_aa <=? Z.of_nat (String.length (PeptideCanonical x)))%Z.

(** What becomes of a row that is kept. *)
Definition processed (with_fraction : bool) (x : data_row) : data_row :=
  mk_data_row (parse_uniprot_accession (ProteinName x)) (PeptideCanonical x)
              (Intensity x) (Condition x) (SampleID x)
              (get_study_accession (SampleID x))
              (if with_fraction then Fraction x else 1%Z).

End DataCommon.

Module Selection.
Import Ibaq.

(** The rows are in the order of their keys, and none has a missing key
    column. *)
Definition sorted_by_key (rows : list row) : Prop :=
  exists keys, map key_of rows = map Some keys /\ Sorted key_le keys.


(** A comparison that decides equality, is antisymmetric and transitive. *)
Record good {A : Type} (c : A -> A -> comparison) : Prop := mk_good {
  good_eq : forall a b, c a b = Eq <-> a = b;
  good_anti : forall a b, c a b = CompOpp (c b a);
  good_trans : forall a b d, c a b = Lt -> c b d = Lt -> c a d = Lt
}.

End Selection.

Module IdLines.
Import PyStr Ibaq.


End IdLines.

End Statements.

(* ===================================================================== *)
(** * Properties *)
(* ===================================================================== *)

(** ** Splitting and joining *)

Module PyStrFacts.
Import PyStr.

Lemma split_nonempty c s : split c s <> [].
Proof.
  destruct s as [|a rest]; simpl; [discriminate|].
  destruct (Ascii.eqb a c); [discriminate|].
  destruct (split c rest); discriminate.
Qed.

(** A separator prepended to a joined list. *)
Lemma join_cons c w ws :
  ws <> [] ->
  join (String c EmptyString) (w :: ws)
  = w +:+ String c (join (String c EmptyString) ws).
Proof. destruct ws; [congruence|reflexivity]. Qed.

Lemma join_cons_char c a w ws :
  join (String c EmptyString) (String a w :: ws)
  = String a (join (String c EmptyString) (w :: ws)).
Proof. destruct ws; reflexivity. Qed.

(** Joining the fields of a split gives the string back. *)
Lemma join_split c s : join (String c EmptyString) (split c s) = s.
Proof.
  induction s as [|a rest IH]; [reflexivity|].
  simpl split. destruct (Ascii.eqb_spec a c) as [->|Hne].
  - rewrite join_cons by apply split_nonempty. simpl. now rewrite IH.
  - destruct (split c rest) as [|w ws] eqn:E.
    + now apply split_nonempty in E.
    + rewrite join_cons_char, IH. reflexivity.
Qed.

(** No field of a split contains the separator. *)
Lemma split_fields_clean c s :
  Forall (fun w => count_char c w = 0%nat) (split c s).
Proof.
  induction s as [|a rest IH]; simpl.
  - repeat constructor.
  - destruct (Ascii.eqb a c) eqn:E.
    + constructor; [reflexivity|exact IH].
    + destruct (split c rest) as [|w ws]; [repeat constructor; simpl; now rewrite E|].
      inversion IH as [|? ? Hw Hws]; subst.
      constructor; [simpl; now rewrite E, Hw|exact Hws].
Qed.

(** A split has one field more than there are separators. *)
Lemma length_split c s : length (split c s) = S (count_char c s).
Proof.
  induction s as [|a rest IH]; [reflexivity|].
  simpl. destruct (Ascii.eqb a c); simpl.
  - now rewrite IH.
  - destruct (split c rest) as [|w ws] eqn:E; [now apply split_nonempty in E|].
    simpl in *. exact IH.
Qed.

(** A string with exactly two separators is [x c y c z] with clean fields. *)
Lemma split_two c s :
  count_char c s = 2%nat ->
  exists x y z,
    split c s = [x; y; z]
    /\ s = x +:+ String c (y +:+ String c z)
    /\ count_char c x = 0%nat /\ count_char c y = 0%nat /\ count_char c z = 0%nat.
Proof.
  intros Hc.
  pose proof (length_split c s) as Hl. rewrite Hc in Hl.
  pose proof (split_fields_clean c s) as Hf.
  pose proof (join_split c s) as Hj.
  destruct (split c s) as [|x [|y [|z [|? ?]]]]; try discriminate.
  exists x, y, z.
  inversion Hf as [|? ? Hx Hf']; subst.
  inversion Hf' as [|? ? Hy Hf'']; subst.
  inversion Hf'' as [|? ? Hz _]; subst.
  repeat split; assumption.
Qed.

End PyStrFacts.

(** ** Frames *)

Module PandasFacts.
Import Pandas.

Lemma elem_of_unique_from {A : Type} `{EqDecision A} (seen l : list A) (x : A) :
  x ∈ unique_from seen l -> x ∈ l.
Proof.
  revert seen. induction l as [|y l IH]; intros seen Hp; simpl in *.
  - exact Hp.
  - case_bool_decide.
    + right. now apply (IH seen).
    + apply elem_of_cons in Hp as [->|Hp]; [left|right; now apply (IH (y :: seen))].
Qed.

End PandasFacts.

(** ** Protein accessions *)

Module AccessionFacts.
Import PyStr PyStrFacts Statements.Accession.

Lemma reduce_field i pick accession :
  (forall x y z, PyStr.item [x; y; z] i = Some (pick x y z)) ->
  reduced pick accession
    (if (count_char "|" accession =? 2)%nat
     then default accession (PyStr.item (split "|" accession) i)
     else accession).
Proof.
  intros Hpick.
  destruct (Nat.eqb_spec (count_char "|" accession) 2) as [H2|Hn].
  - destruct (split_two _ _ H2) as (x & y & z & Hs & -> & Hx & Hy & Hz).
    rewrite Hs, Hpick. simpl. now constructor.
  - now constructor.
Qed.

Lemma Forall2_map_reduced pick f l :
  (forall a, reduced pick a (f a)) -> Forall2 (reduced pick) l (map f l).
Proof. intros Hf. induction l; simpl; constructor; auto. Qed.

(** C5, as amended. The accession field is cut at its semicolons and the
    results are joined with semicolons again. In the streaming program each
    accession of the form [db|id|name] becomes its trailing [name]; in
    [ibaq/peptide_normalization.py] it becomes the middle [id]. In both, an
    accession with another number of pipes is unchanged. *)
Theorem parse_uniprot_accession_fields (uniprot_id : string) :
  join ";" (split ";" uniprot_id) = uniprot_id
  /\ (exists names,
        Forall2 (reduced trailing_name) (split ";" uniprot_id) names
        /\ Stream.parse_uniprot_accession uniprot_id = join ";" names)
  /\ (exists ids,
        Forall2 (reduced middle_id) (split ";" uniprot_id) ids
        /\ Ibaq.parse_uniprot_accession uniprot_id = join ";" ids).
Proof.
  split; [apply join_split|]. split.
  - eexists. split; [|reflexivity].
    apply Forall2_map_reduced. intros a. now apply (reduce_field 2).
  - eexists. split; [|reflexivity].
    apply Forall2_map_reduced. intros a. now apply (reduce_field 1).
Qed.

(** C5 as stated fails on [ibaq/peptide_normalization.py]: the accession of
    its docstring is reduced to the identifier, not to the trailing name. *)
Lemma parse_uniprot_accession_keeps_id :
  Ibaq.parse_uniprot_accession "tr|CONTAMINANT_Q3SX28|CONTAMINANT_TPM2_BOVIN"
    = "CONTAMINANT_Q3SX28"
  /\ Ibaq.parse_uniprot_accession "tr|CONTAMINANT_Q3SX28|CONTAMINANT_TPM2_BOVIN"
    <> "CONTAMINANT_TPM2_BOVIN".
Proof. split; [reflexivity|]. vm_compute. discriminate. Qed.

Example parse_stream_docstring :
  Stream.parse_uniprot_accession "tr|CONTAMINANT_Q3SX28|CONTAMINANT_TPM2_BOVIN"
  = "CONTAMINANT_TPM2_BOVIN".
Proof. reflexivity. Qed.

Example parse_stream_mixed :
  Stream.parse_uniprot_accession "sp|P1|ALBU_HUMAN;Q9;a|b;x|y|z|w"
  = "ALBU_HUMAN;Q9;a|b;x|y|z|w".
Proof. reflexivity. Qed.

End AccessionFacts.

(** ** Canonical peptides *)

Module CanonicalFacts.
Import PyStr Ibaq Statements.Canonical.

Lemma open_not_close c : is_open c = true -> is_close c = false.
Proof.
  unfold is_open, is_close. intros H.
  apply orb_true_iff in H as [H|H]; apply Ascii.eqb_eq in H; subst; reflexivity.
Qed.

Lemma open_not_newline c : is_open c = true -> Ascii.eqb c newline = false.
Proof.
  unfold is_open. intros H.
  apply orb_true_iff in H as [H|H]; apply Ascii.eqb_eq in H; subst; reflexivity.
Qed.

(** A closing character found in what the substitution leaves was already
    reachable before. *)
Lemma closes_re_sub s :
  closes (re_sub_annotations false s) = true -> closes s = true.
Proof.
  induction s as [|c rest IH]; simpl; [discriminate|].
  destruct (is_open c) eqn:Ho; simpl.
  - rewrite (open_not_close _ Ho), (open_not_newline _ Ho).
    destruct (closes rest) eqn:Hc; [reflexivity|].
    simpl. rewrite (open_not_close _ Ho), (open_not_newline _ Ho). exact IH.
  - destruct (is_close c); [reflexivity|].
    destruct (Ascii.eqb c newline); [discriminate|]. exact IH.
Qed.

(** The result of the substitution has no match left. *)
Lemma settled_re_sub inside s : settled (re_sub_annotations inside s).
Proof.
  revert inside. induction s as [|c rest IH]; intros inside; simpl; [exact I|].
  destruct inside.
  - destruct (is_close c); apply IH.
  - destruct (is_open c && closes rest) eqn:E; [apply IH|].
    simpl. split; [|apply IH].
    intros Ho. rewrite Ho in E. simpl in E.
    destruct (closes (re_sub_annotations false rest)) eqn:Hc; [|reflexivity].
    apply closes_re_sub in Hc. congruence.
Qed.

(** Without a match the substitution copies its input. *)
Lemma re_sub_settled s : settled s -> re_sub_annotations false s = s.
Proof.
  induction s as [|c rest IH]; simpl; [reflexivity|].
  intros [Hc Hs]. destruct (is_open c) eqn:Ho; simpl.
  - rewrite (Hc eq_refl). simpl. now rewrite IH.
  - now rewrite IH.
Qed.

(** Removing a character that is neither a closing character nor a newline
    changes no match. *)
Lemma closes_remove_char a s :
  is_close a = false -> Ascii.eqb a newline = false ->
  closes (remove_char a s) = closes s.
Proof.
  intros Hc Hn. induction s as [|c rest IH]; simpl; [reflexivity|].
  destruct (Ascii.eqb_spec c a) as [->|Hne].
  - rewrite Hc, Hn. exact IH.
  - simpl. now rewrite IH.
Qed.

Lemma settled_remove_char a s :
  is_close a = false -> Ascii.eqb a newline = false ->
  settled s -> settled (remove_char a s).
Proof.
  intros Hc Hn. induction s as [|c rest IH]; simpl; [trivial|].
  intros [Ho Hs]. destruct (Ascii.eqb c a); [now apply IH|].
  simpl. split; [|now apply IH].
  intros H. rewrite closes_remove_char by assumption. now apply Ho.
Qed.

Lemma remove_char_idem a s : remove_char a (remove_char a s) = remove_char a s.
Proof.
  induction s as [|c rest IH]; simpl; [reflexivity|].
  destruct (Ascii.eqb c a) eqn:E; [exact IH|].
  simpl. now rewrite E, IH.
Qed.

Lemma remove_char_comm a b s :
  remove_char a (remove_char b s) = remove_char b (remove_char a s).
Proof.
  induction s as [|c rest IH]; simpl; [reflexivity|].
  destruct (Ascii.eqb c b) eqn:Eb, (Ascii.eqb c a) eqn:Ea; simpl;
    rewrite ?Eb, ?Ea, ?IH; reflexivity.
Qed.

(** C7. Canonical-peptide derivation is idempotent. *)
Theorem get_canonical_peptide_idempotent (peptide_sequence : string) :
  get_canonical_peptide (get_canonical_peptide peptide_sequence)
  = get_canonical_peptide peptide_sequence.
Proof.
  unfold get_canonical_peptide. cbv zeta.
  set (clean := re_sub_annotations false peptide_sequence).
  rewrite (re_sub_settled (remove_char "-" (remove_char "." clean))).
  - rewrite (remove_char_comm "." "-" (remove_char "." clean)).
    now rewrite remove_char_idem, remove_char_idem.
  - repeat apply settled_remove_char; try reflexivity.
    apply settled_re_sub.
Qed.

Example canonical_modified :
  get_canonical_peptide ".(Acetyl)PEPT[Oxidation]I-DEK." = "PEPTIDEK".
Proof. reflexivity. Qed.

Example canonical_unclosed : get_canonical_peptide "A((B)C)[[]x]" = "AC)x]".
Proof. reflexivity. Qed.

End CanonicalFacts.

(** ** Label resolution *)

Module LabelFacts.
Import Py Commons.

Lemma join_single sep l : PyStr.join sep [l] = l.
Proof. reflexivity. Qed.

(** C2, as amended. A single distinct label value resolves to [LFQ] without
    a channel table in the module-level [get_label] and in
    [extract_label_from_sdrf], whatever the value; in [Feature.get_label] it
    does so exactly when the value contains [LABEL FREE] or [label free]. *)
Theorem single_label_resolution :
  (forall labels : list string,
      length labels = 1%nat -> Ibaq.get_label labels = Ok ("LFQ", None))
  /\ (forall sdrf_df : list Stream.sdrf_row,
        length (Pandas.unique (map Stream.comment_label sdrf_df)) = 1%nat ->
        Stream.extract_label_from_sdrf sdrf_df
        = Ok ("LFQ", Pandas.unique (map Stream.source_name sdrf_df), None))
  /\ (forall label : string,
        Ibaq.Feature_get_label [label] = Ok ("LFQ", None)
        <-> PyStr.contains "LABEL FREE" label || PyStr.contains "label free" label
            = true).
Proof.
  split; [|split].
  - intros labels H. unfold Ibaq.get_label. now rewrite H.
  - intros sdrf_df H. unfold Stream.extract_label_from_sdrf. now rewrite H.
  - intros label. unfold Ibaq.Feature_get_label. rewrite join_single.
    change (length [label] =? 1)%nat with true. rewrite andb_true_l.
    destruct (PyStr.contains "LABEL FREE" label || PyStr.contains "label free" label);
      [tauto|].
    split; [|discriminate].
    destruct (_ || _); [discriminate|].
    destruct (_ || _); discriminate.
Qed.

(** [single_label_resolution] at a one-row design table and at the label
    [label free sample]. *)
Lemma single_label_resolution_witness :
  Ibaq.get_label ["TMT126"] = Ok ("LFQ", None)
  /\ Stream.extract_label_from_sdrf
       [Stream.mk_sdrf_row "S1" "a.raw" "TMT126"; Stream.mk_sdrf_row "S2" "b.raw" "TMT126"]
     = Ok ("LFQ", ["S1"; "S2"], None)
  /\ Ibaq.Feature_get_label ["label free sample"] = Ok ("LFQ", None).
Proof.
  destruct single_label_resolution as (H1 & H2 & H3).
  split; [apply H1; reflexivity|].
  split; [apply (H2 [Stream.mk_sdrf_row "S1" "a.raw" "TMT126";
                     Stream.mk_sdrf_row "S2" "b.raw" "TMT126"]); reflexivity|].
  apply H3. reflexivity.
Defined.

(** C2 as stated fails on [Feature.get_label]: the single label [TMT126] is
    resolved as TMT with the 6-plex table. *)
Lemma feature_get_label_single_tmt :
  Ibaq.Feature_get_label ["TMT126"] = Ok ("TMT", Some TMT6plex)
  /\ Ibaq.Feature_get_label ["TMT126"] <> Ok ("LFQ", None).
Proof. split; [reflexivity|]. vm_compute. discriminate. Qed.

Example feature_get_label_unknown :
  Ibaq.Feature_get_label ["heavy"] = Raise (SystemExit Ibaq.unsupported).
Proof. reflexivity. Qed.

End LabelFacts.

(** ** Protein support *)

Module SupportFacts.
Import Stream.Support Statements.Support.

(** A proposal that differs from the recorded protein removes the entry. *)
Lemma merge_key_conflict (unique_dict unique_peptides : gmap string string)
  (i proposed known : string) :
  unique_dict !! i = Some proposed ->
  unique_peptides !! i = Some known ->
  proposed <> known ->
  merge_key unique_dict unique_peptides i !! i = None.
Proof.
  intros Hd Hp Hne. unfold merge_key. rewrite Hd, Hp.
  rewrite bool_decide_eq_true_2 by exact Hne.
  apply lookup_delete_eq.
Qed.

(** A proposal for a peptide without an entry records it, whether or not
    the peptide was removed before: the dictionary keeps no trace of a
    removal. *)
Lemma merge_key_absent (unique_dict unique_peptides : gmap string string)
  (i proposed : string) :
  unique_dict !! i = Some proposed ->
  unique_peptides !! i = None ->
  merge_key unique_dict unique_peptides i !! i = Some proposed.
Proof.
  intros Hd Hp. unfold merge_key. rewrite Hd, Hp.
  apply lookup_insert_eq.
Qed.

(** Other peptides are not touched. *)
Lemma merge_key_other (unique_dict unique_peptides : gmap string string)
  (i j : string) :
  i <> j ->
  merge_key unique_dict unique_peptides i !! j = unique_peptides !! j.
Proof.
  intros Hne. unfold merge_key.
  destruct (unique_dict !! i); [|reflexivity].
  destruct (unique_peptides !! i); [case_bool_decide|];
    rewrite ?lookup_delete_ne, ?lookup_insert_ne by exact Hne; reflexivity.
Qed.

(** A batch of one row proposes that row. *)
Lemma merge_batch_single (unique_peptides : gmap string string)
  (peptide protein : string) :
  merge_batch unique_peptides [(peptide, protein)]
  = merge_key {[peptide := protein]} unique_peptides peptide.
Proof.
  unfold merge_batch, unique_df, dict_zip. cbn.
  rewrite String.eqb_refl. cbn.
  rewrite bool_decide_eq_false_2 by apply not_elem_of_nil. cbn.
  rewrite bool_decide_eq_false_2 by apply not_elem_of_nil. cbn.
  now rewrite insert_empty.
Qed.

(** For any peptide and any two different proteins: the second batch removes
    the entry and a third batch that repeats the second protein stores it
    again. *)
Lemma reinsertion_after_eviction (peptide a b : string) :
  a <> b ->
  ingest [[(peptide, a)]; [(peptide, b)]] !! peptide = None
  /\ ingest [[(peptide, a)]; [(peptide, b)]; [(peptide, b)]] !! peptide = Some b.
Proof.
  intros Hab. unfold ingest. cbn [foldl]. rewrite !merge_batch_single.
  assert (merge_key {[peptide := a]} ∅ peptide !! peptide = Some a) as H1.
  { apply merge_key_absent; [apply lookup_singleton_eq|apply lookup_empty]. }
  assert (merge_key {[peptide := b]} (merge_key {[peptide := a]} ∅ peptide) peptide
          !! peptide = None) as H2.
  { apply (merge_key_conflict _ _ _ b a);
      [apply lookup_singleton_eq|exact H1|congruence]. }
  split; [exact H2|].
  apply merge_key_absent; [apply lookup_singleton_eq|exact H2].
Qed.

(** C1 does not hold of the code. After the second batch the entry of [p1]
    is gone, after the third it is back, and [p1] counts towards [B]: with
    [min_unique = 2] the protein [B] is strong only because of it. *)
Theorem eviction_is_undone_by_later_batch :
  ingest (take 2 three_batches) !! "p1" = None
  /\ ingest three_batches !! "p1" = Some "B"
  /\ strong_proteins 2 (ingest three_batches) = ["B"]
  /\ strong_proteins 2 (delete "p1" (ingest three_batches)) = [].
Proof. vm_compute. repeat split; reflexivity. Qed.

(** The example of the specification: [{p1→A, p2→A, p3→B}] with
    [min_unique = 2]. *)
Example strong_proteins_example :
  strong_proteins 2 (ingest [[("p1", "A"); ("p2", "A"); ("p3", "B")]]) = ["A"].
Proof. vm_compute. reflexivity. Qed.

(** Within one batch a peptide with two proteins is never proposed. *)
Example ambiguous_within_batch :
  ingest [[("p1", "A"); ("p1", "B"); ("p1", "B")]] = ∅.
Proof. vm_compute. reflexivity. Qed.

End SupportFacts.

(** ** Quantile normalisation *)

Module QuantileFacts.
Import Py Stream.Quantile.

Local Open Scope float_scope.

(** The incremental mean of the first pass. *)
Lemma recalculate_eq original count value :
  recalculate original count value
  = ((original * float_of_Z count + value) / float_of_Z (count + 1), (count + 1)%Z).
Proof. reflexivity. Qed.

(** A loop over ranks other than [i] leaves the entry of rank [i] alone. *)
Lemma for_each_rank_untouched (dic : gmap nat float) (ranks : list nat)
  (quantile quantile' : gmap nat (float * Z)) (i : nat) :
  for_each
    (fun quantile k =>
       oc ← getitem quantile k;
       v ← getitem dic k;
       Ok (<[k := recalculate (fst oc) (snd oc) v]> quantile))
    ranks quantile = Ok quantile' ->
  ~ In i ranks ->
  quantile' !! i = quantile !! i.
Proof.
  revert quantile. induction ranks as [|k ranks IH]; intros quantile; simpl.
  - now intros [= <-].
  - intros H Hi.
    destruct (getitem quantile k) as [oc|]; cbn in H; [|discriminate].
    destruct (getitem dic k) as [v|]; cbn in H; [|discriminate].
    rewrite (IH _ H) by tauto.
    apply lookup_insert_ne. intros Heq. apply Hi. now left.
Qed.

(** A sample leaves the ranks beyond its own length untouched. *)
Lemma quantile_update_rank_untouched (quantile quantile' : gmap nat (float * Z))
  (column : list float) (i : nat) :
  size quantile <> 0%nat ->
  (length (Pandas.sort_desc (Pandas.dropna column)) <= i)%nat ->
  quantile_update quantile column = Ok quantile' ->
  quantile' !! i = quantile !! i.
Proof.
  intros Hne Hi. unfold quantile_update.
  set (sorted := Pandas.sort_desc (Pandas.dropna column)) in *.
  assert (size (Pandas.to_dict sorted) = length sorted) as Hsize.
  { unfold Pandas.to_dict. clear. generalize 0%nat.
    induction sorted as [|x l IH]; intros start; simpl.
    - apply map_size_empty.
    - rewrite map_size_insert_None, IH; [reflexivity|].
      apply lookup_map_seq_None. lia. }
  rewrite Hsize.
  destruct (Nat.eqb_spec (size quantile) 0) as [|_]; [contradiction|].
  destruct (for_each _ _ quantile) as [q1|e] eqn:Hloop; simpl; [|discriminate].
  assert (q1 !! i = quantile !! i) as Hq1.
  { apply (for_each_rank_untouched _ _ _ _ _ Hloop).
    rewrite in_seq. lia. }
  destruct (length sorted <=? size q1)%nat; intros [= <-]; [exact Hq1|].
  rewrite lookup_union_r; [exact Hq1|].
  rewrite lookup_fmap, map_lookup_filter.
  unfold Pandas.to_dict. rewrite lookup_map_seq_0.
  now rewrite (proj2 (lookup_ge_None sorted i) Hi).
Qed.

(** The state after the first sample [[10, 8, 6]]. *)
Example quantile_first_sample :
  quantile_pass [[10; 8; 6]]
  = Ok (Pandas.to_dict [(10, 1%Z); (8, 1%Z); (6, 1%Z)]).
Proof. vm_compute. reflexivity. Qed.

(** C3. Folding [[10, 8, 6]] and [[9, 7]] gives the reference values
    [[9.5, 7.5, 6]]; rank 2 keeps the value and the count the first sample
    gave it; the second pass maps the first sample to [[9.5, 7.5, 6]] and the
    second to [[9.5, 7.5]]. *)
Theorem quantile_two_samples :
  exists quantile,
    quantile_pass [[10; 8; 6]; [9; 7]] = Ok quantile
    /\ quantile = Pandas.to_dict [(9.5, 2%Z); (7.5, 2%Z); (6, 1%Z)]
    /\ norm_intensity quantile = Pandas.to_dict [9.5; 7.5; 6]
    /\ qnorm (norm_intensity quantile) [10; 8; 6] = Ok [9.5; 7.5; 6]
    /\ qnorm (norm_intensity quantile) [9; 7] = Ok [9.5; 7.5].
Proof.
  eexists. split; [vm_compute; reflexivity|].
  vm_compute. repeat split; reflexivity.
Qed.

(** The order of the samples and of the rows does not matter here. *)
Example quantile_two_samples_reordered :
  quantile_pass [[7; 9]; [6; 10; 8]]
  = Ok (Pandas.to_dict [(9.5, 2%Z); (7.5, 2%Z); (6, 1%Z)]).
Proof. vm_compute. reflexivity. Qed.

End QuantileFacts.

(** ** Per-run centering *)

Module CenteringFacts.
Import Py Commons Stream.Centering Statements.Centering.

Local Open Scope float_scope.

Lemma dict_set_group_keys {V : Type} (d : dict V) run z (v : V) :
  group_keys d -> group_keys (dict_set d (KGroup run z) v).
Proof.
  unfold group_keys. induction d as [|[k w] d IH]; simpl; intros H.
  - repeat constructor. simpl. eauto.
  - inversion H as [|? ? Hk Hd]; subst. case_bool_decide.
    + constructor; [simpl; eauto|exact Hd].
    + constructor; [exact Hk|now apply IH].
Qed.

(** A dictionary of groups has no entry under a column name. *)
Lemma dict_get_column_name {V : Type} (d : dict V) (column : string) :
  group_keys d -> dict_get d (KStr column) = Raise (KeyError (KStr column)).
Proof.
  unfold dict_get, group_keys. induction d as [|[k w] d IH]; simpl; intros H;
    [reflexivity|].
  inversion H as [|? ? (run & z & Hk) Hd]; subst. simpl in Hk. subst k.
  rewrite bool_decide_eq_false_2 by discriminate. now apply IH.
Qed.

(** The groups of a frame of one row. *)
Lemma groupby_single label (r : msrow) :
  Pandas.groupby group_le (fun r => Some (group_name label r)) [r]
  = [(group_name label r, [r])].
Proof.
  unfold Pandas.groupby. cbn.
  destruct (decide_rel elem_of _ []) as [H|_]; [now apply elem_of_nil in H|].
  cbn. now rewrite bool_decide_eq_true_2.
Qed.

(** A sample that contributes to a recorded group ends the first pass. *)
Lemma accumulate_known_group label (d : dict (list float)) (r : msrow) :
  group_keys d ->
  dict_mem d (KGroup (fst (group_name label r)) (snd (group_name label r))) = true ->
  accumulate_groups label d [r] = Raise (KeyError (KStr NORM_INTENSITY)).
Proof.
  intros Hk Hm. unfold accumulate_groups. rewrite groupby_single.
  cbn [for_each fst snd]. rewrite Hm. cbn [negb].
  now rewrite dict_get_column_name.
Qed.

(** C4 does not hold of the code. When a second sample contributes to a
    group that is already recorded, the first pass raises [KeyError] on the
    column name, for label-free and for multiplexed data, and no value is
    centred. With disjoint groups the passes complete. *)
Theorem shared_group_raises_key_error :
  first_pass "LFQ" shared_group = Raise (KeyError (KStr NORM_INTENSITY))
  /\ first_pass "TMT" shared_group = Raise (KeyError (KStr NORM_INTENSITY))
  /\ msstats_normalization "LFQ" shared_group
     = Raise (KeyError (KStr NORM_INTENSITY))
  /\ msstats_normalization "LFQ"
       [ [mk_msrow "r1" 1 1 10; mk_msrow "r1" 1 1 12]; [mk_msrow "r2" 1 1 12] ]
     = Ok [[10.5; 12.5]; [11.5]].
Proof. vm_compute. repeat split; reflexivity. Qed.

(** With disjoint groups the label-free branch adds the median of the group
    medians of the fraction (here 16), not the median of the fraction's
    intensities that [fraction_median] holds (here 13). *)
Example label_free_baseline :
  first_pass "LFQ"
    [ [mk_msrow "r1" 1 1 10; mk_msrow "r1" 1 1 12; mk_msrow "r1" 1 1 14];
      [mk_msrow "r2" 1 1 20] ]
  = Ok [(KGroup "r1" 1, [10; 12; 14]); (KGroup "r2" 1, [20])]
  /\ fraction_median [(KGroup "r1" 1, [10; 12; 14]); (KGroup "r2" 1, [20])]
     = [(1%Z, 13)]
  /\ msstats_normalization "LFQ"
       [ [mk_msrow "r1" 1 1 10; mk_msrow "r1" 1 1 12; mk_msrow "r1" 1 1 14];
         [mk_msrow "r2" 1 1 20] ]
     = Ok [[14; 16; 18]; [16]].
Proof. vm_compute. repeat split; reflexivity. Qed.

End CenteringFacts.

(** ** Frequency filter *)

Module FrequencyFacts.
Import Py Stream.Frequency Statements.Frequency.

(** After a sample is counted, a peptide that the sample does not contain has
    no count, whatever it had before: the dictionary is rebuilt from the
    peptides of the sample alone. *)
Lemma count_sample_forgets (peptides_count : gmap string Z)
  (norm_df : list out_row) (peptide : string) :
  peptide ∉ map PeptideCanonical norm_df ->
  count_sample true peptides_count (Some norm_df) !! peptide = None.
Proof.
  intros Hnot. unfold count_sample.
  apply not_elem_of_list_to_map_1.
  intros Hin. apply Hnot.
  apply list_elem_of_fmap in Hin as ([p v] & Hp1 & Hp).
  simpl in Hp1. subst p.
  apply list_elem_of_In, in_map_iff in Hp as (q & Hq & Hp).
  inversion Hq; subst.
  apply list_elem_of_In in Hp.
  now apply PandasFacts.elem_of_unique_from in Hp.
Qed.

(** C6 does not hold of the code. A peptide in 3 of 10 samples passes both
    tests of the filter on its true count, yet it has no count after the
    loop and is not among the strong peptides, so the export drops it; and
    the export itself stops at the second sample, where [strong_peptides] is
    no longer bound, also when the peptide is counted. *)
Theorem peptide_in_three_of_ten_is_dropped :
  let peptides_count := foldl (count_sample true) ∅ ten_samples in
  (PrimFloat.leb threshold (PrimFloat.div (float_of_Z 3) (float_of_Z 10)) = true
   /\ (1 <? 3)%Z = true)
  /\ peptides_count !! "PEPTIDEK" = None
  /\ strong_peptides 10 peptides_count = ["COMMONPEPK"]
  /\ frequency_filter true ten_samples
     = ([mk_out_row "COMMONPEPK" "PROT1" "S1" 1%float "c1"],
        Some (UnboundLocalError "strong_peptides"))
  /\ frequency_filter true ten_samples_late
     = ([mk_out_row "COMMONPEPK" "PROT1" "S1" 1%float "c1"],
        Some (UnboundLocalError "strong_peptides")).
Proof. vm_compute. repeat split; reflexivity. Qed.

(** A peptide in the last sample only: counted once, below the minimum. *)
Example peptide_in_one_of_ten :
  strong_peptides 10
    (foldl (count_sample true) ∅
       (replicate 9 (sample_of "S" ["COMMONPEPK"])
        ++ [sample_of "S10" ["COMMONPEPK"; "RAREPEPK"]]))
  = ["COMMONPEPK"].
Proof. vm_compute. reflexivity. Qed.

(** With a single sample the filter removes nothing. *)
Example single_sample_kept :
  frequency_filter true [sample_of "S1" ["COMMONPEPK"; "PEPTIDEK"]]
  = ([mk_out_row "COMMONPEPK" "PROT1" "S1" 1%float "c1";
      mk_out_row "PEPTIDEK" "PROT1" "S1" 1%float "c1"], None).
Proof. vm_compute. reflexivity. Qed.

(** Without the flag every sample is exported. *)
Example filter_disabled :
  frequency_filter false
    [sample_of "S1" ["PEPTIDEK"]; None; sample_of "S3" ["COMMONPEPK"]]
  = ([mk_out_row "PEPTIDEK" "PROT1" "S1" 1%float "c1";
      mk_out_row "COMMONPEPK" "PROT1" "S3" 1%float "c1"], None).
Proof. vm_compute. reflexivity. Qed.

End FrequencyFacts.

(** ** Sample names and batch ids *)

Module CorrectBatchesFacts.
Import Py PyStr CorrectBatches Statements.Batches.

Lemma hd_split c s : hd EmptyString (split c s) = prefix_before c s.
Proof.
  induction s as [|a rest IH]; [reflexivity|].
  simpl. destruct (Ascii.eqb a c); [reflexivity|].
  destruct (split c rest); simpl in *; now rewrite <- IH.
Qed.

Lemma alnum_not_hyphen c : is_alnum c = true -> Ascii.eqb c "-" = false.
Proof.
  destruct (Ascii.eqb_spec c "-") as [->|]; [discriminate|reflexivity].
Qed.

Lemma all_alnum_to_end s : all_alnum s = true -> alnum_to_end s = true.
Proof.
  induction s as [|c rest IH]; simpl; [reflexivity|].
  intros H. apply andb_true_iff in H as [Hc Hr]. rewrite Hc. now apply IH.
Qed.

(** A name the pattern accepts starts with a token of alphanumeric
    characters; the token is not empty when a token is expected. *)
Lemma sample_id_match_token st s :
  sample_id_match st s = true ->
  all_alnum (batch_token s) = true
  /\ (st = ExpectToken -> batch_token s <> EmptyString).
Proof.
  unfold batch_token.
  revert st. induction s as [|c rest IH]; intros st; simpl.
  - destruct st; [discriminate|]. intros _. split; [reflexivity|discriminate].
  - destruct (is_alnum c) eqn:Ha.
    + intros H. rewrite (alnum_not_hyphen _ Ha). simpl. rewrite Ha.
      destruct (IH _ H) as [Hall _]. split; [exact Hall|discriminate].
    + destruct st; [discriminate|].
      intros H. apply andb_true_iff in H as [Hc _]. rewrite Hc.
      split; [reflexivity|discriminate].
Qed.

(** A valid sample name passes both tests of the loop body. *)
Lemma batch_id_of_valid sample :
  SAMPLE_ID_REGEX sample = true -> batch_id_of sample = Ok (batch_token sample).
Proof.
  intros H. apply sample_id_match_token in H as [Hall Hne].
  specialize (Hne eq_refl).
  unfold batch_id_of, batch_token in *. rewrite <- hd_split in *.
  destruct (split "-" sample) as [|t ts] eqn:E;
    [now apply PyStrFacts.split_nonempty in E|].
  simpl in *. rewrite bool_decide_eq_false_2 by exact Hne.
  destruct t as [|c t]; [congruence|].
  simpl in Hall. apply andb_true_iff in Hall as [Hc Ht].
  simpl. now rewrite Hc, (all_alnum_to_end _ Ht).
Qed.

Lemma traverse_ok {A B : Type} (f : A -> result B) (g : A -> B) (l : list A) :
  (forall x, In x l -> f x = Ok (g x)) -> traverse f l = Ok (map g l).
Proof.
  induction l as [|x l IH]; intros H; simpl; [reflexivity|].
  rewrite (H x) by now left. simpl.
  rewrite IH by (intros; apply H; now right). reflexivity.
Qed.

(** The validator returns [True] exactly when every name matches, and then
    prints nothing; every name that does not match is printed. *)
Lemma is_valid_sample_id_true samples pattern :
  snd (is_valid_sample_id (Many samples) pattern) = true
  <-> (forall s, In s samples -> pattern s = true).
Proof.
  unfold is_valid_sample_id.
  destruct (List.filter _ samples) as [|x xs] eqn:E; simpl; split.
  - intros _ s Hs. destruct (pattern s) eqn:Hp; [reflexivity|].
    assert (In s (List.filter (fun sample => negb (pattern sample)) samples)) as Hin
      by (apply filter_In; now rewrite Hp).
    now rewrite E in Hin.
  - reflexivity.
  - discriminate.
  - intros Hall.
    assert (In x (List.filter (fun sample => negb (pattern sample)) samples)) as Hin
      by (rewrite E; now left).
    apply filter_In in Hin as [Hin Hp]. rewrite (Hall x Hin) in Hp. discriminate.
Qed.

Lemma is_valid_sample_id_quiet samples pattern :
  snd (is_valid_sample_id samples pattern) = true ->
  fst (is_valid_sample_id samples pattern) = [].
Proof.
  unfold is_valid_sample_id. destruct (List.filter _ _); [reflexivity|discriminate].
Qed.

Lemma is_valid_sample_id_lists samples pattern s :
  In s samples -> pattern s = false ->
  In (" - " +:+ s) (fst (is_valid_sample_id (Many samples) pattern)).
Proof.
  intros Hin Hp. unfold is_valid_sample_id.
  assert (In s (List.filter (fun sample => negb (pattern sample)) samples)) as Hf
    by (apply filter_In; now rewrite Hp).
  destruct (List.filter _ samples) as [|x xs]; [contradiction|].
  cbn [fst]. right.
  exact (in_map (fun i => " - " +:+ i) (x :: xs) s Hf).
Qed.

(** *** [pd.factorize] *)

Lemma uniques_after_extends uniques values :
  exists more, uniques_after uniques values = uniques ++ more.
Proof.
  revert uniques. induction values as [|x rest IH]; intros uniques; simpl.
  - exists []. now rewrite app_nil_r.
  - destruct (index_of x uniques).
    + apply IH.
    + destruct (IH (uniques ++ [x])) as [more ->].
      exists (x :: more). now rewrite <- app_assoc.
Qed.

Lemma index_of_app x l more i :
  index_of x l = Some i -> index_of x (l ++ more) = Some i.
Proof.
  revert i. induction l as [|y l IH]; intros i; simpl; [discriminate|].
  destruct (String.eqb y x); [trivial|].
  destruct (index_of x l) as [k|]; [|discriminate].
  intros [= <-]. now rewrite (IH k).
Qed.

Lemma index_of_fresh x l more :
  index_of x l = None -> index_of x (l ++ x :: more) = Some (length l).
Proof.
  induction l as [|y l IH]; simpl.
  - now rewrite String.eqb_refl.
  - destruct (String.eqb y x); [discriminate|].
    destruct (index_of x l); [discriminate|].
    intros _. now rewrite IH.
Qed.

Lemma index_of_nth x l i : index_of x l = Some i -> nth_error l i = Some x.
Proof.
  revert i. induction l as [|y l IH]; intros i; simpl; [discriminate|].
  destruct (String.eqb_spec y x) as [->|_].
  - now intros [= <-].
  - destruct (index_of x l) as [k|]; [|discriminate].
    intros [= <-]. now apply IH.
Qed.

(** Each code is the position of its value among the distinct values. *)
Lemma factorize_from_codes uniques values :
  Forall2 (fun x code =>
             exists i, code = Z.of_nat i
                       /\ index_of x (uniques_after uniques values) = Some i)
          values (factorize_from uniques values).
Proof.
  revert uniques. induction values as [|x rest IH]; intros uniques; simpl;
    [constructor|].
  destruct (index_of x uniques) as [i|] eqn:E.
  - constructor; [|apply IH].
    exists i. split; [reflexivity|].
    destruct (uniques_after_extends uniques rest) as [more ->].
    now apply index_of_app.
  - constructor; [|apply IH].
    exists (length uniques). split; [reflexivity|].
    destruct (uniques_after_extends (uniques ++ [x]) rest) as [more ->].
    rewrite <- app_assoc. now apply index_of_fresh.
Qed.

Lemma Forall2_nth_error {A B : Type} (P : A -> B -> Prop) l1 l2 k a b :
  Forall2 P l1 l2 ->
  nth_error l1 k = Some a -> nth_error l2 k = Some b -> P a b.
Proof.
  intros HF. revert k. induction HF as [|x y xs ys Hxy _ IH]; intros k Ha Hb.
  - destruct k; discriminate.
  - destruct k as [|k]; simpl in *.
    + injection Ha as <-. injection Hb as <-. exact Hxy.
    + eapply IH; eassumption.
Qed.

(** Two values have the same code exactly when they are equal. *)
Lemma factorize_codes_equal values i j x y cx cy :
  nth_error values i = Some x -> nth_error values j = Some y ->
  nth_error (factorize values) i = Some cx ->
  nth_error (factorize values) j = Some cy ->
  (cx = cy <-> x = y).
Proof.
  intros Hx Hy Hcx Hcy.
  pose proof (factorize_from_codes [] values) as HF.
  fold (factorize values) in HF.
  pose proof (fun k v c => Forall2_nth_error _ _ _ k v c HF) as Hcode.
  cbv beta in Hcode.
  destruct (Hcode _ _ _ Hx Hcx) as (n & -> & Hn).
  destruct (Hcode _ _ _ Hy Hcy) as (m & -> & Hm).
  split.
  - intros Heq. apply Nat2Z.inj in Heq. subst m.
    apply index_of_nth in Hn, Hm. congruence.
  - intros ->. congruence.
Qed.

Lemma length_factorize_from uniques values :
  length (factorize_from uniques values) = length values.
Proof.
  revert uniques. induction values as [|x rest IH]; intros uniques; simpl;
    [reflexivity|].
  destruct (index_of x uniques); simpl; now rewrite IH.
Qed.

(** For valid names the batch ids are the codes of the tokens. *)
Lemma get_batch_id_valid samples :
  (forall s, In s samples -> SAMPLE_ID_REGEX s = true) ->
  get_batch_id_from_sample_names samples = Ok (factorize (map batch_token samples)).
Proof.
  intros Hall. unfold get_batch_id_from_sample_names.
  rewrite (traverse_ok _ batch_token); [reflexivity|].
  intros x Hx. apply batch_id_of_valid, Hall, Hx.
Qed.

(** C10. For sample names that [is_valid_sample_id] accepts,
    [get_batch_id_from_sample_names] raises nothing and returns one integer
    per sample; two samples have the same batch id exactly when they have
    the same token before the first hyphen. *)
Theorem batch_ids_of_valid_samples (samples : list string) :
  snd (is_valid_sample_id (Many samples) SAMPLE_ID_REGEX) = true ->
  exists batch_ids,
    get_batch_id_from_sample_names samples = Ok batch_ids
    /\ length batch_ids = length samples
    /\ forall i j si sj bi bj,
         nth_error samples i = Some si -> nth_error samples j = Some sj ->
         nth_error batch_ids i = Some bi -> nth_error batch_ids j = Some bj ->
         (bi = bj <-> batch_token si = batch_token sj).
Proof.
  intros Hvalid.
  pose proof (proj1 (is_valid_sample_id_true _ _) Hvalid) as Hall.
  exists (factorize (map batch_token samples)).
  split; [now apply get_batch_id_valid|].
  split; [unfold factorize; now rewrite length_factorize_from, length_map|].
  intros i j si sj bi bj Hi Hj Hbi Hbj.
  apply (factorize_codes_equal (map batch_token samples) i j); try assumption.
  - now rewrite nth_error_map, Hi.
  - now rewrite nth_error_map, Hj.
Qed.

(** [batch_ids_of_valid_samples] at five sample names of three studies. *)
Lemma batch_ids_of_valid_samples_witness :
  exists batch_ids,
    get_batch_id_from_sample_names
      ["PXD1-S1"; "PXD2-S1"; "PXD1-S2"; "PXD3"; "PXD2-S2-b"] = Ok batch_ids
    /\ length batch_ids = 5%nat
    /\ forall i j si sj bi bj,
         nth_error ["PXD1-S1"; "PXD2-S1"; "PXD1-S2"; "PXD3"; "PXD2-S2-b"] i = Some si ->
         nth_error ["PXD1-S1"; "PXD2-S1"; "PXD1-S2"; "PXD3"; "PXD2-S2-b"] j = Some sj ->
         nth_error batch_ids i = Some bi -> nth_error batch_ids j = Some bj ->
         (bi = bj <-> batch_token si = batch_token sj).
Proof.
  apply (batch_ids_of_valid_samples
           ["PXD1-S1"; "PXD2-S1"; "PXD1-S2"; "PXD3"; "PXD2-S2-b"]).
  reflexivity.
Defined.

Example batch_ids_example :
  get_batch_id_from_sample_names
    ["PXD1-S1"; "PXD2-S1"; "PXD1-S2"; "PXD3"; "PXD2-S2-b"]
  = Ok [0; 1; 0; 2; 1]%Z.
Proof. reflexivity. Qed.

(** Without the validation the loop does raise. *)
Example batch_id_of_empty_prefix :
  get_batch_id_from_sample_names ["-S1"]
  = Raise (ValueError "Invalid sample name format: -S1. Expected batch-id prefix.").
Proof. reflexivity. Qed.

(** C9. The validation step of batch correction raises its error exactly
    when some sample name fails the pattern, and every failing name is
    printed with it; when all names pass nothing is printed or raised and
    the batch ids are handed on. The pattern rejects [abc_123] and accepts
    [STUDY1-S01]. *)
Theorem invalid_sample_ids_are_rejected :
  (forall columns : list string,
      snd (run_batch_correction columns)
      = Raise (ValueError "Invalid sample IDs found in the data.")
      <-> exists s, In s columns /\ SAMPLE_ID_REGEX s = false)
  /\ (forall (columns : list string) (s : string),
        In s columns -> SAMPLE_ID_REGEX s = false ->
        In (" - " +:+ s) (fst (run_batch_correction columns)))
  /\ (forall columns : list string,
        (forall s, In s columns -> SAMPLE_ID_REGEX s = true) ->
        exists batch_ids, run_batch_correction columns = ([], Ok batch_ids))
  /\ is_valid_sample_id (One "abc_123") SAMPLE_ID_REGEX
     = (["The following sample IDs are invalid:"; " - abc_123"], false)
  /\ is_valid_sample_id (One "STUDY1-S01") SAMPLE_ID_REGEX = ([], true).
Proof.
  assert (forall columns,
             run_batch_correction columns
             = (fst (is_valid_sample_id (Many columns) SAMPLE_ID_REGEX),
                if snd (is_valid_sample_id (Many columns) SAMPLE_ID_REGEX)
                then get_batch_id_from_sample_names columns
                else Raise (ValueError "Invalid sample IDs found in the data.")))
    as Hrun.
  { intros columns. unfold run_batch_correction.
    destruct (is_valid_sample_id _ _) as [printed []]; reflexivity. }
  split; [|split; [|split; [|split]]].
  - intros columns. rewrite Hrun. simpl snd.
    destruct (snd (is_valid_sample_id (Many columns) SAMPLE_ID_REGEX)) eqn:E.
    + pose proof (proj1 (is_valid_sample_id_true _ _) E) as Hall.
      rewrite (get_batch_id_valid _ Hall). split; [discriminate|].
      intros (s & Hin & Hs). rewrite (Hall s Hin) in Hs. discriminate.
    + split; [intros _|reflexivity].
      destruct (existsb (fun s => negb (SAMPLE_ID_REGEX s)) columns) eqn:Ex.
      * apply existsb_exists in Ex as (s & Hin & Hs).
        exists s. split; [exact Hin|]. now destruct (SAMPLE_ID_REGEX s).
      * assert (snd (is_valid_sample_id (Many columns) SAMPLE_ID_REGEX) = true);
          [|congruence].
        apply is_valid_sample_id_true. intros s Hin.
        destruct (SAMPLE_ID_REGEX s) eqn:Hs; [reflexivity|].
        assert (existsb (fun s => negb (SAMPLE_ID_REGEX s)) columns = true);
          [|congruence].
        apply existsb_exists. exists s. now rewrite Hs.
  - intros columns s Hin Hs. rewrite Hrun. simpl fst.
    now apply is_valid_sample_id_lists.
  - intros columns Hall. rewrite Hrun.
    pose proof (proj2 (is_valid_sample_id_true _ _) Hall) as E.
    rewrite E, (is_valid_sample_id_quiet _ _ E), (get_batch_id_valid _ Hall).
    eexists. reflexivity.
  - reflexivity.
  - reflexivity.
Qed.

(** [invalid_sample_ids_are_rejected] at a table with two failing names. *)
Lemma invalid_sample_ids_are_rejected_witness :
  snd (run_batch_correction ["PXD1-S1"; "abc_123"; "PXD1-"])
  = Raise (ValueError "Invalid sample IDs found in the data.")
  /\ In " - abc_123" (fst (run_batch_correction ["PXD1-S1"; "abc_123"; "PXD1-"]))
  /\ In " - PXD1-" (fst (run_batch_correction ["PXD1-S1"; "abc_123"; "PXD1-"]))
  /\ exists batch_ids,
       run_batch_correction ["STUDY1-S01"; "STUDY2-S01"] = ([], Ok batch_ids).
Proof.
  destruct invalid_sample_ids_are_rejected as (H1 & H2 & H3 & _).
  split; [apply H1; exists "abc_123"; split; [right; left|]; reflexivity|].
  split; [apply (H2 _ "abc_123"); [right; left|]; reflexivity|].
  split; [apply (H2 _ "PXD1-"); [right; right; left|]; reflexivity|].
  apply H3. intros s [<-|[<-|[]]]; reflexivity.
Defined.

End CorrectBatchesFacts.

(** ** Order of floats *)

Module FloatFacts.
Import Pandas.

Ltac cmp_cases :=
  repeat match goal with
  | |- context [Z.compare ?a ?b] => destruct (Z.compare_spec a b); subst
  | H : context [Z.compare ?a ?b] |- _ => destruct (Z.compare_spec a b); subst
  | |- context [Pos.compare_cont Eq ?a ?b] =>
      change (Pos.compare_cont Eq a b) with (Pos.compare a b);
      destruct (Pos.compare_spec a b); subst
  | H : context [Pos.compare_cont Eq ?a ?b] |- _ =>
      change (Pos.compare_cont Eq a b) with (Pos.compare a b) in H;
      destruct (Pos.compare_spec a b); subst
  end; simpl in *; try reflexivity; try discriminate; try lia.

Lemma SFleb_trans x y z :
  SFleb x y = true -> SFleb y z = true -> SFleb x z = true.
Proof.
  unfold SFleb.
  destruct x as [[]|[]| |[] mx ex], y as [[]|[]| |[] my ey], z as [[]|[]| |[] mz ez];
    simpl; try reflexivity; try discriminate; intros H1 H2; cmp_cases.
Qed.

Lemma SFleb_refl x : SFeqb x x = true -> SFleb x x = true.
Proof.
  unfold SFleb, SFeqb. destruct (SFcompare x x) as [[]|]; congruence.
Qed.

Lemma SFltb_leb x y : SFltb x y = true -> SFleb x y = true.
Proof. unfold SFltb, SFleb. destruct (SFcompare x y) as [[]|]; congruence. Qed.

Lemma SFltb_false_leb x y :
  SFeqb x x = true -> SFeqb y y = true -> SFltb x y = false -> SFleb y x = true.
Proof.
  unfold SFltb, SFleb, SFeqb.
  destruct x as [[]|[]| |[] mx ex], y as [[]|[]| |[] my ey];
    simpl; try reflexivity; try discriminate; intros H1 H2 H3; cmp_cases.
Qed.

Lemma notna_spec x : notna x = SFeqb (Prim2SF x) (Prim2SF x).
Proof.
  unfold notna, PrimFloat.is_nan. rewrite negb_involutive. apply FloatAxioms.eqb_spec.
Qed.

Lemma leb_trans x y z :
  PrimFloat.leb x y = true -> PrimFloat.leb y z = true -> PrimFloat.leb x z = true.
Proof. rewrite !FloatAxioms.leb_spec. apply SFleb_trans. Qed.

Lemma leb_refl x : notna x = true -> PrimFloat.leb x x = true.
Proof. rewrite notna_spec, FloatAxioms.leb_spec. apply SFleb_refl. Qed.

Lemma ltb_leb x y : PrimFloat.ltb x y = true -> PrimFloat.leb x y = true.
Proof. rewrite FloatAxioms.ltb_spec, FloatAxioms.leb_spec. apply SFltb_leb. Qed.

Lemma ltb_false_leb x y :
  notna x = true -> notna y = true ->
  PrimFloat.ltb x y = false -> PrimFloat.leb y x = true.
Proof. rewrite !notna_spec, FloatAxioms.ltb_spec, FloatAxioms.leb_spec. apply SFltb_false_leb. Qed.

End FloatFacts.

(** ** Best-peptidoform selection *)

Module PeptidoformFacts.
Import Py Pandas Ibaq FloatFacts Statements.Peptidoform.

Lemma idxmax_from_spec best g :
  notna (snd best) = true ->
  exists v, is_max (best :: g) (idxmax_from best g) v.
Proof.
  unfold is_max.
  revert best. induction g as [|[i w] rest IH]; intros [b vb] Hb; simpl in *.
  - exists vb. split; [now left|]. split; [exact Hb|].
    intros j w [[= <- <-]|[]] _. now apply leb_refl.
  - destruct (notna w && PrimFloat.ltb vb w) eqn:E.
    + apply andb_true_iff in E as [Hw Hlt].
      destruct (IH (i, w) Hw) as (v & Hin & Hv & Hmax).
      exists v. split; [now right|]. split; [exact Hv|].
      intros j x [[= <- <-]|Hjx] Hx.
      * apply leb_trans with w; [now apply ltb_leb|].
        apply (Hmax i w); [now left|exact Hw].
      * now apply (Hmax j x).
    + destruct (IH (b, vb) Hb) as (v & Hin & Hv & Hmax).
      exists v. split; [destruct Hin as [Hin|Hin]; [now left|now right; right]|].
      split; [exact Hv|].
      intros j x [[= <- <-]|[[= <- <-]|Hjx]] Hx.
      * apply (Hmax b vb); [now left|exact Hb].
      * rewrite Hx in E. simpl in E.
        apply leb_trans with vb; [now apply ltb_false_leb|].
        apply (Hmax b vb); [now left|exact Hb].
      * apply (Hmax j x); [now right|exact Hx].
Qed.

Lemma idxmax_spec g :
  (exists j w, In (j, w) g /\ notna w = true) ->
  exists i v, idxmax g = Some i /\ is_max g i v.
Proof.
  induction g as [|[i w] rest IH]; intros (j & x & Hin & Hx); [contradiction|].
  simpl. destruct (notna w) eqn:Hw.
  - destruct (idxmax_from_spec (i, w) rest Hw) as (v & Hv).
    now exists (idxmax_from (i, w) rest), v.
  - unfold is_max in *.
    destruct Hin as [[= -> ->]|Hin]; [congruence|].
    assert (exists j w, In (j, w) rest /\ notna w = true) as Hex
      by (exists j, x; auto).
    destruct (IH Hex) as (k & v & Hk & Hkin & Hv & Hmax).
    exists k, v. split; [exact Hk|]. split; [now right|]. split; [exact Hv|].
    intros j' w' [[= <- <-]|Hin'] Hw'; [congruence|]. now apply (Hmax j' w').
Qed.

Lemma In_with_index {A : Type} (df : list A) i r :
  In (i, r) (with_index df) <-> nth_error df i = Some r.
Proof.
  unfold with_index. rewrite <- list_elem_of_In, elem_of_lookup_imap.
  split.
  - intros (j & y & [= -> ->] & Hy). revert j Hy.
    induction df as [|x df IH]; intros [|j]; simpl; try discriminate; auto.
  - intros H. exists i, r. split; [reflexivity|].
    revert i H. induction df as [|x df IH]; intros [|j]; simpl; try discriminate; auto.
Qed.

Lemma loc_unique {A : Type} (d : list (nat * A)) i r :
  In (i, r) d -> (forall r', In (i, r') d -> r' = r) -> loc d i = Some r.
Proof.
  intros Hin Huniq. unfold loc.
  destruct (List.find _ d) as [[j r']|] eqn:E; simpl.
  - apply find_some in E as [Hj Heq]. simpl in Heq.
    apply Nat.eqb_eq in Heq. subst j. f_equal. now apply Huniq.
  - apply (find_none _ _ E) in Hin. simpl in Hin.
    now rewrite Nat.eqb_refl in Hin.
Qed.

Lemma traverse_Forall2 {A B : Type} (f : A -> result B) (P : A -> B -> Prop) l :
  (forall x, In x l -> exists y, f x = Ok y /\ P x y) ->
  exists ys, traverse f l = Ok ys /\ Forall2 P l ys.
Proof.
  induction l as [|x l IH]; intros H; simpl.
  - exists []. split; [reflexivity|constructor].
  - destruct (H x) as (y & Hy & Hp); [now left|].
    assert (forall x, In x l -> exists y, f x = Ok y /\ P x y) as Hl
      by (intros; apply H; now right).
    destruct (IH Hl) as (ys & Hys & HF).
    exists (y :: ys). rewrite Hy. simpl. rewrite Hys. simpl.
    split; [reflexivity|now constructor].
Qed.

Lemma traverse_Forall2_chain {A B C : Type} (f : B -> result C)
  (Q : A -> C -> Prop) la lb :
  Forall2 (fun a b => exists c, f b = Ok c /\ Q a c) la lb ->
  exists lc, traverse f lb = Ok lc /\ Forall2 Q la lc.
Proof.
  induction 1 as [|a b la lb (c & Hc & Hq) _ (lc & Hlc & HF)]; simpl.
  - exists []. split; [reflexivity|constructor].
  - exists (c :: lc). rewrite Hc. simpl. rewrite Hlc. simpl.
    split; [reflexivity|now constructor].
Qed.


Section selection.
Variable dataset : list row.

Lemma In_present i r :
  In (i, r) (present dataset)
  <-> nth_error dataset i = Some r /\ notna (NormIntensity r) = true.
Proof. unfold present. now rewrite filter_In, In_with_index. Qed.

Lemma group_keys_sorted :
  map fst (groups dataset)
  = merge_sort key_le
      (remove_dups (omap (fun ir => key_of (snd ir)) (present dataset))).
Proof.
  unfold groups, groupby. rewrite map_map. simpl. apply map_id.
Qed.

Lemma In_group_keys k :
  In k (map fst (groups dataset))
  <-> exists i r, In (i, r) (present dataset) /\ key_of r = Some k.
Proof.
  rewrite group_keys_sorted, <- list_elem_of_In, merge_sort_Permutation,
    elem_of_remove_dups, list_elem_of_omap.
  split.
  - intros ([i r] & Hin & Hk). exists i, r. now rewrite <- list_elem_of_In.
  - intros (i & r & Hin & Hk). exists (i, r). now rewrite list_elem_of_In.
Qed.

Lemma NoDup_group_keys : NoDup (map fst (groups dataset)).
Proof.
  rewrite group_keys_sorted, merge_sort_Permutation. apply NoDup_remove_dups.
Qed.

Lemma In_group g i r :
  In g (groups dataset) ->
  (In (i, r) (snd g) <-> In (i, r) (present dataset) /\ key_of r = Some (fst g)).
Proof.
  unfold groups, groupby. intros Hg.
  apply in_map_iff in Hg as (k & <- & _). simpl.
  rewrite filter_In. simpl. now rewrite bool_decide_eq_true.
Qed.

Lemma group_best g :
  In g (groups dataset) ->
  exists i,
    match idxmax (map (fun ir => (fst ir, NormIntensity (snd ir))) (snd g)) with
    | Some i => Ok i
    | None => Raise (KeyError KNaN)
    end = Ok i
    /\ exists r,
         match loc (present dataset) i with
         | Some r => Ok r
         | None => Raise (KeyError (KInt (Z.of_nat i)))
         end = Ok r
         /\ best_of dataset (fst g) r.
Proof.
  intros Hg.
  assert (In (fst g) (map fst (groups dataset))) as Hk by now apply in_map.
  apply In_group_keys in Hk as (i0 & r0 & Hin0 & Hk0).
  destruct (idxmax_spec (map (fun ir => (fst ir, NormIntensity (snd ir))) (snd g)))
    as (i & v & Hi & Hin & Hv & Hmax).
  { exists i0, (NormIntensity r0). split.
    - apply in_map_iff. exists (i0, r0). split; [reflexivity|].
      apply (In_group g); auto.
    - now apply In_present in Hin0. }
  exists i. rewrite Hi. split; [reflexivity|].
  apply in_map_iff in Hin as ([i' r] & [= -> <-] & Hin).
  apply (In_group g _ _ Hg) in Hin as [Hp Hkey].
  exists r. rewrite (loc_unique (present dataset) i r Hp).
  - split; [reflexivity|].
    split; [exact Hkey|]. apply In_present in Hp as [Hnth Hna].
    split; [now apply nth_error_In in Hnth|]. split; [exact Hna|].
    intros r' Hr' Hkey' Hna'.
    apply In_nth_error in Hr' as [j Hj].
    apply (Hmax j). 2: exact Hna'.
    apply in_map_iff. exists (j, r'). split; [reflexivity|].
    apply (In_group g _ _ Hg). split; [|exact Hkey'].
    now apply In_present.
  - intros r' Hr'. apply In_present in Hr' as [Hr' _].
    apply In_present in Hp as [Hp _]. congruence.
Qed.

(** The selection by intensity raises nothing and keeps one best row for
    each group, in the order of the groups. *)
Lemma select_best_groups :
  exists rows,
    select_best NormIntensity dataset = Ok rows
    /\ Forall2 (fun g r => best_of dataset (fst g) r) (groups dataset) rows.
Proof.
  unfold select_best. fold (present dataset). fold (groups dataset).
  destruct (traverse_Forall2
              (fun g => match idxmax (map (fun ir => (fst ir, NormIntensity (snd ir))) (snd g)) with
                        | Some i => Ok i
                        | None => Raise (KeyError KNaN)
                        end)
              (fun g i => exists r,
                   match loc (present dataset) i with
                   | Some r => Ok r
                   | None => Raise (KeyError (KInt (Z.of_nat i)))
                   end = Ok r /\ best_of dataset (fst g) r)
              (groups dataset)) as (labels & Hlabels & HF).
  { intros g Hg. apply (group_best g Hg). }
  rewrite Hlabels. simpl.
  apply (traverse_Forall2_chain _ (fun g r => best_of dataset (fst g) r)
           (groups dataset) labels HF).
Qed.

End selection.


Lemma Forall2_In_r {A B : Type} (P : A -> B -> Prop) la lb b :
  Forall2 P la lb -> In b lb -> exists a, In a la /\ P a b.
Proof.
  induction 1 as [|x y la lb Hxy _ IH]; intros Hin; [contradiction|].
  destruct Hin as [<-|Hin].
  - exists x. split; [now left|exact Hxy].
  - destruct (IH Hin) as (a & Ha & Hp). exists a. split; [now right|exact Hp].
Qed.


Local Open Scope float_scope.

(** Two rows of one peptidoform, a row without intensity, a second
    peptidoform with a tie, and a row without sample. *)
Example selection_example :
  Stream.get_peptidoform_normalize_intensities
    [ peptidoform "PEPT[Oxidation]IDEK" 2 10 0.5;
      peptidoform "PEPT[Oxidation]IDEK" 2 12 0.25;
      peptidoform "PEPT[Oxidation]IDEK" 2 nan 0.75;
      peptidoform "PEPTIDEK" 2 7 0.5;
      peptidoform "PEPTIDEK" 2 7 0.25;
      mk_row "P1" (Some "PEPTIDEK") "PEPTIDEK" (Some 2%Z) None (Some "c1")
             (Some 1%Z) 99 0.5 ] true
  = Ok [ peptidoform "PEPTIDEK" 2 7 0.5;
         peptidoform "PEPT[Oxidation]IDEK" 2 12 0.25 ].
Proof. vm_compute. reflexivity. Qed.

End PeptidoformFacts.

(** ** Reference names and study accessions *)

Module ReferenceFacts.
Import PyStr PyStrFacts.

Lemma append_cons a x t : String a x +:+ t = String a (x +:+ t).
Proof. reflexivity. Qed.

Lemma startswith_app m r t :
  startswith m r = true -> startswith m (r +:+ t) = true.
Proof.
  revert r. induction m as [|a m IH]; intros r; [reflexivity|].
  destruct r as [|b r]; [discriminate|].
  rewrite append_cons. simpl.
  intros H. apply andb_true_iff in H as [Hab Hm].
  now rewrite Hab, (IH r Hm).
Qed.

Lemma before_first_match_prefix markers s :
  exists t, s = before_first_match markers s +:+ t.
Proof.
  induction s as [|c rest [t IH]]; [now exists EmptyString|].
  simpl. destruct (existsb _ markers).
  - now exists (String c rest).
  - exists t. rewrite append_cons. f_equal. exact IH.
Qed.

(** No marker occurs in the part before the first match. *)
Lemma before_first_match_clean markers s m :
  In m markers -> m <> EmptyString ->
  contains m (before_first_match markers s) = false.
Proof.
  intros Hin Hne. induction s as [|c rest IH].
  - destruct m; [congruence|reflexivity].
  - simpl before_first_match.
    destruct (existsb (fun m0 => startswith m0 (String c rest)) markers) eqn:E.
    + destruct m; [congruence|reflexivity].
    + cbn [contains]. rewrite IH, orb_false_r.
      destruct (startswith m (String c (before_first_match markers rest))) eqn:Hs;
        [|reflexivity].
      destruct (before_first_match_prefix markers rest) as [t Ht].
      apply (startswith_app _ _ t) in Hs. rewrite append_cons, <- Ht in Hs.
      assert (existsb (fun m0 => startswith m0 (String c rest)) markers = true)
        as Hex by (apply existsb_exists; eauto).
      congruence.
Qed.

Lemma startswith_contains m s : startswith m s = true -> contains m s = true.
Proof. intros H. destruct s; simpl in *; now rewrite H. Qed.

(** A string in which no marker occurs is left whole. *)
Lemma before_first_match_whole markers s :
  (forall m, In m markers -> contains m s = false) ->
  before_first_match markers s = s.
Proof.
  induction s as [|c rest IH]; intros H; [reflexivity|].
  simpl. destruct (existsb (fun m => startswith m (String c rest)) markers) eqn:E.
  - apply existsb_exists in E as (m & Hin & Hm).
    apply startswith_contains in Hm. rewrite (H m Hin) in Hm. discriminate.
  - f_equal. apply IH. intros m Hin. specialize (H m Hin).
    cbn [contains] in H. now apply orb_false_iff in H as [_ H].
Qed.

Lemma before_first_match_idem markers s :
  Forall (fun m => m <> EmptyString) markers ->
  before_first_match markers (before_first_match markers s)
  = before_first_match markers s.
Proof.
  intros Hne. apply before_first_match_whole. intros m Hin.
  apply before_first_match_clean; [exact Hin|].
  exact (proj1 (List.Forall_forall _ _) Hne m Hin).
Qed.

(** More markers cut earlier. *)
Lemma before_first_match_more markers1 markers2 s :
  incl markers1 markers2 ->
  exists t, before_first_match markers1 s = before_first_match markers2 s +:+ t.
Proof.
  intros Hincl. induction s as [|c rest [t IH]]; [now exists EmptyString|].
  simpl.
  destruct (existsb (fun m => startswith m (String c rest)) markers2) eqn:E2.
  - eexists. reflexivity.
  - destruct (existsb (fun m => startswith m (String c rest)) markers1) eqn:E1.
    + apply existsb_exists in E1 as (m & Hin & Hm).
      assert (existsb (fun m => startswith m (String c rest)) markers2 = true)
        as Hex by (apply existsb_exists; eauto).
      congruence.
    + exists t. rewrite append_cons. f_equal. exact IH.
Qed.

(** X1. The reference name and the spectrum prefix are prefixes of the
    reference they are cut from, hold none of their file suffixes, and are
    unchanged by a second cut; the spectrum prefix, cut at more suffixes, is a
    prefix of the reference name. *)
Theorem reference_names_are_clean_prefixes (reference_spectrum : string) :
  (exists t, reference_spectrum = Stream.get_reference_name reference_spectrum +:+ t)
  /\ Forall (fun m => contains m (Stream.get_reference_name reference_spectrum) = false)
            [".mzML"; ".MZML"; ".raw"; ".RAW"]
  /\ Stream.get_reference_name (Stream.get_reference_name reference_spectrum)
     = Stream.get_reference_name reference_spectrum
  /\ (exists t, reference_spectrum = Ibaq.get_spectrum_prefix reference_spectrum +:+ t)
  /\ Forall (fun m => contains m (Ibaq.get_spectrum_prefix reference_spectrum) = false)
            [".mzML"; ".MZML"; ".raw"; ".RAW"; ".d"; ".wiff"]
  /\ Ibaq.get_spectrum_prefix (Ibaq.get_spectrum_prefix reference_spectrum)
     = Ibaq.get_spectrum_prefix reference_spectrum
  /\ (exists t, Stream.get_reference_name reference_spectrum
                = Ibaq.get_spectrum_prefix reference_spectrum +:+ t).
Proof.
  unfold Stream.get_reference_name, Ibaq.get_spectrum_prefix.
  repeat split.
  - apply before_first_match_prefix.
  - apply List.Forall_forall. intros m Hin.
    apply before_first_match_clean; [exact Hin|].
    repeat (destruct Hin as [<-|Hin]; [discriminate|]). contradiction.
  - apply before_first_match_idem. repeat constructor; discriminate.
  - apply before_first_match_prefix.
  - apply List.Forall_forall. intros m Hin.
    apply before_first_match_clean; [exact Hin|].
    repeat (destruct Hin as [<-|Hin]; [discriminate|]). contradiction.
  - apply before_first_match_idem. repeat constructor; discriminate.
  - apply before_first_match_more.
    intros m Hin. repeat (destruct Hin as [<-|Hin]; [simpl; tauto|]). contradiction.
Qed.

Example reference_name_example :
  Stream.get_reference_name
    "20150820_Haura-Pilot-TMT1-bRPLC03-2.mzML_controllerType=0 controllerNumber=1 scan=16340"
  = "20150820_Haura-Pilot-TMT1-bRPLC03-2".
Proof. reflexivity. Qed.

Example spectrum_prefix_cuts_at_dot_d :
  Ibaq.get_spectrum_prefix "run1.data.raw" = "run1"
  /\ Stream.get_reference_name "run1.data.raw" = "run1.data".
Proof. split; reflexivity. Qed.

Lemma item0_split c s :
  default EmptyString (item (split c s) 0) = Statements.Batches.prefix_before c s.
Proof.
  induction s as [|a rest IH]; [reflexivity|].
  simpl. destruct (Ascii.eqb a c); [reflexivity|].
  destruct (split c rest) as [|w ws] eqn:E; [now apply split_nonempty in E|].
  simpl in *. now rewrite <- IH.
Qed.

Lemma prefix_before_clean c s :
  count_char c (Statements.Batches.prefix_before c s) = 0%nat.
Proof.
  induction s as [|a rest IH]; [reflexivity|].
  simpl. destruct (Ascii.eqb a c) eqn:E; [reflexivity|].
  simpl. now rewrite E, IH.
Qed.

Lemma prefix_before_prefix c s :
  exists t, s = Statements.Batches.prefix_before c s +:+ t.
Proof.
  induction s as [|a rest [t IH]]; [now exists EmptyString|].
  simpl. destruct (Ascii.eqb a c).
  - now exists (String a rest).
  - exists t. rewrite append_cons. f_equal. exact IH.
Qed.

Lemma prefix_before_whole c s :
  count_char c s = 0%nat -> Statements.Batches.prefix_before c s = s.
Proof.
  induction s as [|a rest IH]; [reflexivity|].
  simpl. destruct (Ascii.eqb a c); [discriminate|].
  intros H. now rewrite IH.
Qed.

(** X2. The study accession of a sample id is the part before its first
    hyphen: it has no hyphen, it is a prefix of the id, it is the whole id
    when the id has no hyphen, and taking it twice changes nothing. The two
    programs compute the same accession, and the batch key that batch
    correction derives from a sample name, when it derives one, is this
    accession. *)
Theorem study_accession_is_first_token (sample_id : string) :
  count_char "-" (Ibaq.get_study_accession sample_id) = 0%nat
  /\ (exists t, sample_id = Ibaq.get_study_accession sample_id +:+ t)
  /\ (count_char "-" sample_id = 0%nat -> Ibaq.get_study_accession sample_id = sample_id)
  /\ Ibaq.get_study_accession (Ibaq.get_study_accession sample_id)
     = Ibaq.get_study_accession sample_id
  /\ Stream.get_study_accession sample_id = Ibaq.get_study_accession sample_id
  /\ (forall batch_id, CorrectBatches.batch_id_of sample_id = Py.Ok batch_id ->
                       batch_id = Ibaq.get_study_accession sample_id).
Proof.
  unfold Stream.get_study_accession, Ibaq.get_study_accession.
  rewrite !item0_split.
  split; [apply prefix_before_clean|].
  split; [apply prefix_before_prefix|].
  split; [apply prefix_before_whole|].
  split; [apply prefix_before_whole, prefix_before_clean|].
  split; [reflexivity|].
  intros batch_id. unfold CorrectBatches.batch_id_of.
  rewrite <- (item0_split "-" sample_id).
  destruct (split "-" sample_id) as [|b parts]; [discriminate|].
  simpl. case_bool_decide; [discriminate|].
  destruct (CorrectBatches.batch_id_match b); simpl; [|discriminate].
  now intros [= <-].
Qed.

End ReferenceFacts.

(** ** Accessions, a second time *)

Module AccessionAgainFacts.
Import PyStr PyStrFacts Statements.Reduction.

Lemma split_no_sep c s : count_char c s = 0%nat -> split c s = [s].
Proof.
  induction s as [|a rest IH]; simpl; [reflexivity|].
  destruct (Ascii.eqb a c); [discriminate|].
  intros H. rewrite (IH H). reflexivity.
Qed.

Lemma split_app_sep c w s :
  count_char c w = 0%nat ->
  split c (w +:+ String c s) = w :: split c s.
Proof.
  induction w as [|a w IH]; intros H.
  - simpl. now rewrite Ascii.eqb_refl.
  - rewrite ReferenceFacts.append_cons. simpl in *.
    destruct (Ascii.eqb a c); [discriminate|].
    now rewrite (IH H).
Qed.

(** Splitting undoes joining when no field contains the separator. *)
Lemma split_join c l :
  l <> [] ->
  Forall (fun w => count_char c w = 0%nat) l ->
  split c (join (String c EmptyString) l) = l.
Proof.
  induction l as [|w l IH]; [congruence|].
  intros _ Hall. inversion Hall as [|? ? Hw Hl]; subst.
  destruct l as [|w' l'].
  - simpl. apply split_no_sep, Hw.
  - rewrite join_cons by discriminate.
    rewrite split_app_sep by exact Hw.
    rewrite IH; [reflexivity|discriminate|exact Hl].
Qed.

(** The fields of a split hold no character that the string does not hold. *)
Lemma split_fields_without c d s :
  count_char d s = 0%nat ->
  Forall (fun w => count_char d w = 0%nat) (split c s).
Proof.
  induction s as [|a rest IH]; simpl; intros H.
  - repeat constructor.
  - destruct (Ascii.eqb a d) eqn:Ed; [discriminate|]. simpl in H.
    specialize (IH H).
    destruct (Ascii.eqb a c).
    + constructor; [reflexivity|exact IH].
    + destruct (split c rest) as [|w ws]; [repeat constructor; simpl; now rewrite Ed|].
      inversion IH as [|? ? Hw Hws]; subst.
      constructor; [simpl; now rewrite Ed, Hw|exact Hws].
Qed.

Lemma reduce_at_field i accession :
  (i < 3)%nat -> count_char "|" accession = 2%nat ->
  count_char "|" (reduce_at i accession) = 0%nat.
Proof.
  intros Hi H2. unfold reduce_at. rewrite H2. simpl.
  destruct (split_two _ _ H2) as (x & y & z & -> & _ & Hx & Hy & Hz).
  destruct i as [|[|[|i]]]; simpl; auto. lia.
Qed.

Lemma reduce_at_idem i accession :
  (i < 3)%nat -> reduce_at i (reduce_at i accession) = reduce_at i accession.
Proof.
  intros Hi.
  destruct (Nat.eqb_spec (count_char "|" accession) 2) as [H2|Hn].
  - pose proof (reduce_at_field i accession Hi H2) as H0.
    unfold reduce_at at 1. now rewrite H0.
  - unfold reduce_at.
    destruct (Nat.eqb_spec (count_char "|" accession) 2) as [|_]; [contradiction|].
    destruct (Nat.eqb_spec (count_char "|" accession) 2) as [|_]; [contradiction|].
    reflexivity.
Qed.

Lemma reduce_at_without i d accession :
  count_char d accession = 0%nat -> count_char d (reduce_at i accession) = 0%nat.
Proof.
  intros H. unfold reduce_at. destruct (_ =? _)%nat; [|exact H].
  unfold item. destruct (nth_error (split "|" accession) i) as [w|] eqn:E; [|exact H].
  apply nth_error_In in E. simpl.
  exact (proj1 (List.Forall_forall _ _) (split_fields_without "|" d accession H) w E).
Qed.

Lemma parse_twice i uniprot_id :
  (i < 3)%nat ->
  join ";" (map (reduce_at i)
              (split ";" (join ";" (map (reduce_at i) (split ";" uniprot_id)))))
  = join ";" (map (reduce_at i) (split ";" uniprot_id)).
Proof.
  intros Hi. rewrite split_join.
  - rewrite map_map. f_equal. apply map_ext. intros a. now apply reduce_at_idem.
  - pose proof (split_nonempty ";" uniprot_id).
    destruct (split ";" uniprot_id); [congruence|discriminate].
  - pose proof (split_fields_clean ";" uniprot_id) as Hf.
    induction Hf as [|a l Ha _ IH]; simpl; constructor; [|exact IH].
    now apply reduce_at_without.
Qed.

(** X3. Parsing an accession field a second time changes nothing, in the
    streaming program and in [ibaq/peptide_normalization.py]. *)
Theorem parse_uniprot_accession_idempotent (uniprot_id : string) :
  Stream.parse_uniprot_accession (Stream.parse_uniprot_accession uniprot_id)
  = Stream.parse_uniprot_accession uniprot_id
  /\ Ibaq.parse_uniprot_accession (Ibaq.parse_uniprot_accession uniprot_id)
     = Ibaq.parse_uniprot_accession uniprot_id.
Proof.
  split.
  - apply (parse_twice 2). lia.
  - apply (parse_twice 1). lia.
Qed.

End AccessionAgainFacts.

(** ** The shape of canonical peptides *)

Module CanonicalShapeFacts.
Import PyStr Ibaq.

Lemma count_remove_char_same a s : count_char a (remove_char a s) = 0%nat.
Proof.
  induction s as [|c rest IH]; [reflexivity|].
  simpl. destruct (Ascii.eqb c a) eqn:E; [exact IH|]. simpl. now rewrite E.
Qed.

Lemma count_remove_char_other a b s :
  count_char a s = 0%nat -> count_char a (remove_char b s) = 0%nat.
Proof.
  induction s as [|c rest IH]; [reflexivity|].
  simpl. destruct (Ascii.eqb c a) eqn:Ea; [discriminate|]. simpl. intros H.
  destruct (Ascii.eqb c b); [now apply IH|]. simpl. rewrite Ea. now apply IH.
Qed.

Lemma length_remove_char a s : (String.length (remove_char a s) <= String.length s)%nat.
Proof.
  induction s as [|c rest IH]; [reflexivity|].
  simpl. destruct (Ascii.eqb c a); simpl; lia.
Qed.

Lemma length_re_sub inside s :
  (String.length (re_sub_annotations inside s) <= String.length s)%nat.
Proof.
  revert inside. induction s as [|c rest IH]; intros inside; [reflexivity|].
  pose proof (IH true). pose proof (IH false).
  simpl. destruct inside.
  - destruct (is_close c); lia.
  - destruct (is_open c && closes rest); simpl; lia.
Qed.

Lemma remove_char_absent a s : count_char a s = 0%nat -> remove_char a s = s.
Proof.
  induction s as [|c rest IH]; [reflexivity|].
  simpl. destruct (Ascii.eqb c a); [discriminate|]. intros H. now rewrite IH.
Qed.

Lemma re_sub_plain s :
  count_char "(" s = 0%nat -> count_char "[" s = 0%nat ->
  re_sub_annotations false s = s.
Proof.
  induction s as [|c rest IH]; [reflexivity|].
  simpl. unfold is_open.
  destruct (Ascii.eqb c "(") eqn:E1; [discriminate|].
  destruct (Ascii.eqb c "[") eqn:E2; [discriminate|].
  simpl. intros H1 H2. now rewrite IH.
Qed.

(** X4. A canonical peptide holds no dot and no hyphen and is never longer
    than the sequence it comes from; a sequence without parenthesis, bracket,
    dot or hyphen is its own canonical peptide. *)
Theorem canonical_peptide_shape (peptide_sequence : string) :
  count_char "." (get_canonical_peptide peptide_sequence) = 0%nat
  /\ count_char "-" (get_canonical_peptide peptide_sequence) = 0%nat
  /\ (String.length (get_canonical_peptide peptide_sequence)
      <= String.length peptide_sequence)%nat
  /\ (count_char "(" peptide_sequence = 0%nat ->
      count_char "[" peptide_sequence = 0%nat ->
      count_char "." peptide_sequence = 0%nat ->
      count_char "-" peptide_sequence = 0%nat ->
      get_canonical_peptide peptide_sequence = peptide_sequence).
Proof.
  unfold get_canonical_peptide. cbv zeta.
  split; [apply count_remove_char_other, count_remove_char_same|].
  split; [apply count_remove_char_same|].
  split.
  - etransitivity; [apply length_remove_char|].
    etransitivity; [apply length_remove_char|]. apply length_re_sub.
  - intros H1 H2 H3 H4. rewrite re_sub_plain by assumption.
    rewrite (remove_char_absent "." _ H3). now apply remove_char_absent.
Qed.

End CanonicalShapeFacts.

(** ** Label resolution by label *)

Module LabelMemberFacts.
Import Py Commons PyStr Ibaq Statements.Labels.

Lemma startswith_app_sep c p x t :
  count_char c p = 0%nat ->
  startswith p (x +:+ String c t) = startswith p x.
Proof.
  revert x. induction p as [|b p IH]; intros x H; [reflexivity|].
  simpl in H. destruct (Ascii.eqb b c) eqn:E; [discriminate|]. simpl in H.
  destruct x as [|a x].
  - simpl. now rewrite E.
  - rewrite ReferenceFacts.append_cons. simpl. now rewrite IH.
Qed.

Lemma contains_app_sep c p x t :
  p <> EmptyString -> count_char c p = 0%nat ->
  contains p (x +:+ String c t) = contains p x || contains p t.
Proof.
  intros Hne Hc. induction x as [|a x IH].
  - change (EmptyString +:+ String c t) with (String c t).
    destruct p as [|b p]; [congruence|].
    simpl in Hc. destruct (Ascii.eqb b c) eqn:E; [discriminate|].
    cbn [contains startswith]. now rewrite E.
  - rewrite ReferenceFacts.append_cons. cbn [contains].
    rewrite <- ReferenceFacts.append_cons, (startswith_app_sep c p _ t Hc), IH.
    now rewrite orb_assoc.
Qed.

(** A pattern without the separator occurs in a joined list exactly when it
    occurs in one of the elements. *)
Lemma contains_join c p l :
  p <> EmptyString -> count_char c p = 0%nat ->
  contains p (join (String c EmptyString) l) = existsb (contains p) l.
Proof.
  intros Hne Hc. induction l as [|x l IH].
  - destruct p; [congruence|reflexivity].
  - destruct l as [|y l].
    + simpl. now rewrite orb_false_r.
    + rewrite PyStrFacts.join_cons by discriminate.
      rewrite contains_app_sep by assumption. now rewrite IH.
Qed.

Lemma has_word_join word labels :
  word <> EmptyString -> count_char "," word = 0%nat ->
  contains word (join "," labels) = true <-> has_word word labels.
Proof.
  intros Hne Hc. rewrite (contains_join "," word labels Hne Hc), existsb_exists.
  reflexivity.
Qed.

(** X5. When the number of distinct labels is not one, [get_label] decides
    by the labels one at a time: the design is TMT exactly when some label
    contains [TMT] or [tmt]; it is iTRAQ exactly when no label does and some
    label contains [ITRAQ] or [itraq]; and the program exits exactly when no
    label contains any of the four words. *)
Theorem get_label_decides_by_label (labels : list string) :
  length labels <> 1%nat ->
  (get_label labels = Ok ("TMT", Some (tmt_choice labels))
   <-> has_word "TMT" labels \/ has_word "tmt" labels)
  /\ (get_label labels = Ok ("ITRAQ", Some (itraq_choice labels))
      <-> ~ (has_word "TMT" labels \/ has_word "tmt" labels)
          /\ (has_word "ITRAQ" labels \/ has_word "itraq" labels))
  /\ (get_label labels = Raise (SystemExit unsupported)
      <-> ~ (has_word "TMT" labels \/ has_word "tmt" labels)
          /\ ~ (has_word "ITRAQ" labels \/ has_word "itraq" labels)).
Proof.
  intros Hlen. unfold get_label.
  destruct (Nat.eqb_spec (length labels) 1) as [|_]; [contradiction|].
  rewrite <- !has_word_join by (discriminate || reflexivity).
  destruct (contains "TMT" (join "," labels)),
           (contains "tmt" (join "," labels)),
           (contains "ITRAQ" (join "," labels)),
           (contains "itraq" (join "," labels)); simpl;
    repeat split; try discriminate; try tauto; intuition discriminate.
Qed.

(** [get_label_decides_by_label] at a design that mixes both kinds of label
    and at an iTRAQ design. *)
Lemma get_label_decides_by_label_witness :
  get_label ["TMT126"; "TMT127"; "ITRAQ114"] = Ok ("TMT", Some TMT6plex)
  /\ get_label ["ITRAQ114"; "ITRAQ115"] = Ok ("ITRAQ", Some ITRAQ4plex).
Proof.
  split.
  - apply (get_label_decides_by_label ["TMT126"; "TMT127"; "ITRAQ114"]);
      [discriminate|].
    left. exists "TMT126". split; [now left|reflexivity].
  - apply (get_label_decides_by_label ["ITRAQ114"; "ITRAQ115"]); [discriminate|].
    split.
    + intros [(l & Hin & Hl)|(l & Hin & Hl)];
        repeat (destruct Hin as [<-|Hin]; [discriminate|]); contradiction.
    + left. exists "ITRAQ114". split; [now left|reflexivity].
Defined.

Lemma tmt_choice_in labels : In (tmt_choice labels) tmt_tables.
Proof.
  unfold tmt_choice, tmt_tables.
  destruct (_ || _); [simpl; tauto|].
  destruct (_ || _); [simpl; tauto|].
  destruct (_ <? _)%nat; simpl; tauto.
Qed.

Lemma itraq_choice_in labels : In (itraq_choice labels) itraq_tables.
Proof. unfold itraq_choice, itraq_tables. destruct (_ <? _)%nat; simpl; tauto. Qed.

(** X6. Whatever the labels, a resolver that returns gives a label type and
    a channel table that fit: [LFQ] with no table, [TMT] with a TMT table,
    [ITRAQ] with an iTRAQ table. The static [Feature.get_label] and the
    module-level [get_label] return the same outcome unless there is exactly
    one label, and [extract_label_from_sdrf] returns what [get_label]
    returns on the distinct labels of the design table. *)
Theorem resolved_label_fits_table :
  (forall labels label choice,
      get_label labels = Ok (label, choice) -> fits label choice)
  /\ (forall labels label choice,
        Feature_get_label labels = Ok (label, choice) -> fits label choice)
  /\ (forall labels, length labels <> 1%nat ->
                     Feature_get_label labels = get_label labels)
  /\ (forall sdrf_df label sample_names choice,
        Stream.extract_label_from_sdrf sdrf_df = Ok (label, sample_names, choice)
        <-> get_label (Pandas.unique (map Stream.comment_label sdrf_df))
            = Ok (label, choice)
            /\ sample_names = Pandas.unique (map Stream.source_name sdrf_df)).
Proof.
  assert (forall labels, fits "TMT" (Some (tmt_choice labels))) as Ht.
  { intros l. right. left. split; [reflexivity|]. eexists. split; [reflexivity|].
    apply tmt_choice_in. }
  assert (forall labels, fits "ITRAQ" (Some (itraq_choice labels))) as Hi.
  { intros l. right. right. split; [reflexivity|]. eexists. split; [reflexivity|].
    apply itraq_choice_in. }
  assert (fits "LFQ" None) as Hl by (left; split; reflexivity).
  split; [|split; [|split]].
  - intros labels label choice. unfold get_label.
    destruct (_ =? _)%nat; [now intros [= <- <-]|].
    destruct (_ || _); [now intros [= <- <-]|].
    destruct (_ || _); [now intros [= <- <-]|discriminate].
  - intros labels label choice. unfold Feature_get_label.
    destruct (_ && _); [now intros [= <- <-]|].
    destruct (_ || _); [now intros [= <- <-]|].
    destruct (_ || _); [now intros [= <- <-]|discriminate].
  - intros labels Hlen. unfold Feature_get_label, get_label.
    destruct (Nat.eqb_spec (length labels) 1) as [|_]; [contradiction|].
    reflexivity.
  - intros sdrf_df label sample_names choice.
    unfold Stream.extract_label_from_sdrf, get_label. cbv zeta.
    destruct (_ =? _)%nat; [split; [now intros [= <- <- <-]|now intros [[= <- <-] ->]]|].
    destruct (_ || _); [split; [now intros [= <- <- <-]|now intros [[= <- <-] ->]]|].
    destruct (_ || _); [split; [now intros [= <- <- <-]|now intros [[= <- <-] ->]]|].
    split; [discriminate|now intros [? _]].
Qed.

(** [resolved_label_fits_table] at a design with twelve TMT labels and at an
    iTRAQ design. *)
Lemma resolved_label_fits_table_witness :
  fits "TMT" (Some TMT16plex)
  /\ Feature_get_label ["ITRAQ114"; "ITRAQ115"] = get_label ["ITRAQ114"; "ITRAQ115"].
Proof.
  destruct resolved_label_fits_table as (H1 & _ & H3 & _).
  split.
  - apply (H1 ["TMT126"; "TMT127N"; "TMT127C"; "TMT128N"; "TMT128C"; "TMT129N";
               "TMT129C"; "TMT130N"; "TMT130C"; "TMT131N"; "TMT131C"; "TMT132N"]).
    reflexivity.
  - apply H3. discriminate.
Defined.

End LabelMemberFacts.

(** ** Removal of proteins *)

Module RemovalFacts.
Import PyStr Ibaq.




Example remove_protein_by_ids_example :
  remove_protein_by_ids ["P12345"; "Q67890;P11111"; "O00000"]
                        (String.append "P12345" (String newline "P11111")) (fun p => p)
  = ["O00000"].
Proof. reflexivity. Qed.

Lemma sublist_filter_list {A : Type} (f : A -> bool) (l : list A) :
  sublist (List.filter f l) l.
Proof.
  induction l as [|x l IH]; simpl; [constructor|].
  destruct (f x); now constructor.
Qed.

Lemma filter_filter_same {A : Type} (f : A -> bool) (l : list A) :
  List.filter f (List.filter f l) = List.filter f l.
Proof.
  induction l as [|x l IH]; simpl; [reflexivity|].
  destruct (f x) eqn:E; simpl; [now rewrite E, IH|exact IH].
Qed.

(** The three words of [remove_contaminants_entrapments_decoys]. *)
Lemma str_contains_words s :
  Pandas.str_contains (join "|" ["CONTAMINANT"; "ENTRAPMENT"; "DECOY"]) s
  = contains "CONTAMINANT" s || contains "ENTRAPMENT" s || contains "DECOY" s.
Proof.
  unfold Pandas.str_contains.
  change (split "|" (join "|" ["CONTAMINANT"; "ENTRAPMENT"; "DECOY"]))
    with ["CONTAMINANT"; "ENTRAPMENT"; "DECOY"].
  simpl. now rewrite orb_false_r, orb_assoc.
Qed.

Lemma contains_in_accessions word s :
  word <> EmptyString -> count_char ";" word = 0%nat ->
  contains word s = existsb (contains word) (split ";" s).
Proof.
  intros Hne Hc.
  rewrite <- (LabelMemberFacts.contains_join ";" word (split ";" s) Hne Hc).
  now rewrite PyStrFacts.join_split.
Qed.

(** X8. [remove_contaminants_entrapments_decoys] keeps, in their order,
    exactly the rows in which no accession of the protein group contains
    [CONTAMINANT], [ENTRAPMENT] or [DECOY]: one such accession removes the
    whole row. Applying it again removes nothing more. *)
Theorem contaminant_rows_are_removed {A : Type}
  (dataset : list A) (protein_field : A -> string) :
  (forall r,
      In r (remove_contaminants_entrapments_decoys dataset protein_field)
      <-> In r dataset
          /\ forall accession, In accession (split ";" (protein_field r)) ->
                               contains "CONTAMINANT" accession = false
                               /\ contains "ENTRAPMENT" accession = false
                               /\ contains "DECOY" accession = false)
  /\ sublist (remove_contaminants_entrapments_decoys dataset protein_field) dataset
  /\ remove_contaminants_entrapments_decoys
       (remove_contaminants_entrapments_decoys dataset protein_field) protein_field
     = remove_contaminants_entrapments_decoys dataset protein_field.
Proof.
  unfold remove_contaminants_entrapments_decoys. cbv zeta.
  split; [|split].
  - intros r. rewrite filter_In, str_contains_words, !negb_true_iff.
    rewrite (contains_in_accessions "CONTAMINANT"),
            (contains_in_accessions "ENTRAPMENT"),
            (contains_in_accessions "DECOY") by (discriminate || reflexivity).
    rewrite !orb_false_iff.
    split.
    + intros (Hin & (H1 & H2) & H3). split; [exact Hin|].
      intros a Ha. repeat split.
      * destruct (contains "CONTAMINANT" a) eqn:E; [|reflexivity].
        assert (existsb (contains "CONTAMINANT") (split ";" (protein_field r)) = true)
          by (apply existsb_exists; eauto). congruence.
      * destruct (contains "ENTRAPMENT" a) eqn:E; [|reflexivity].
        assert (existsb (contains "ENTRAPMENT") (split ";" (protein_field r)) = true)
          by (apply existsb_exists; eauto). congruence.
      * destruct (contains "DECOY" a) eqn:E; [|reflexivity].
        assert (existsb (contains "DECOY") (split ";" (protein_field r)) = true)
          by (apply existsb_exists; eauto). congruence.
    + intros (Hin & Hall). split; [exact Hin|].
      assert (forall word,
                 (forall a, In a (split ";" (protein_field r)) -> contains word a = false) ->
                 existsb (contains word) (split ";" (protein_field r)) = false) as Hno.
      { intros word Hw.
        destruct (existsb (contains word) _) eqn:E; [|reflexivity].
        apply existsb_exists in E as (a & Ha & Hc). rewrite (Hw a Ha) in Hc.
        discriminate. }
      repeat split; apply Hno; intros a Ha; now apply Hall.
  - apply sublist_filter_list.
  - apply filter_filter_same.
Qed.

End RemovalFacts.

(** ** Groups of samples *)

Module SampleGroupFacts.
Import Py Ibaq.

Lemma chunks_concat {A : Type} (n m : nat) (l : list A) :
  (length l <= m * n)%nat ->
  concat (map (fun i => take n (drop i l)) (map (fun k => k * n)%nat (seq 0 m))) = l.
Proof.
  revert l. induction m as [|m IH]; intros l Hlen.
  - destruct l; [reflexivity|simpl in Hlen; lia].
  - rewrite <- cons_seq, <- seq_shift, !map_cons, !map_map. simpl concat.
    rewrite drop_0.
    rewrite (map_ext _ (fun k => take n (drop (k * n) (drop n l)))).
    + rewrite <- (map_map (fun k => k * n)%nat (fun i => take n (drop i (drop n l)))).
      rewrite IH by (rewrite length_drop; lia). apply take_drop.
    + intros k. now rewrite drop_drop.
Qed.


Lemma chunks_sizes {A : Type} (n m : nat) (l : list A) :
  (0 < n)%nat -> (m = (length l + n - 1) / n)%nat ->
  Forall (fun chunk => (0 < length chunk <= n)%nat)
         (map (fun i => take n (drop i l)) (map (fun k => k * n)%nat (seq 0 m))).
Proof.
  intros Hn Hm. rewrite map_map. apply List.Forall_forall. intros chunk Hin.
  apply in_map_iff in Hin as (k & <- & Hk). apply in_seq in Hk.
  rewrite length_take, length_drop.
  assert (m * n < length l + n)%nat.
  { subst m. pose proof (Nat.Div0.mul_div_le (length l + n - 1) n). lia. }
  nia.
Qed.

Lemma range_step_cover (stop n : nat) :
  (0 < n)%nat -> (stop <= (stop + n - 1) / n * n)%nat.
Proof.
  intros Hn.
  pose proof (Nat.div_mod_eq (stop + n - 1) n) as Hd.
  pose proof (Nat.mod_upper_bound (stop + n - 1) n). nia.
Qed.

(** X9. For a positive [file_num], the groups of [iter_samples], joined in
    order, are the list of samples again, and every group has at least one
    and at most [file_num] samples. With [file_num = 0] the call raises
    [ValueError]. *)
Theorem iter_samples_partitions (samples : list string) (file_num : Z) :
  (0 < file_num)%Z ->
  exists ref_list,
    iter_samples samples file_num = Ok ref_list
    /\ concat ref_list = samples
    /\ Forall (fun refs => (0 < Z.of_nat (length refs) <= file_num)%Z) ref_list
    /\ iter_samples samples 0 = Raise (ValueError "range() arg 3 must not be zero").
Proof.
  intros Hpos. unfold iter_samples, range_step.
  destruct (Z.eqb_spec file_num 0) as [|_]; [lia|].
  destruct (Z.ltb_spec file_num 0) as [|_]; [lia|].
  eexists. split; [reflexivity|].
  assert (0 < Z.to_nat file_num)%nat as Hn by lia.
  split; [|split; [|reflexivity]].
  - apply chunks_concat. now apply range_step_cover.
  - eapply Forall_impl; [apply (chunks_sizes (Z.to_nat file_num)); [exact Hn|reflexivity]|].
    simpl. intros refs H. lia.
Qed.

(** [iter_samples_partitions] at five samples read two at a time. *)
Lemma iter_samples_partitions_witness :
  exists ref_list,
    iter_samples ["S1"; "S2"; "S3"; "S4"; "S5"] 2 = Ok ref_list
    /\ concat ref_list = ["S1"; "S2"; "S3"; "S4"; "S5"]
    /\ Forall (fun refs => (0 < Z.of_nat (length refs) <= 2)%Z) ref_list
    /\ iter_samples ["S1"; "S2"; "S3"; "S4"; "S5"] 0
       = Raise (ValueError "range() arg 3 must not be zero").
Proof. apply (iter_samples_partitions ["S1"; "S2"; "S3"; "S4"; "S5"] 2). lia. Defined.

Example iter_samples_example :
  iter_samples ["S1"; "S2"; "S3"; "S4"; "S5"] 2
  = Ok [["S1"; "S2"]; ["S3"; "S4"]; ["S5"]].
Proof. reflexivity. Qed.

End SampleGroupFacts.

(** ** Distinct values *)

Module UniqueFacts.
Import Pandas.

Section unique.
Context {A : Type} `{EqDecision A}.

Lemma elem_of_unique_from_iff (seen l : list A) (x : A) :
  x ∈ unique_from seen l <-> x ∈ l /\ x ∉ seen.
Proof.
  revert seen. induction l as [|y l IH]; intros seen; simpl.
  - split; [intros H; now apply elem_of_nil in H|intros [H _]; now apply elem_of_nil in H].
  - case_bool_decide as Hy.
    + rewrite IH, elem_of_cons. split; [tauto|].
      intros [[->|Hx] Hs]; [contradiction|tauto].
    + rewrite elem_of_cons, IH, elem_of_cons, elem_of_cons.
      destruct (decide (x = y)) as [->|Hne]; [tauto|]. tauto.
Qed.

Lemma NoDup_unique_from (seen l : list A) : NoDup (unique_from seen l).
Proof.
  revert seen. induction l as [|y l IH]; intros seen; simpl; [constructor|].
  case_bool_decide; [apply IH|].
  constructor; [|apply IH].
  rewrite elem_of_unique_from_iff, elem_of_cons. tauto.
Qed.

Lemma elem_of_unique (l : list A) (x : A) : x ∈ unique l <-> x ∈ l.
Proof.
  unfold unique. rewrite elem_of_unique_from_iff.
  split; [tauto|]. intros H. split; [exact H|apply not_elem_of_nil].
Qed.

Lemma NoDup_unique (l : list A) : NoDup (unique l).
Proof. apply NoDup_unique_from. Qed.

(** A non-empty column of one value has that value as its only distinct
    value. *)
Lemma unique_constant (l : list A) (a : A) :
  l <> [] -> (forall x, x ∈ l -> x = a) -> unique l = [a].
Proof.
  intros Hne Hall. destruct l as [|y l]; [congruence|].
  assert (y = a) as -> by (apply Hall; left).
  assert (forall seen, a ∈ seen -> unique_from seen l = []) as Hrest.
  { assert (forall x, x ∈ l -> x = a) as Hl by (intros x Hx; apply Hall; now right).
    clear -Hl. induction l as [|z l IH]; intros seen Hs; [reflexivity|].
    simpl. rewrite (Hl z) by left. rewrite bool_decide_eq_true_2 by exact Hs.
    apply IH; [|exact Hs]. intros x Hx. apply Hl. now right. }
  unfold unique. cbn [unique_from].
  rewrite bool_decide_eq_false_2 by apply not_elem_of_nil.
  rewrite Hrest; [reflexivity|left].
Qed.

End unique.

End UniqueFacts.

(** ** Protein support, for every input *)

Module SupportInvariantFacts.
Import Stream.Support UniqueFacts Statements.Merging.

Lemma merge_key_lookup (unique_dict unique_peptides : gmap string string) (i : string) :
  merge_key unique_dict unique_peptides i !! i
  = merged (unique_dict !! i) (unique_peptides !! i).
Proof.
  unfold merge_key, merged.
  destruct (unique_dict !! i) as [v|]; [|reflexivity].
  destruct (unique_peptides !! i) as [w|] eqn:E.
  - case_bool_decide; [apply lookup_delete_eq|apply lookup_insert_eq].
  - apply lookup_insert_eq.
Qed.

Lemma foldl_merge_key_lookup (unique_dict : gmap string string) (keys : list string)
  (unique_peptides : gmap string string) (p : string) :
  NoDup keys ->
  foldl (merge_key unique_dict) unique_peptides keys !! p
  = if bool_decide (p ∈ keys)
    then merged (unique_dict !! p) (unique_peptides !! p)
    else unique_peptides !! p.
Proof.
  intros Hnd. revert unique_peptides.
  induction Hnd as [|k keys Hk Hnd IH]; intros unique_peptides; cbn [foldl].
  - case_bool_decide as H; [now apply elem_of_nil in H|reflexivity].
  - rewrite IH. destruct (decide (p = k)) as [->|Hne].
    + rewrite (bool_decide_eq_false_2 _ Hk).
      rewrite bool_decide_eq_true_2 by left.
      apply merge_key_lookup.
    + rewrite (SupportFacts.merge_key_other _ _ k p) by congruence.
      destruct (decide (p ∈ keys)) as [Hin|Hout].
      * rewrite !bool_decide_eq_true_2; [reflexivity|now right|exact Hin].
      * rewrite !bool_decide_eq_false_2; [reflexivity| |exact Hout].
        rewrite elem_of_cons. tauto.
Qed.

(** The entry of a peptide after a batch. *)
Lemma merge_batch_lookup (unique_peptides : gmap string string)
  (result_df : list support_row) (p : string) :
  merge_batch unique_peptides result_df !! p
  = if bool_decide (p ∈ map fst (unique_df result_df))
    then merged (dict_zip (unique_df result_df) !! p) (unique_peptides !! p)
    else unique_peptides !! p.
Proof.
  unfold merge_batch. rewrite foldl_merge_key_lookup by apply NoDup_unique.
  destruct (decide (p ∈ map fst (unique_df result_df))) as [Hin|Hout].
  - rewrite !bool_decide_eq_true_2; [reflexivity|exact Hin|now apply elem_of_unique].
  - rewrite !bool_decide_eq_false_2; [reflexivity|exact Hout|now rewrite elem_of_unique].
Qed.

Lemma dict_zip_Some (items : list support_row) (p a : string) :
  dict_zip items !! p = Some a -> In (p, a) items.
Proof.
  unfold dict_zip. intros H. apply elem_of_list_to_map_2 in H.
  apply list_elem_of_In. now rewrite elem_of_reverse in H.
Qed.

Lemma In_unique_df (result_df : list support_row) r :
  In r (unique_df result_df) -> In r result_df.
Proof. unfold unique_df. rewrite filter_In. tauto. Qed.

Lemma merged_Some proposed known a :
  merged proposed known = Some a -> known = Some a \/ proposed = Some a.
Proof.
  unfold merged. destruct proposed as [v|], known as [w|]; try tauto.
  case_bool_decide; [discriminate|tauto].
Qed.

Lemma ingest_from_provenance (batches : list (list support_row))
  (unique_peptides : gmap string string) (p a : string) :
  foldl merge_batch unique_peptides batches !! p = Some a ->
  unique_peptides !! p = Some a
  \/ exists result_df, In result_df batches /\ In (p, a) result_df.
Proof.
  revert unique_peptides.
  induction batches as [|b batches IH]; intros unique_peptides; simpl; [tauto|].
  intros H. apply IH in H as [H|(df & Hin & Hdf)].
  - rewrite merge_batch_lookup in H. case_bool_decide; [|tauto].
    apply merged_Some in H as [H|H]; [tauto|].
    right. exists b. split; [now left|].
    now apply In_unique_df, dict_zip_Some.
  - right. exists df. split; [now right|exact Hdf].
Qed.

(** In a batch whose rows of peptide [p] all name protein [a], and which has
    such a row, the proposal for [p] is [a]. *)
Lemma proposal_of_constant (result_df : list support_row) (p a : string) :
  In (p, a) result_df ->
  (forall a', In (p, a') result_df -> a' = a) ->
  p ∈ map fst (unique_df result_df)
  /\ dict_zip (unique_df result_df) !! p = Some a.
Proof.
  intros Hin Hall.
  assert (In (p, a) (unique_df result_df)) as Hu.
  { unfold unique_df. apply filter_In. split; [exact Hin|]. simpl.
    rewrite (unique_constant _ a); [reflexivity| |].
    - intros Hnil.
      assert (In (p, a) (List.filter (fun r' => String.eqb (fst r') p) result_df)) as Hf
        by (apply filter_In; split; [exact Hin|apply String.eqb_refl]).
      apply (in_map snd) in Hf. rewrite Hnil in Hf. destruct Hf.
    - intros x Hx. apply list_elem_of_In, in_map_iff in Hx as ([q y] & <- & Hq).
      apply filter_In in Hq as [Hq Heq]. simpl in *.
      apply String.eqb_eq in Heq. subst q. now apply Hall. }
  split.
  - apply list_elem_of_In. now apply (in_map fst) in Hu.
  - unfold dict_zip. apply elem_of_list_to_map_1'.
    + intros y Hy. rewrite elem_of_reverse, list_elem_of_In in Hy.
      apply In_unique_df in Hy. symmetry. now apply Hall.
    + now rewrite elem_of_reverse, list_elem_of_In.
Qed.

Lemma no_proposal_without_rows (result_df : list support_row) (p : string) :
  (forall a', ~ In (p, a') result_df) ->
  p ∉ map fst (unique_df result_df).
Proof.
  intros Hno Hin. apply list_elem_of_In, in_map_iff in Hin as ([q y] & <- & Hq).
  apply In_unique_df in Hq. now apply (Hno y).
Qed.


(** X10. Every entry of the protein-support mapping was read from the
    input: a peptide that maps to a protein after ingestion has a row with
    that protein in some batch. *)
Theorem support_entries_come_from_rows (batches : list (list support_row))
  (p a : string) :
  ingest batches !! p = Some a ->
  exists result_df, In result_df batches /\ In (p, a) result_df.
Proof.
  intros H. apply ingest_from_provenance in H as [H|H]; [|exact H].
  now rewrite lookup_empty in H.
Qed.

(** [support_entries_come_from_rows] at two batches. *)
Lemma support_entries_come_from_rows_witness :
  exists result_df,
    In result_df [[("p1", "A"); ("p2", "B")]; [("p1", "A")]]
    /\ In ("p1", "A") result_df.
Proof.
  apply (support_entries_come_from_rows [[("p1", "A"); ("p2", "B")]; [("p1", "A")]]).
  vm_compute. reflexivity.
Defined.

Lemma has_row_dec (result_df : list support_row) (p : string) :
  (exists a', In (p, a') result_df) \/ (forall a', ~ In (p, a') result_df).
Proof.
  induction result_df as [|[q y] df [(a' & H)|H]].
  - right. intros a' [].
  - left. exists a'. now right.
  - destruct (String.eqb_spec q p) as [->|Hne].
    + left. exists y. now left.
    + right. intros a' [[= -> ->]|Hin]; [congruence|]. now apply (H a').
Qed.

Lemma kept_once_known (batches : list (list support_row))
  (unique_peptides : gmap string string) (p a : string) :
  (forall result_df a', In result_df batches -> In (p, a') result_df -> a' = a) ->
  unique_peptides !! p = Some a ->
  foldl merge_batch unique_peptides batches !! p = Some a.
Proof.
  revert unique_peptides.
  induction batches as [|b batches IH]; intros unique_peptides Hall Hm; [exact Hm|].
  simpl. apply IH; [intros df a' Hdf; apply Hall; now right|].
  rewrite merge_batch_lookup.
  destruct (has_row_dec b p) as [(a' & Ha')|Hno].
  - assert (a' = a) as -> by (apply (Hall b); [now left|exact Ha']).
    destruct (proposal_of_constant b p a Ha') as [Hk Hd];
      [intros y Hy; apply (Hall b); [now left|exact Hy]|].
    rewrite bool_decide_eq_true_2 by exact Hk. rewrite Hd, Hm. simpl.
    now rewrite bool_decide_eq_false_2 by tauto.
  - now rewrite bool_decide_eq_false_2 by now apply no_proposal_without_rows.
Qed.

Lemma kept_from_first_row (batches : list (list support_row))
  (unique_peptides : gmap string string) (p a : string) :
  (forall result_df a', In result_df batches -> In (p, a') result_df -> a' = a) ->
  (exists result_df, In result_df batches /\ In (p, a) result_df) ->
  unique_peptides !! p = None ->
  foldl merge_batch unique_peptides batches !! p = Some a.
Proof.
  revert unique_peptides.
  induction batches as [|b batches IH]; intros unique_peptides Hall Hex Hm.
  - destruct Hex as (df & [] & _).
  - simpl. destruct (has_row_dec b p) as [(a' & Ha')|Hno].
    + assert (a' = a) as -> by (apply (Hall b); [now left|exact Ha']).
      apply kept_once_known; [intros df a' Hdf; apply Hall; now right|].
      rewrite merge_batch_lookup.
      destruct (proposal_of_constant b p a Ha') as [Hk Hd];
        [intros y Hy; apply (Hall b); [now left|exact Hy]|].
      rewrite bool_decide_eq_true_2 by exact Hk. now rewrite Hd, Hm.
    + apply IH; [intros df a' Hdf; apply Hall; now right| |].
      * destruct Hex as (df & [<-|Hdf] & Hrow); [now apply Hno in Hrow|eauto].
      * rewrite merge_batch_lookup.
        now rewrite bool_decide_eq_false_2 by now apply no_proposal_without_rows.
Qed.

(** X11. A peptide that has the same protein in every row of every batch,
    and has a row at all, maps to that protein after ingestion, whatever the
    other peptides do and however the rows fall into batches. *)
Theorem unambiguous_peptide_is_kept (batches : list (list support_row))
  (p a : string) :
  (forall result_df a', In result_df batches -> In (p, a') result_df -> a' = a) ->
  (exists result_df, In result_df batches /\ In (p, a) result_df) ->
  ingest batches !! p = Some a.
Proof.
  intros Hall Hex. apply kept_from_first_row; [exact Hall|exact Hex|].
  apply lookup_empty.
Qed.

(** [unambiguous_peptide_is_kept] at three batches in which [p2] changes
    protein and [p1] does not. *)
Lemma unambiguous_peptide_is_kept_witness :
  ingest [[("p1", "A"); ("p2", "A")]; [("p2", "B")]; [("p1", "A"); ("p3", "B")]]
    !! "p1" = Some "A".
Proof.
  apply unambiguous_peptide_is_kept.
  - intros df a' Hdf Hrow.
    repeat (destruct Hdf as [<-|Hdf];
            [repeat (destruct Hrow as [[= <-]|Hrow]; try reflexivity; try discriminate);
             contradiction|]).
    contradiction.
  - exists [("p1", "A"); ("p2", "A")]. split; now left.
Defined.

Lemma count_filter_snd (e : string) (l : list (string * string)) :
  length (List.filter (String.eqb e) (map snd l))
  = length (filter (fun kv : string * string => kv.2 = e) l).
Proof.
  induction l as [|[k v] l IH]; [reflexivity|].
  simpl. rewrite filter_cons. simpl.
  destruct (String.eqb_spec e v) as [->|Hne].
  - rewrite decide_True by reflexivity. simpl. now rewrite IH.
  - rewrite decide_False by congruence. exact IH.
Qed.

(** The occurrences of a protein among the values are the peptides that map
    to it. *)
Lemma count_is_size (unique_peptides : gmap string string) (e : string) :
  count e (proteins_list unique_peptides)
  = Z.of_nat (size (filter (fun kv : string * string => kv.2 = e) unique_peptides)).
Proof.
  unfold count, proteins_list. f_equal.
  rewrite count_filter_snd, map_filter_alt, map_size_list_to_map; [reflexivity|].
  eapply NoDup_fmap_fst.
  - intros k x y Hx Hy.
    apply list_elem_of_filter in Hx as [_ Hx], Hy as [_ Hy].
    apply elem_of_map_to_list in Hx, Hy. congruence.
  - apply NoDup_filter, NoDup_map_to_list.
Qed.

(** X12. A protein is strong exactly when some peptide maps to it and the
    number of peptides that map to it is at least [min_unique]; no protein is
    listed twice. *)
Theorem strong_proteins_are_well_supported (min_unique : Z)
  (unique_peptides : gmap string string) :
  (forall e,
      In e (strong_proteins min_unique unique_peptides)
      <-> (exists p, unique_peptides !! p = Some e)
          /\ (min_unique
              <= Z.of_nat (size (filter (fun kv : string * string => kv.2 = e)
                                        unique_peptides)))%Z)
  /\ NoDup (strong_proteins min_unique unique_peptides).
Proof.
  split.
  - intros e. unfold strong_proteins. cbv zeta.
    rewrite filter_In, Z.leb_le, count_is_size.
    rewrite <- list_elem_of_In, elem_of_unique.
    unfold proteins_list. rewrite list_elem_of_In, in_map_iff.
    split.
    + intros [([p v] & <- & Hin) Hc]. split; [|exact Hc].
      exists p. apply elem_of_map_to_list. now apply list_elem_of_In.
    + intros [(p & Hp) Hc]. split; [|exact Hc].
      exists (p, e). split; [reflexivity|].
      apply list_elem_of_In. now apply elem_of_map_to_list.
  - unfold strong_proteins. cbv zeta.
    assert (forall (f : string -> bool) l, NoDup l -> NoDup (List.filter f l)) as Hf.
    { intros f l Hl. induction Hl as [|x l Hx Hl IH]; simpl; [constructor|].
      destruct (f x); [|exact IH]. constructor; [|exact IH].
      rewrite list_elem_of_In, filter_In, <- list_elem_of_In. tauto. }
    apply Hf, NoDup_unique.
Qed.

End SupportInvariantFacts.

(** ** The rank state of quantile normalisation *)

Module RankStateFacts.
Import Py Stream.Quantile Statements.Ranks.

Lemma dense_size {A : Type} (quantile : gmap nat A) (n : nat) :
  (forall i, is_Some (quantile !! i) <-> (i < n)%nat) -> size quantile = n.
Proof.
  intros H. rewrite <- size_dom.
  assert (dom quantile = (set_seq 0 n : gset nat)) as ->.
  { apply set_eq. intros i. rewrite elem_of_dom, elem_of_set_seq, H. lia. }
  apply size_set_seq.
Qed.

Lemma to_dict_lookup {A : Type} (l : list A) (i : nat) : Pandas.to_dict l !! i = l !! i.
Proof. apply lookup_map_seq_0. Qed.

Lemma size_to_dict {A : Type} (l : list A) : size (Pandas.to_dict l) = length l.
Proof.
  apply dense_size. intros i. rewrite to_dict_lookup. apply lookup_lt_is_Some.
Qed.

Lemma length_ranked column : length (ranked column) = length (Pandas.dropna column).
Proof. unfold ranked, Pandas.sort_desc. now rewrite merge_sort_Permutation. Qed.

(** The loop over the common ranks: it raises nothing when the ranks are
    present on both sides, and it folds exactly those ranks. *)
Lemma for_each_ranks (dic : gmap nat float) (ranks : list nat)
  (quantile : gmap nat (float * Z)) :
  NoDup ranks ->
  (forall k, k ∈ ranks -> is_Some (quantile !! k) /\ is_Some (dic !! k)) ->
  exists quantile',
    for_each
      (fun quantile k =>
         oc ← getitem quantile k;
         v ← getitem dic k;
         Ok (<[k := recalculate (fst oc) (snd oc) v]> quantile))
      ranks quantile = Ok quantile'
    /\ forall i, quantile' !! i
                 = if bool_decide (i ∈ ranks)
                   then folded (quantile !! i) (dic !! i)
                   else quantile !! i.
Proof.
  intros Hnd. revert quantile.
  induction Hnd as [|k ranks Hk Hnd IH]; intros quantile Hpresent.
  - exists quantile. split; [reflexivity|]. intros i.
    case_bool_decide as H; [now apply elem_of_nil in H|reflexivity].
  - destruct (Hpresent k) as [[oc Hoc] [v Hv]]; [left|].
    assert (getitem quantile k = Ok oc) as Hgq by (unfold getitem; now rewrite Hoc).
    assert (getitem dic k = Ok v) as Hgd by (unfold getitem; now rewrite Hv).
    cbn [for_each]. rewrite Hgq. cbn. rewrite Hgd. cbn.
    destruct (IH (<[k := recalculate (fst oc) (snd oc) v]> quantile))
      as (quantile' & Hloop & Hlookup).
    { intros j Hj. destruct (Hpresent j) as [Hq Hd]; [now right|].
      split; [|exact Hd].
      destruct (decide (k = j)) as [->|Hne];
        [rewrite lookup_insert_eq; eauto|now rewrite lookup_insert_ne]. }
    exists quantile'. split; [exact Hloop|].
    intros i. rewrite Hlookup. destruct (decide (i = k)) as [->|Hne].
    + rewrite (bool_decide_eq_false_2 _ Hk), bool_decide_eq_true_2 by left.
      now rewrite lookup_insert_eq, Hoc, Hv.
    + rewrite lookup_insert_ne by congruence.
      destruct (decide (i ∈ ranks)) as [Hin|Hout].
      * rewrite !bool_decide_eq_true_2; [reflexivity|now right|exact Hin].
      * rewrite !bool_decide_eq_false_2; [reflexivity| |exact Hout].
        rewrite elem_of_cons. tauto.
Qed.

(** Folding one sample, rank by rank. *)
Lemma quantile_update_folds (quantile : gmap nat (float * Z))
  (column : list float) :
  dense quantile ->
  exists quantile',
    quantile_update quantile column = Ok quantile'
    /\ forall i, quantile' !! i = folded (quantile !! i) (ranked column !! i).
Proof.
  intros Hdense. unfold quantile_update. fold (ranked column).
  set (sorted := ranked column). rewrite size_to_dict.
  destruct (Nat.eqb_spec (size quantile) 0) as [Hz|Hnz].
  - eexists. split; [reflexivity|]. intros i.
    rewrite lookup_fmap, to_dict_lookup.
    assert (quantile !! i = None) as ->.
    { destruct (quantile !! i) eqn:E; [|reflexivity].
      assert (is_Some (quantile !! i)) as Hs by eauto.
      apply Hdense in Hs. lia. }
    now destruct (sorted !! i).
  - destruct (for_each_ranks (Pandas.to_dict sorted)
                (seq 0 (Nat.min (size quantile) (length sorted))) quantile)
      as (q1 & Hloop & Hq1).
    { apply NoDup_seq. }
    { intros k Hk. apply elem_of_seq in Hk. split.
      - apply Hdense. lia.
      - rewrite to_dict_lookup. apply lookup_lt_is_Some. lia. }
    rewrite Hloop. cbn.
    assert (forall i, (i < Nat.min (size quantile) (length sorted))%nat ->
                      q1 !! i = folded (quantile !! i) (sorted !! i)) as Hlow.
    { intros i Hi. rewrite Hq1, bool_decide_eq_true_2, to_dict_lookup;
        [reflexivity|]. apply elem_of_seq. lia. }
    assert (forall i, (Nat.min (size quantile) (length sorted) <= i)%nat ->
                      q1 !! i = quantile !! i) as Hhigh.
    { intros i Hi. rewrite Hq1, bool_decide_eq_false_2; [reflexivity|].
      rewrite elem_of_seq. lia. }
    assert (size q1 = size quantile) as Hsize.
    { apply dense_size. intros i.
      destruct (Nat.lt_ge_cases i (Nat.min (size quantile) (length sorted))) as [Hi|Hi].
      - rewrite (Hlow i Hi).
        destruct (proj2 (Hdense i)) as [oc ->]; [lia|].
        destruct (proj2 (lookup_lt_is_Some sorted i)) as [v ->]; [lia|].
        simpl. split; [lia|eauto].
      - rewrite (Hhigh i Hi). apply Hdense. }
    assert (forall i, (size quantile <= i)%nat -> quantile !! i = None) as Hnone.
    { intros i Hi. destruct (quantile !! i) eqn:E; [|reflexivity].
      assert (is_Some (quantile !! i)) as Hs by eauto.
      apply Hdense in Hs. lia. }
    rewrite Hsize.
    destruct (Nat.leb_spec (length sorted) (size quantile)) as [Hle|Hgt].
    + exists q1. split; [reflexivity|]. intros i.
      destruct (Nat.lt_ge_cases i (Nat.min (size quantile) (length sorted))) as [Hi|Hi];
        [now apply Hlow|].
      rewrite (Hhigh i Hi), (proj2 (lookup_ge_None sorted i)) by lia.
      now destruct (quantile !! i).
    + eexists. split; [reflexivity|]. intros i.
      rewrite lookup_union, lookup_fmap, map_lookup_filter, to_dict_lookup.
      destruct (Nat.lt_ge_cases i (Nat.min (size quantile) (length sorted))) as [Hi|Hi].
      * rewrite (Hlow i Hi).
        destruct (proj2 (Hdense i)) as [oc ->]; [lia|].
        destruct (proj2 (lookup_lt_is_Some sorted i)) as [v ->]; [lia|].
        simpl. rewrite option_guard_False by (simpl; lia). reflexivity.
      * rewrite (Hhigh i Hi), (Hnone i) by lia.
        destruct (sorted !! i) as [v|]; simpl; [|reflexivity].
        rewrite option_guard_True by (simpl; lia). reflexivity.
Qed.


Lemma folded_is_Some (quantile quantile' : gmap nat (float * Z)) column :
  dense quantile ->
  (forall i, quantile' !! i = folded (quantile !! i) (ranked column !! i)) ->
  forall i, is_Some (quantile' !! i)
            <-> (i < Nat.max (size quantile) (length (Pandas.dropna column)))%nat.
Proof.
  intros Hdense Hf i. rewrite Hf.
  pose proof (Hdense i) as Hq.
  pose proof (lookup_lt_is_Some (ranked column) i) as Hv.
  rewrite length_ranked in Hv.
  destruct (quantile !! i) as [oc|], (ranked column !! i) as [v|]; simpl;
    split; intros Hs; eauto; try lia.
  - assert (i < size quantile)%nat by (apply Hq; eauto). lia.
  - assert (i < size quantile)%nat by (apply Hq; eauto). lia.
  - assert (i < length (Pandas.dropna column))%nat by (apply Hv; eauto). lia.
  - now apply is_Some_None in Hs.
  - exfalso. destruct (Nat.max_spec (size quantile) (length (Pandas.dropna column)))
      as [[_ Hm]|[_ Hm]]; rewrite Hm in Hs.
    + apply Hv in Hs. now apply is_Some_None in Hs.
    + apply Hq in Hs. now apply is_Some_None in Hs.
Qed.

(** X13. On a state without gaps, folding a sample raises nothing.  The new
    state has no gap either, its size is the larger of the old size and the
    number of values of the sample, and it is the old state changed rank by
    rank: where the sample has a value, the entry is the incremental mean
    with that value, or starts at that value with count 1; where it has
    none, the entry is untouched. *)
Theorem quantile_update_by_rank (quantile : gmap nat (float * Z))
  (column : list float) :
  dense quantile ->
  exists quantile',
    quantile_update quantile column = Ok quantile'
    /\ dense quantile'
    /\ size quantile'
       = Nat.max (size quantile) (length (Pandas.dropna column))
    /\ forall i, quantile' !! i = folded (quantile !! i) (ranked column !! i).
Proof.
  intros Hdense.
  destruct (quantile_update_folds quantile column Hdense) as (q' & Hupd & Hf).
  pose proof (folded_is_Some quantile q' column Hdense Hf) as Hs.
  pose proof (dense_size q' _ Hs) as Hsize.
  exists q'. split; [exact Hupd|]. split; [|split; [exact Hsize|exact Hf]].
  intros i. rewrite Hsize. apply Hs.
Qed.

(** The theorem applies to the state after one sample. *)
Lemma quantile_update_by_rank_witness :
  dense ({[0%nat := (3%float, 1%Z)]} : gmap nat (float * Z))
  /\ exists quantile',
       quantile_update {[0%nat := (3%float, 1%Z)]} [1%float; 5%float]
       = Ok quantile'
       /\ dense quantile'
       /\ size quantile'
          = Nat.max (size ({[0%nat := (3%float, 1%Z)]} : gmap nat (float * Z)))
                    (length (Pandas.dropna [1%float; 5%float]))
       /\ forall i, quantile' !! i
                    = folded (({[0%nat := (3%float, 1%Z)]} : gmap nat (float * Z)) !! i)
                             (ranked [1%float; 5%float] !! i).
Proof.
  assert (dense ({[0%nat := (3%float, 1%Z)]} : gmap nat (float * Z))) as Hd.
  { intros i. rewrite map_size_singleton, lookup_singleton_is_Some. lia. }
  split; [exact Hd|]. exact (quantile_update_by_rank _ _ Hd).
Defined.

Lemma reaching_nil i : reaching [] i = 0%Z.
Proof. reflexivity. Qed.

Lemma reaching_app columns column i :
  reaching (columns ++ [column]) i
  = (reaching columns i
     + if (i <? length (Pandas.dropna column))%nat then 1 else 0)%Z.
Proof.
  unfold reaching. rewrite List.filter_app, length_app. simpl.
  destruct (i <? length (Pandas.dropna column))%nat; simpl; lia.
Qed.

Lemma reaching_nonneg columns i : (0 <= reaching columns i)%Z.
Proof. unfold reaching. lia. Qed.

Lemma reaching_pos columns i :
  (0 < reaching columns i)%Z <-> (i < longest columns)%nat.
Proof.
  unfold reaching. induction columns as [|column columns IH]; simpl; [lia|].
  destruct (Nat.ltb_spec i (length (Pandas.dropna column))); simpl in *; lia.
Qed.

Lemma counted_size quantile columns :
  counted quantile columns -> size quantile = longest columns.
Proof.
  intros H. apply dense_size. intros i. rewrite <- (fmap_is_Some snd), H.
  destruct (Nat.ltb_spec i (longest columns)); split; intros Hs;
    try lia; eauto.
  now apply is_Some_None in Hs.
Qed.

Lemma counted_dense quantile columns : counted quantile columns -> dense quantile.
Proof.
  intros H i. rewrite (counted_size _ _ H), <- (fmap_is_Some snd), H.
  destruct (Nat.ltb_spec i (longest columns)); split; intros Hs;
    try lia; eauto.
  now apply is_Some_None in Hs.
Qed.

Lemma longest_app columns column :
  longest (columns ++ [column])
  = Nat.max (longest columns) (length (Pandas.dropna column)).
Proof.
  unfold longest. induction columns as [|c columns IH]; simpl; [lia|].
  rewrite IH. lia.
Qed.

Lemma counted_step quantile quantile' columns column :
  counted quantile columns ->
  (forall i, quantile' !! i = folded (quantile !! i) (ranked column !! i)) ->
  counted quantile' (columns ++ [column]).
Proof.
  intros Hc Hf i. rewrite Hf, longest_app, reaching_app.
  specialize (Hc i). pose proof (reaching_nonneg columns i) as Hnn.
  pose proof (reaching_pos columns i) as Hpos.
  pose proof (lookup_lt_is_Some (ranked column) i) as Hv.
  rewrite length_ranked in Hv.
  destruct (Nat.ltb_spec i (longest columns)) as [Hi|Hi];
    destruct (quantile !! i) as [[avg c]|]; simpl in Hc; try discriminate;
    destruct (Nat.ltb_spec i (length (Pandas.dropna column))) as [Hj|Hj];
    destruct (ranked column !! i) as [v|] eqn:E; simpl;
    try (exfalso; destruct Hv as [Hv1 Hv2];
         first [ (assert (is_Some (@None float)) as Hs by (apply Hv2; lia));
                 now apply is_Some_None in Hs
               | (assert (i < length (Pandas.dropna column))%nat
                   by (apply Hv1; eauto)); lia ]).
  - destruct (Nat.ltb_spec i (Nat.max (longest columns) (length (Pandas.dropna column))));
      [|lia]. now inversion Hc.
  - destruct (Nat.ltb_spec i (Nat.max (longest columns) (length (Pandas.dropna column))));
      [|lia]. inversion Hc. f_equal. lia.
  - destruct (Nat.ltb_spec i (Nat.max (longest columns) (length (Pandas.dropna column))));
      [|lia]. f_equal. lia.
  - destruct (Nat.ltb_spec i (Nat.max (longest columns) (length (Pandas.dropna column))));
      [lia|]. reflexivity.
Qed.

Lemma quantile_pass_from rest : forall processed quantile,
  counted quantile processed ->
  exists quantile',
    for_each quantile_update rest quantile = Ok quantile'
    /\ counted quantile' (processed ++ rest).
Proof.
  induction rest as [|column rest IH]; intros processed quantile Hc.
  - exists quantile. rewrite app_nil_r. now split.
  - destruct (quantile_update_folds quantile column (counted_dense _ _ Hc))
      as (q1 & Hupd & Hlookup).
    destruct (IH (processed ++ [column]) q1 (counted_step _ _ _ _ Hc Hlookup))
      as (q2 & Hloop & Hc2).
    exists q2. cbn [for_each]. rewrite Hupd. cbn. split; [exact Hloop|].
    now rewrite <- app_assoc in Hc2.
Qed.

(** X14. The first pass of quantile normalisation never raises.  Its state
    has one entry for each rank below the largest number of values of a
    sample, and the count of a rank is the number of samples that have a
    value at that rank. *)
Theorem quantile_pass_counts (columns : list (list float)) :
  exists quantile,
    quantile_pass columns = Ok quantile
    /\ size quantile = longest columns
    /\ forall i, snd <$> quantile !! i
                 = if (i <? longest columns)%nat
                   then Some (reaching columns i) else None.
Proof.
  destruct (quantile_pass_from columns [] ∅) as (quantile & Hpass & Hc).
  { intros i. rewrite lookup_empty. reflexivity. }
  exists quantile. split; [exact Hpass|]. split; [|exact Hc].
  now apply counted_size.
Qed.

Lemma length_drop_duplicates_from seen col :
  (length (Pandas.drop_duplicates_from seen col) <= length col)%nat.
Proof.
  revert seen. induction col as [|x col IH]; intros seen; simpl; [lia|].
  destruct (Pandas.fmem x seen); simpl; [specialize (IH seen)|specialize (IH (x :: seen))];
    lia.
Qed.

Lemma sublist_dropna_length (l1 l2 : list float) :
  sublist l1 l2 -> (length (Pandas.dropna l1) <= length (Pandas.dropna l2))%nat.
Proof.
  unfold Pandas.dropna. induction 1 as [|x l1 l2 _ IH|x l1 l2 _ IH]; simpl;
    [lia| |]; destruct (Pandas.notna x); simpl; lia.
Qed.

Lemma longest_ge columns column :
  column ∈ columns -> (length (Pandas.dropna column) <= longest columns)%nat.
Proof.
  induction 1 as [column columns|column c columns _ IH]; simpl; lia.
Qed.

Lemma traverse_total {A B : Type} (f : A -> result B) (l : list A) :
  (forall x, x ∈ l -> exists y, f x = Ok y) ->
  exists ys, traverse f l = Ok ys.
Proof.
  induction l as [|x l IH]; intros H; [now exists []|].
  destruct (H x) as [y Hy]; [left|].
  destruct IH as [ys Hys]; [intros z Hz; apply H; now right|].
  exists (y :: ys). cbn [traverse]. rewrite Hy. cbn. rewrite Hys. reflexivity.
Qed.

Lemma is_nan_spec x : PrimFloat.is_nan x = true -> Prim2SF x = S754_nan.
Proof.
  unfold PrimFloat.is_nan. rewrite FloatAxioms.eqb_spec.
  destruct (Prim2SF x) as [s|s| |s m e]; unfold SFeqb, SFcompare;
    try reflexivity.
  - now destruct s.
  - now destruct s.
  - rewrite Z.compare_refl, Pos.compare_refl. now destruct s.
Qed.

Lemma nan_eqb v x : PrimFloat.is_nan x = true -> PrimFloat.eqb v x = false.
Proof.
  intros Hx. rewrite FloatAxioms.eqb_spec, (is_nan_spec x Hx).
  now destruct (Prim2SF v).
Qed.

Lemma ref_lookup_nan ref_dict x :
  PrimFloat.is_nan x = true -> PrimFloat.is_nan (ref_lookup ref_dict x) = true.
Proof.
  intros Hx. induction ref_dict as [|[v r] ref_dict IH]; simpl; [reflexivity|].
  now rewrite (nan_eqb v x Hx).
Qed.

(** X15. A sample that went through the first pass is normalised in the
    second pass without a missing rank, also when rows were removed from it
    in between: [qnorm] raises nothing, returns one value for each row, and
    a row without an intensity stays without one. *)
Theorem qnorm_after_pass_is_total (columns : list (list float))
  (first second : list float) :
  first ∈ columns ->
  sublist second first ->
  exists quantile out,
    quantile_pass columns = Ok quantile
    /\ qnorm (norm_intensity quantile) second = Ok out
    /\ length out = length second
    /\ forall j x, second !! j = Some x -> PrimFloat.is_nan x = true ->
         exists y, out !! j = Some y /\ PrimFloat.is_nan y = true.
Proof.
  intros Hin Hsub.
  destruct (quantile_pass_from columns [] ∅) as (quantile & Hpass & Hc).
  { intros i. rewrite lookup_empty. reflexivity. }
  simpl in Hc. change (for_each quantile_update columns ∅) with (quantile_pass columns) in Hpass.
  assert (exists ref, ref_dict (norm_intensity quantile) second = Ok ref)
    as [ref Href].
  { unfold ref_dict. apply traverse_total. intros [k v] Hkv.
    apply elem_of_lookup_imap in Hkv as (i & y & Heq & Hi).
    injection Heq as -> ->. simpl.
    assert (i < longest columns)%nat as Hlt.
    { apply lookup_lt_Some in Hi.
      unfold Pandas.sort_desc in Hi. rewrite merge_sort_Permutation in Hi.
      pose proof (length_drop_duplicates_from [] (Pandas.dropna second)).
      pose proof (sublist_dropna_length _ _ Hsub).
      pose proof (longest_ge _ _ Hin).
      unfold Pandas.drop_duplicates in Hi. lia. }
    specialize (Hc i). destruct (Nat.ltb_spec i (longest columns)); [|lia].
    unfold getitem, norm_intensity. rewrite lookup_fmap.
    destruct (quantile !! i) as [[avg c]|]; [|discriminate]. simpl. eauto. }
  exists quantile, (map (ref_lookup ref) second).
  split; [exact Hpass|]. split; [unfold qnorm; now rewrite Href|].
  split; [apply length_map|].
  intros j x Hj Hx. exists (ref_lookup ref x). split.
  - now rewrite list_lookup_fmap, Hj.
  - now apply ref_lookup_nan.
Qed.

(** The theorem applies to a run of two samples. *)
Lemma qnorm_after_pass_is_total_witness :
  [4%float; nan; 2%float] ∈ [[1%float]; [4%float; nan; 2%float]]
  /\ sublist [nan; 2%float] [4%float; nan; 2%float]
  /\ exists quantile out,
       quantile_pass [[1%float]; [4%float; nan; 2%float]] = Ok quantile
       /\ qnorm (norm_intensity quantile) [nan; 2%float] = Ok out
       /\ length out = length [nan; 2%float]
       /\ forall j x, [nan; 2%float] !! j = Some x -> PrimFloat.is_nan x = true ->
            exists y, out !! j = Some y /\ PrimFloat.is_nan y = true.
Proof.
  assert ([4%float; nan; 2%float] ∈ [[1%float]; [4%float; nan; 2%float]]) as Hin
    by (right; left).
  assert (sublist [nan; 2%float] [4%float; nan; 2%float]) as Hsub
    by (apply sublist_cons; reflexivity).
  split; [exact Hin|]. split; [exact Hsub|].
  exact (qnorm_after_pass_is_total _ _ _ Hin Hsub).
Defined.

End RankStateFacts.

(** ** Per-run centering over any number of samples *)

Module CenteringPassFacts.
Import Py Commons Stream.Centering Statements.Centering Statements.Groups.

Lemma dict_mem_app {V : Type} (d1 d2 : dict V) k :
  dict_mem (d1 ++ d2) k = dict_mem d1 k || dict_mem d2 k.
Proof.
  unfold dict_mem. induction d1 as [|[k' v] d1 IH]; simpl; [now destruct (dict_find d2 k)|].
  case_bool_decide; [reflexivity|exact IH].
Qed.

Lemma dict_mem_In {V : Type} (d : dict V) k :
  dict_mem d k = true <-> In k (map fst d).
Proof.
  unfold dict_mem. induction d as [|[k' v] d IH]; simpl; [split; [discriminate|tauto]|].
  case_bool_decide as Hk; [subst; tauto|]. rewrite IH. split; [tauto|].
  intros [Hq|Hq]; [congruence|exact Hq].
Qed.

Lemma dict_set_new {V : Type} (d : dict V) k (v : V) :
  dict_mem d k = false -> dict_set d k v = d ++ [(k, v)].
Proof.
  unfold dict_mem. induction d as [|[k' w] d IH]; simpl; [reflexivity|].
  case_bool_decide; [discriminate|]. intros Hm. now rewrite IH.
Qed.

Lemma group_keys_app {V : Type} (d1 d2 : dict V) :
  group_keys d1 -> group_keys d2 -> group_keys (d1 ++ d2).
Proof. unfold group_keys. intros. now apply Forall_app. Qed.

Lemma group_keys_entry {V : Type} (g : string * Z) (v : V) :
  group_keys [(KGroup (fst g) (snd g), v)].
Proof. repeat constructor. simpl. eauto. Qed.

Lemma dict_get_mem {V : Type} (d : dict V) k :
  dict_mem d k = true -> exists v, dict_get d k = Ok v.
Proof.
  unfold dict_mem, dict_get. destruct (dict_find d k); [eauto|discriminate].
Qed.

Section groups.
Context (label : string).

Let key (g : string * Z) : pykey := KGroup (fst g) (snd g).
Let body (group_intensities : dict (list float)) (g : (string * Z) * list msrow)
  : result (dict (list float)) :=
  let name := KGroup (fst (fst g)) (snd (fst g)) in
  let group_intensity := map NormIntensity (snd g) in
  if negb (dict_mem group_intensities name)
  then Ok (dict_set group_intensities name group_intensity)
  else
    known ← dict_get group_intensities (KStr NORM_INTENSITY);
    Ok (dict_set group_intensities name (known ++ group_intensity)).
Let entry (g : (string * Z) * list msrow) : pykey * list float :=
  (KGroup (fst (fst g)) (snd (fst g)), map NormIntensity (snd g)).

Lemma key_inj g1 g2 : key g1 = key g2 -> g1 = g2.
Proof. destruct g1, g2. unfold key. simpl. congruence. Qed.

(** The loop over the groups of one sample when every group is new. *)
Lemma groups_new (groups : list ((string * Z) * list msrow)) :
  forall group_intensities,
    NoDup (map fst groups) ->
    (forall g, In g groups -> dict_mem group_intensities (key (fst g)) = false) ->
    for_each body groups group_intensities
    = Ok (group_intensities ++ map entry groups).
Proof.
  induction groups as [|g groups IH]; intros d Hnd Hnew.
  - simpl. now rewrite app_nil_r.
  - pose proof (Hnew g (or_introl eq_refl)) as Hg. unfold key in Hg.
    assert (body d g = Ok (d ++ [entry g])) as Hstep.
    { unfold body. cbv zeta. rewrite Hg. cbn [negb].
      now rewrite (dict_set_new _ _ _ Hg). }
    cbn [for_each]. rewrite Hstep. cbn.
    inversion Hnd as [|? ? Hnotin Hnd']; subst.
    rewrite IH; [now rewrite <- app_assoc| exact Hnd' |].
    intros g' Hg'. rewrite dict_mem_app, (Hnew g' (or_intror Hg')). simpl.
    unfold dict_mem. simpl. case_bool_decide as Heq; [|reflexivity].
    exfalso. apply Hnotin. apply (key_inj (fst g) (fst g')) in Heq.
    rewrite Heq. apply list_elem_of_In, in_map, Hg'.
Qed.

(** The loop over the groups of one sample when a group is recorded. *)
Lemma groups_known (groups : list ((string * Z) * list msrow)) :
  forall group_intensities,
    group_keys group_intensities ->
    (exists g, In g groups /\ dict_mem group_intensities (key (fst g)) = true) ->
    for_each body groups group_intensities = Raise (KeyError (KStr NORM_INTENSITY)).
Proof.
  induction groups as [|g groups IH]; intros d Hk (g0 & Hin & Hmem);
    [contradiction|].
  destruct (dict_mem d (KGroup (fst (fst g)) (snd (fst g)))) eqn:Hg.
  - assert (body d g = Raise (KeyError (KStr NORM_INTENSITY))) as Hstep.
    { unfold body. cbv zeta. rewrite Hg. cbn [negb].
      now rewrite CenteringFacts.dict_get_column_name. }
    cbn [for_each]. now rewrite Hstep.
  - assert (body d g = Ok (d ++ [entry g])) as Hstep.
    { unfold body. cbv zeta. rewrite Hg. cbn [negb].
      now rewrite (dict_set_new _ _ _ Hg). }
    cbn [for_each]. rewrite Hstep. cbn. apply IH.
    + apply group_keys_app; [exact Hk|apply group_keys_entry].
    + exists g0. split.
      * destruct Hin as [->|Hin]; [|exact Hin]. unfold key in Hmem. congruence.
      * rewrite dict_mem_app, Hmem. reflexivity.
Qed.

Lemma groupby_keys (df : list msrow) :
  NoDup (map fst (Pandas.groupby group_le (fun r => Some (group_name label r)) df))
  /\ forall k, In k (map fst (Pandas.groupby group_le
                                (fun r => Some (group_name label r)) df))
               <-> exists r, In r df /\ group_name label r = k.
Proof.
  unfold Pandas.groupby. rewrite map_map. simpl. rewrite map_id.
  split.
  - rewrite merge_sort_Permutation. apply NoDup_remove_dups.
  - intros k. rewrite <- list_elem_of_In, merge_sort_Permutation,
      elem_of_remove_dups, list_elem_of_omap.
    split.
    + intros (r & Hr & Hk). exists r. apply list_elem_of_In in Hr.
      split; [exact Hr|congruence].
    + intros (r & Hr & Hk). exists r. apply list_elem_of_In in Hr.
      split; [exact Hr|congruence].
Qed.

Lemma accumulate_groups_eq d df :
  accumulate_groups label d df
  = for_each body (Pandas.groupby group_le (fun r => Some (group_name label r)) df) d.
Proof. reflexivity. Qed.

Lemma entries_keys df k :
  In k (map fst (entries label df)) <-> exists r, In r df /\ name_of label r = k.
Proof.
  unfold entries. rewrite map_map. simpl.
  change (map (fun x : string * Z * list msrow => KGroup x.1.1 x.1.2)
              (Pandas.groupby group_le (fun r => Some (group_name label r)) df))
    with (map (fun x : string * Z * list msrow => key (fst x))
              (Pandas.groupby group_le (fun r => Some (group_name label r)) df)).
  rewrite <- (map_map fst key), in_map_iff. split.
  - intros (g & Hg & Hin). apply (proj2 (groupby_keys df)) in Hin as (r & Hr & Hk).
    exists r. split; [exact Hr|]. unfold name_of. rewrite Hk. exact Hg.
  - intros (r & Hr & Hk). exists (group_name label r). split; [exact Hk|].
    apply (proj2 (groupby_keys df)). eauto.
Qed.

Lemma entries_group_keys df : group_keys (entries label df).
Proof.
  unfold group_keys, entries. apply List.Forall_forall. intros kv Hkv.
  apply in_map_iff in Hkv as (g & <- & _). simpl. eauto.
Qed.

(** A sample none of whose rows is in a recorded group is added. *)
Lemma accumulate_new d df :
  (forall r, In r df -> dict_mem d (name_of label r) = false) ->
  accumulate_groups label d df = Ok (d ++ entries label df).
Proof.
  intros Hnew. rewrite accumulate_groups_eq.
  rewrite groups_new; [reflexivity|apply groupby_keys|].
  intros g Hg.
  assert (In (fst g) (map fst (Pandas.groupby group_le
                                 (fun r => Some (group_name label r)) df))) as Hin
    by now apply in_map.
  apply (proj2 (groupby_keys df)) in Hin as (r & Hr & Hk).
  rewrite <- Hk. apply (Hnew r Hr).
Qed.

(** A sample with a row in a recorded group ends the pass. *)
Lemma accumulate_known d df :
  group_keys d ->
  (exists r, In r df /\ dict_mem d (name_of label r) = true) ->
  accumulate_groups label d df = Raise (KeyError (KStr NORM_INTENSITY)).
Proof.
  intros Hk (r & Hr & Hmem). rewrite accumulate_groups_eq.
  apply groups_known; [exact Hk|].
  assert (In (group_name label r)
             (map fst (Pandas.groupby group_le
                         (fun r => Some (group_name label r)) df))) as Hin
    by (apply (proj2 (groupby_keys df)); eauto).
  apply in_map_iff in Hin as (g & Hg & Hin).
  exists g. split; [exact Hin|]. unfold key. rewrite Hg. exact Hmem.
Qed.


Lemma meets_false d df :
  meets label d df = false -> forall r, In r df -> dict_mem d (name_of label r) = false.
Proof.
  unfold meets. intros H r Hr.
  destruct (dict_mem d (name_of label r)) eqn:E; [|reflexivity].
  assert (existsb (fun r => dict_mem d (name_of label r)) df = true) as Ht
    by (apply existsb_exists; eauto).
  congruence.
Qed.

Lemma meets_true d df :
  meets label d df = true -> exists r, In r df /\ dict_mem d (name_of label r) = true.
Proof. unfold meets. intros H. now apply existsb_exists in H. Qed.

(** The pass from any dictionary of groups: it completes when no sample meets
    the dictionary or an earlier sample. *)
Lemma pass_completes (samples : list (list msrow)) :
  forall d,
    (forall s, In s samples -> meets label d s = false) ->
    ~ shared label samples ->
    for_each (accumulate_groups label) samples d
    = Ok (d ++ concat (map (entries label) samples)).
Proof.
  induction samples as [|s samples IH]; intros d Hd Hns.
  - simpl. now rewrite app_nil_r.
  - cbn [for_each]. rewrite accumulate_new
      by (apply meets_false, Hd; now left).
    cbn. rewrite IH; [simpl; now rewrite app_assoc| |].
    + intros s' Hs'. destruct (meets label (d ++ entries label s) s') eqn:E;
        [|reflexivity].
      exfalso. apply meets_true in E as (r & Hr & Hmem).
      rewrite dict_mem_app in Hmem. apply orb_true_iff in Hmem as [Hmem|Hmem].
      * rewrite (meets_false d s' (Hd s' (or_intror Hs')) r Hr) in Hmem.
        discriminate.
      * apply dict_mem_In, entries_keys in Hmem as (r0 & Hr0 & Hk).
        apply Hns. apply list_elem_of_In, list_elem_of_lookup in Hs' as [j Hj].
        exists 0%nat, (S j), s, s'. repeat split; [lia|exact Hj|].
        exists r0, r. repeat split; [exact Hr0|exact Hr|].
        unfold name_of in Hk. destruct (group_name label r0), (group_name label r).
        simpl in Hk. congruence.
    + intros (i & j & s1 & s2 & Hij & Hi & Hj & Hsh). apply Hns.
      exists (S i), (S j), s1, s2. repeat split; [lia|exact Hi|exact Hj|exact Hsh].
Qed.

(** The pass from any dictionary of groups: it raises when a sample meets
    the dictionary or an earlier sample. *)
Lemma pass_raises (samples : list (list msrow)) :
  forall d,
    group_keys d ->
    (exists s, In s samples /\ meets label d s = true) \/ shared label samples ->
    for_each (accumulate_groups label) samples d
    = Raise (KeyError (KStr NORM_INTENSITY)).
Proof.
  induction samples as [|s samples IH]; intros d Hk Hbad.
  - exfalso. destruct Hbad as [(s & [] & _)|(i & j & s1 & s2 & _ & Hi & _)].
    discriminate.
  - cbn [for_each]. destruct (meets label d s) eqn:Hm.
    + rewrite accumulate_known; [reflexivity|exact Hk|now apply meets_true].
    + rewrite accumulate_new by now apply meets_false. cbn.
      apply IH; [apply group_keys_app; [exact Hk|apply entries_group_keys]|].
      destruct Hbad as [(s' & [<-|Hs'] & Hm')|(i & j & s1 & s2 & Hij & Hi & Hj & Hsh)].
      * congruence.
      * left. exists s'. split; [exact Hs'|].
        apply meets_true in Hm' as (r & Hr & Hmem).
        unfold meets. apply existsb_exists. exists r. split; [exact Hr|].
        now rewrite dict_mem_app, Hmem.
      * destruct j as [|j]; [lia|]. simpl in Hj. destruct i as [|i].
        -- left. simpl in Hi. injection Hi as <-. exists s2.
           split; [apply list_elem_of_In, list_elem_of_lookup; eauto|].
           destruct Hsh as (r1 & r2 & Hr1 & Hr2 & Heq).
           unfold meets. apply existsb_exists. exists r2. split; [exact Hr2|].
           rewrite dict_mem_app. apply orb_true_iff. right.
           apply dict_mem_In, entries_keys. exists r1. split; [exact Hr1|].
           unfold name_of. now rewrite Heq.
        -- right. simpl in Hi. exists i, j, s1, s2.
           repeat split; [lia|exact Hi|exact Hj|exact Hsh].
Qed.

End groups.

Lemma group_medians_mem d k :
  dict_mem (group_medians d) k = dict_mem d k.
Proof.
  unfold dict_mem, group_medians. induction d as [|[k' v] d IH]; simpl; [reflexivity|].
  case_bool_decide; [reflexivity|exact IH].
Qed.

Lemma is_multiplexed_name label r :
  name_of label r
  = if is_multiplexed label then KGroup (Run r) (Channel r)
    else KGroup (Run r) (Fraction r).
Proof. unfold name_of, group_name. now destruct (is_multiplexed label). Qed.

(** X16. The first pass of per-run centering completes exactly when no two
    samples have a row in the same group.  Then [group_intensities] has one
    entry for each group of each sample, in order, and the second pass
    returns a centred value for every row of every sample.  When two samples
    share a group, the pass, and the normalisation with it, raise
    [KeyError] on the column name [NormIntensity]. *)
Theorem centering_completes_iff_groups_are_disjoint (label : string)
  (samples : list (list msrow)) :
  (~ shared label samples ->
   first_pass label samples = Ok (concat (map (entries label) samples))
   /\ exists out, msstats_normalization label samples = Ok out
                  /\ Forall2 (fun s o => length o = length s) samples out)
  /\ (shared label samples ->
      first_pass label samples = Raise (KeyError (KStr NORM_INTENSITY))
      /\ msstats_normalization label samples
         = Raise (KeyError (KStr NORM_INTENSITY))).
Proof.
  split.
  - intros Hns.
    assert (first_pass label samples = Ok (concat (map (entries label) samples)))
      as Hpass.
    { unfold first_pass. rewrite pass_completes; [reflexivity| |exact Hns].
      intros s _. unfold meets. induction s; [reflexivity|exact IHs]. }
    split; [exact Hpass|].
    unfold msstats_normalization. rewrite Hpass. cbn.
    set (d := concat (map (entries label) samples)).
    assert (forall s r, In s samples -> In r s ->
                        dict_mem (group_medians d) (name_of label r) = true) as Hmem.
    { intros s r Hs Hr. rewrite group_medians_mem. apply dict_mem_In.
      unfold d. rewrite concat_map. apply in_concat.
      exists (map fst (entries label s)). split.
      - rewrite map_map. apply in_map_iff. eauto.
      - apply entries_keys. eauto. }
    destruct (is_multiplexed label) eqn:Hl.
    + apply PeptidoformFacts.traverse_Forall2. intros s Hs.
      unfold center_multiplexed.
      destruct (PeptidoformFacts.traverse_Forall2
                  (fun x =>
                     m ← dict_get (group_medians d) (KGroup (Run x) (Channel x));
                     Ok (PrimFloat.add (PrimFloat.sub (NormIntensity x) m)
                                       (median_baseline d)))
                  (fun _ _ => True) s) as (ys & Hys & HF).
      { intros x Hx. pose proof (Hmem s x Hs Hx) as Hm.
        rewrite is_multiplexed_name, Hl in Hm.
        apply dict_get_mem in Hm as [m ->]. cbn. eauto. }
      exists ys. split; [exact Hys|]. symmetry. now apply Forall2_length in HF.
    + apply PeptidoformFacts.traverse_Forall2. intros s Hs.
      unfold center_label_free.
      destruct (PeptidoformFacts.traverse_Forall2
                  (fun x =>
                     m ← dict_get (group_medians d) (KGroup (Run x) (Fraction x));
                     Ok (PrimFloat.add
                           (PrimFloat.sub (NormIntensity x) m)
                           (Pandas.median
                              (map snd (List.filter
                                 (fun kv => bool_decide (second (fst kv) = Some (Fraction x)))
                                 (group_medians d))))))
                  (fun _ _ => True) s) as (ys & Hys & HF).
      { intros x Hx. pose proof (Hmem s x Hs Hx) as Hm.
        rewrite is_multiplexed_name, Hl in Hm.
        apply dict_get_mem in Hm as [m ->]. cbn. eauto. }
      exists ys. split; [exact Hys|]. symmetry. now apply Forall2_length in HF.
  - intros Hs.
    assert (first_pass label samples = Raise (KeyError (KStr NORM_INTENSITY)))
      as Hpass.
    { unfold first_pass. apply pass_raises; [constructor|now right]. }
    split; [exact Hpass|]. unfold msstats_normalization. now rewrite Hpass.
Qed.

End CenteringPassFacts.

(** ** Counting and export over any samples *)

Module FrequencyLoopFacts.
Import Py Stream.Frequency Statements.Streak.

Lemma count_sample_counts (peptides_count : gmap string Z)
  (norm_df : list out_row) (peptide : string) :
  peptide ∈ map PeptideCanonical norm_df ->
  count_sample true peptides_count (Some norm_df) !! peptide
  = Some (default 0 (peptides_count !! peptide) + 1)%Z.
Proof.
  intros Hin. unfold count_sample.
  apply elem_of_list_to_map_1.
  - change (NoDup (fst <$> ((fun peptide : string =>
                   (peptide, (default 0 (peptides_count !! peptide) + 1)%Z))
                  <$> Pandas.unique (map PeptideCanonical norm_df)))).
    rewrite <- list_fmap_compose.
    rewrite (list_fmap_ext _ id _ _ (fun _ _ _ => eq_refl) eq_refl) || idtac.
    rewrite list_fmap_id. apply UniqueFacts.NoDup_unique.
  - apply list_elem_of_In, in_map_iff. exists peptide. split; [reflexivity|].
    apply list_elem_of_In, UniqueFacts.elem_of_unique, Hin.
Qed.

Lemma streak_from_nonneg peptide newest_first :
  (0 <= streak_from peptide newest_first)%Z.
Proof.
  induction newest_first as [|[norm_df|] rest IH]; simpl; [lia| |exact IH].
  case_bool_decide; lia.
Qed.

Lemma counts_are_streaks peptide newest_first :
  foldl (count_sample true) ∅ (rev newest_first) !! peptide
  = if (0 <? streak_from peptide newest_first)%Z
    then Some (streak_from peptide newest_first) else None.
Proof.
  induction newest_first as [|[norm_df|] rest IH]; cbn [streak_from rev].
  - apply lookup_empty.
  - rewrite foldl_app. cbn [foldl].
    pose proof (streak_from_nonneg peptide rest) as Hnn.
    case_bool_decide as Hin.
    + rewrite (count_sample_counts _ _ _ Hin), IH.
      destruct (Z.ltb_spec 0 (streak_from peptide rest));
        destruct (Z.ltb_spec 0 (streak_from peptide rest + 1)); simpl;
        try lia; f_equal; lia.
    + now rewrite (FrequencyFacts.count_sample_forgets _ _ _ Hin).
  - rewrite foldl_app. cbn [foldl count_sample]. exact IH.
Qed.

Lemma counting_disabled (samples : list (option (list out_row))) :
  forall peptides_count,
    foldl (count_sample false) peptides_count samples = peptides_count.
Proof.
  induction samples as [|[norm_df|] samples IH]; intros m; simpl;
    [reflexivity| |]; apply IH.
Qed.

Lemma strong_peptides_In (sample_number : Z) (peptides_count : gmap string Z)
  (peptide : string) :
  In peptide (strong_peptides sample_number peptides_count)
  <-> exists v, peptides_count !! peptide = Some v
                /\ PrimFloat.leb threshold
                     (PrimFloat.div (float_of_Z v) (float_of_Z sample_number)) = true
                /\ ((if (1 <? sample_number)%Z then 1 else 0) <? v)%Z = true.
Proof.
  unfold strong_peptides. cbv zeta. rewrite in_map_iff. split.
  - intros ([p v] & Hp & Hin). simpl in Hp. subst p.
    apply filter_In in Hin as [Hin Hc]. simpl in Hc.
    apply andb_true_iff in Hc as [Hc1 Hc2].
    apply list_elem_of_In, elem_of_map_to_list in Hin. eauto.
  - intros (v & Hv & Hc1 & Hc2). exists (peptide, v). split; [reflexivity|].
    apply filter_In. split.
    + now apply list_elem_of_In, elem_of_map_to_list.
    + simpl. now rewrite Hc1, Hc2.
Qed.

(** X17. With the frequency filter on, the count a peptide has after the
    counting loop is not the number of samples that hold it: it is the number
    of samples in a row, counted back from the last sample, that hold it
    (samples without rows are passed over), and a peptide that the last such
    sample does not hold has no count.  A peptide is strong exactly when
    this number passes the two tests of the filter.  With the filter off
    nothing is counted. *)
Theorem counting_keeps_the_trailing_streak
  (samples : list (option (list out_row))) (peptide : string) :
  foldl (count_sample true) ∅ samples !! peptide
  = (if (0 <? streak peptide samples)%Z
     then Some (streak peptide samples) else None)
  /\ (In peptide (strong_peptides (Z.of_nat (length samples))
                                  (foldl (count_sample true) ∅ samples))
      <-> PrimFloat.leb threshold
            (PrimFloat.div (float_of_Z (streak peptide samples))
                           (float_of_Z (Z.of_nat (length samples)))) = true
          /\ ((if (1 <? Z.of_nat (length samples))%Z then 1 else 0)
              <? streak peptide samples)%Z = true)
  /\ foldl (count_sample false) ∅ samples = ∅.
Proof.
  assert (foldl (count_sample true) ∅ samples !! peptide
          = (if (0 <? streak peptide samples)%Z
             then Some (streak peptide samples) else None)) as Hcount.
  { unfold streak. rewrite <- (rev_involutive samples) at 1.
    apply counts_are_streaks. }
  split; [exact Hcount|]. split; [|apply counting_disabled].
  rewrite strong_peptides_In, Hcount.
  destruct (Z.ltb_spec 0 (streak peptide samples)) as [Hpos|Hzero].
  - split.
    + intros (v & Hv & Hc). injection Hv as <-. exact Hc.
    + intros Hc. eauto.
  - split.
    + intros (v & Hv & _). discriminate.
    + intros [_ Hc]. exfalso.
      destruct (1 <? Z.of_nat (length samples))%Z;
        apply Z.ltb_lt in Hc; lia.
Qed.

Lemma export_all (files : list (list out_row)) :
  forall strong output,
    export false strong files output = (output ++ concat files, None).
Proof.
  induction files as [|dataset_df files IH]; intros strong output; simpl.
  - now rewrite app_nil_r.
  - now rewrite IH, app_assoc.
Qed.

Lemma filter_all {A : Type} (f : A -> bool) (l : list A) :
  (forall x, In x l -> f x = true) -> List.filter f l = l.
Proof.
  induction l as [|x l IH]; intros H; simpl; [reflexivity|].
  rewrite (H x) by now left. f_equal. apply IH. intros; apply H. now right.
Qed.

Lemma isin_In values r : isin values r = true <-> In (PeptideCanonical r) values.
Proof.
  unfold isin. rewrite existsb_exists. split.
  - intros (v & Hv & He). apply String.eqb_eq in He. now subst.
  - intros H. exists (PeptideCanonical r). split; [exact H|apply String.eqb_refl].
Qed.

(** X18. What the export writes.  With the filter off, all rows of all
    samples, in order, and no error.  With the filter on and one sample, all
    rows of the sample: the filter removes nothing.  With the filter on and
    two or more samples, rows of the first sample only, and the run ends in
    [UnboundLocalError]: the list of strong peptides is deleted after the
    first sample. *)
Theorem export_by_number_of_samples :
  (forall samples,
      frequency_filter false samples = (concat (map (default []) samples), None))
  /\ (forall sample,
         frequency_filter true [sample] = (default [] sample, None))
  /\ (forall first second rest,
         exists written,
           frequency_filter true (first :: second :: rest)
           = (written, Some (UnboundLocalError "strong_peptides"))
           /\ sublist written (default [] first)).
Proof.
  split; [|split].
  - intros samples. unfold frequency_filter. cbv zeta. now rewrite export_all.
  - intros [norm_df|]; [|reflexivity].
    unfold frequency_filter. cbv zeta. cbn [export map default app length foldl].
    rewrite filter_all; [reflexivity|].
    intros r Hr. apply isin_In, strong_peptides_In.
    exists 1%Z. split; [|split; vm_compute; reflexivity].
    rewrite count_sample_counts by (apply list_elem_of_In, in_map, Hr).
    now rewrite lookup_empty.
  - intros first second rest. eexists. split.
    + unfold frequency_filter. cbv zeta. cbn [export map app]. reflexivity.
    + apply RemovalFacts.sublist_filter_list.
Qed.

End FrequencyLoopFacts.

(** ** Batch ids of any sample names *)

Module BatchIdFacts.
Import Py PyStr CorrectBatches Statements.Batches Statements.BatchErrors.

Lemma batch_id_of_token sample :
  batch_id_of sample
  = if batch_id_match (batch_token sample) then Ok (batch_token sample)
    else Raise (batch_error sample).
Proof.
  unfold batch_id_of, batch_error, batch_token.
  rewrite <- CorrectBatchesFacts.hd_split.
  destruct (split "-" sample) as [|t ts] eqn:E;
    [now apply PyStrFacts.split_nonempty in E|].
  simpl. case_bool_decide as Ht.
  - subst t. reflexivity.
  - now destruct (batch_id_match t).
Qed.

Lemma traverse_app_raise {A B : Type} (f : A -> result B) (g : A -> B)
  (before after : list A) (x : A) (e : exn) :
  Forall (fun a => f a = Ok (g a)) before -> f x = Raise e ->
  traverse f (before ++ x :: after) = Raise e.
Proof.
  intros Hb Hx. induction Hb as [|a before Ha _ IH]; simpl.
  - now rewrite Hx.
  - now rewrite Ha, IH.
Qed.

(** X19. [get_batch_id_from_sample_names] looks at the token before the
    first hyphen of each name only.  When every such token is alphanumeric
    and not empty, it returns the codes of the tokens by first appearance,
    whatever follows the first hyphen.  Otherwise it raises [ValueError] for
    the first name whose token fails: the format error when the token is
    empty, the batch id error when it is not alphanumeric. *)
Theorem batch_ids_read_the_first_token_only (samples : list string) :
  (Forall (fun s => batch_id_match (batch_token s) = true) samples ->
   get_batch_id_from_sample_names samples
   = Ok (factorize (map batch_token samples)))
  /\ (forall before s after,
         samples = before ++ s :: after ->
         Forall (fun s => batch_id_match (batch_token s) = true) before ->
         batch_id_match (batch_token s) = false ->
         get_batch_id_from_sample_names samples = Raise (batch_error s)).
Proof.
  split.
  - intros Hall. unfold get_batch_id_from_sample_names.
    rewrite (CorrectBatchesFacts.traverse_ok _ batch_token); [reflexivity|].
    intros s Hs. rewrite batch_id_of_token.
    rewrite List.Forall_forall in Hall. now rewrite (Hall s Hs).
  - intros before s after -> Hbefore Hs. unfold get_batch_id_from_sample_names.
    rewrite (traverse_app_raise _ batch_token _ _ _ (batch_error s));
      [reflexivity| |].
    + eapply Forall_impl; [exact Hbefore|]. intros a Ha. simpl in Ha.
      now rewrite batch_id_of_token, Ha.
    + now rewrite batch_id_of_token, Hs.
Qed.

Lemma index_of_lt x l i : index_of x l = Some i -> (i < length l)%nat.
Proof.
  intros H. apply CorrectBatchesFacts.index_of_nth in H.
  apply nth_error_Some. congruence.
Qed.

Lemma factorize_from_dense values : forall uniques i c,
  nth_error (factorize_from uniques values) i = Some c ->
  (0 <= c <= Z.of_nat (length uniques + i))%Z
  /\ ((Z.of_nat (length uniques) < c)%Z ->
      exists j, (j < i)%nat
                /\ nth_error (factorize_from uniques values) j = Some (c - 1)%Z).
Proof.
  induction values as [|x rest IH]; intros uniques i c; simpl.
  - destruct i; discriminate.
  - destruct (index_of x uniques) as [k|] eqn:E.
    + apply index_of_lt in E. destruct i as [|i]; simpl.
      * intros [= <-]. split; lia.
      * intros H. destruct (IH _ _ _ H) as [Hr Hd]. split; [lia|].
        intros Hc. destruct (Hd Hc) as (j & Hj & Hn).
        exists (S j). split; [lia|exact Hn].
    + destruct i as [|i]; simpl.
      * intros [= <-]. split; lia.
      * intros H. destruct (IH _ _ _ H) as [Hr Hd].
        rewrite length_app in Hr, Hd. simpl in Hr, Hd. split; [lia|].
        intros Hc.
        destruct (Z.eq_dec c (Z.of_nat (length uniques) + 1)%Z) as [->|Hne].
        -- exists 0%nat. split; [lia|]. simpl. f_equal. lia.
        -- destruct Hd as (j & Hj & Hn); [lia|].
           exists (S j). split; [lia|exact Hn].
Qed.

Lemma traverse_inv {A B : Type} (f : A -> result B) (l : list A) :
  forall ys, traverse f l = Ok ys -> Forall2 (fun x y => f x = Ok y) l ys.
Proof.
  induction l as [|x l IH]; intros ys; simpl.
  - intros [= <-]. constructor.
  - destruct (f x) as [y|e] eqn:E; cbn; [|discriminate].
    destruct (traverse f l) as [ys'|e]; cbn; [|discriminate].
    intros [= <-]. constructor; [exact E|now apply IH].
Qed.

Lemma batch_ids_are_codes samples batch_ids :
  get_batch_id_from_sample_names samples = Ok batch_ids ->
  batch_ids = factorize (map batch_token samples).
Proof.
  unfold get_batch_id_from_sample_names.
  destruct (traverse batch_id_of samples) as [tokens|e] eqn:E; cbn;
    [|discriminate].
  intros [= <-]. f_equal. apply traverse_inv in E.
  induction E as [|s t samples tokens Hs _ IH]; simpl; [reflexivity|].
  rewrite batch_id_of_token in Hs. rewrite IH.
  destruct (batch_id_match (batch_token s)); [|discriminate]. congruence.
Qed.

(** X20. The batch ids that [get_batch_id_from_sample_names] returns, for
    any names it accepts: one id for each sample; two samples have the same
    id exactly when they have the same token before the first hyphen; the
    ids are dense from 0, that is, no id exceeds the position of its sample
    and every id above 0 comes after a sample with the id one below. *)
Theorem batch_ids_are_dense (samples : list string) (batch_ids : list Z) :
  get_batch_id_from_sample_names samples = Ok batch_ids ->
  length batch_ids = length samples
  /\ (forall i j si sj bi bj,
         nth_error samples i = Some si -> nth_error samples j = Some sj ->
         nth_error batch_ids i = Some bi -> nth_error batch_ids j = Some bj ->
         (bi = bj <-> batch_token si = batch_token sj))
  /\ (forall i b,
         nth_error batch_ids i = Some b ->
         (0 <= b <= Z.of_nat i)%Z
         /\ ((0 < b)%Z ->
             exists j, (j < i)%nat /\ nth_error batch_ids j = Some (b - 1)%Z)).
Proof.
  intros H. apply batch_ids_are_codes in H. subst batch_ids.
  split; [|split].
  - unfold factorize.
    now rewrite CorrectBatchesFacts.length_factorize_from, length_map.
  - intros i j si sj bi bj Hi Hj Hbi Hbj.
    apply (CorrectBatchesFacts.factorize_codes_equal
             (map batch_token samples) i j); try assumption.
    + now rewrite nth_error_map, Hi.
    + now rewrite nth_error_map, Hj.
  - intros i b Hb. unfold factorize in *.
    destruct (factorize_from_dense _ _ _ _ Hb) as [Hr Hd]. simpl in Hr, Hd.
    split; [lia|exact Hd].
Qed.

(** [batch_ids_are_dense] at names that the sample id pattern rejects and
    the batch ids accept. *)
Lemma batch_ids_are_dense_witness :
  get_batch_id_from_sample_names ["B2-x_1"; "A1-"; "B2--y"; "C3"]
  = Ok [0; 1; 0; 2]%Z
  /\ length [0; 1; 0; 2]%Z = length ["B2-x_1"; "A1-"; "B2--y"; "C3"]
  /\ (forall i j si sj bi bj,
         nth_error ["B2-x_1"; "A1-"; "B2--y"; "C3"] i = Some si ->
         nth_error ["B2-x_1"; "A1-"; "B2--y"; "C3"] j = Some sj ->
         nth_error [0; 1; 0; 2]%Z i = Some bi ->
         nth_error [0; 1; 0; 2]%Z j = Some bj ->
         (bi = bj <-> batch_token si = batch_token sj))
  /\ (forall i b,
         nth_error [0; 1; 0; 2]%Z i = Some b ->
         (0 <= b <= Z.of_nat i)%Z
         /\ ((0 < b)%Z ->
             exists j, (j < i)%nat
                       /\ nth_error [0; 1; 0; 2]%Z j = Some (b - 1)%Z)).
Proof.
  assert (get_batch_id_from_sample_names ["B2-x_1"; "A1-"; "B2--y"; "C3"]
          = Ok [0; 1; 0; 2]%Z) as H by reflexivity.
  split; [exact H|].
  exact (batch_ids_are_dense _ _ H).
Defined.

End BatchIdFacts.

(** ** The median over peptidoforms *)

Module RollupFacts.
Import Stream.Frequency Stream.Rollup Statements.Rollup.

Section partition.
Context {A K : Type} `{EqDecision K} (key : A -> K).

Let part (l : list A) (k : K) : list A :=
  List.filter (fun r => bool_decide (key r = k)) l.

Lemma part_cons_other r l keys :
  ~ In (key r) keys ->
  map (part (r :: l)) keys = map (part l) keys.
Proof.
  intros Hnot. apply map_ext_in. intros k Hk. unfold part. simpl.
  case_bool_decide as E; [subst; contradiction|reflexivity].
Qed.

Lemma part_cons_here r l keys :
  NoDup keys -> In (key r) keys ->
  Permutation (concat (map (part (r :: l)) keys))
              (r :: concat (map (part l) keys)).
Proof.
  induction 1 as [|k keys Hk Hnd IH]; intros Hin; [contradiction|].
  cbn [map concat]. destruct (decide (key r = k)) as [E|E].
  - rewrite part_cons_other by (rewrite E; now rewrite <- list_elem_of_In).
    unfold part at 1. simpl. rewrite bool_decide_eq_true_2 by exact E.
    reflexivity.
  - destruct Hin as [Hin|Hin]; [congruence|].
    unfold part at 1. simpl. rewrite bool_decide_eq_false_2 by exact E.
    fold (part l k). rewrite (IH Hin). symmetry. apply Permutation_middle.
Qed.

(** The groups of a frame, joined, are the frame up to the order. *)
Lemma partition_Permutation (l : list A) (keys : list K) :
  NoDup keys -> (forall r, In r l -> In (key r) keys) ->
  Permutation (concat (map (part l) keys)) l.
Proof.
  intros Hnd. induction l as [|r l IH]; intros Hall.
  - unfold part. simpl. clear. induction keys; [reflexivity|exact IHkeys].
  - rewrite part_cons_here; [|exact Hnd|apply Hall; now left].
    constructor. apply IH. intros; apply Hall. now right.
Qed.

End partition.

Lemma groupby_spec (dataset : list out_row) :
  let keys := map fst (Pandas.groupby peptide_key_le
                         (fun r => Some (peptide_key_of r)) dataset) in
  NoDup keys
  /\ (forall r, In r dataset -> In (peptide_key_of r) keys)
  /\ (forall g, In g (Pandas.groupby peptide_key_le
                        (fun r => Some (peptide_key_of r)) dataset) ->
                snd g = List.filter (fun r => bool_decide (peptide_key_of r = fst g))
                                    dataset
                /\ exists r, In r dataset /\ peptide_key_of r = fst g).
Proof.
  unfold Pandas.groupby. cbv zeta. rewrite map_map. simpl. rewrite map_id.
  split; [|split].
  - rewrite merge_sort_Permutation. apply NoDup_remove_dups.
  - intros r Hr. rewrite <- list_elem_of_In, merge_sort_Permutation,
      elem_of_remove_dups, list_elem_of_omap.
    exists r. split; [now apply list_elem_of_In|reflexivity].
  - intros g Hg. apply in_map_iff in Hg as (k & <- & Hk). simpl. split.
    + apply filter_ext. intros r.
      destruct (decide (peptide_key_of r = k)) as [E|E].
      * rewrite !bool_decide_eq_true_2; congruence.
      * rewrite !bool_decide_eq_false_2; congruence.
    + rewrite <- list_elem_of_In, merge_sort_Permutation,
        elem_of_remove_dups, list_elem_of_omap in Hk.
      destruct Hk as (r & Hr & E). exists r.
      split; [now apply list_elem_of_In|congruence].
Qed.

Lemma filter_map_key (dataset : list out_row) (k : peptide_key) :
  List.filter (fun r : peptide_key * string => bool_decide (fst r = k))
              (map (fun r => (peptide_key_of r, ProteinName r)) dataset)
  = map (fun r => (peptide_key_of r, ProteinName r))
        (List.filter (fun r => bool_decide (peptide_key_of r = k)) dataset).
Proof.
  induction dataset as [|r dataset IH]; simpl; [reflexivity|].
  destruct (bool_decide (peptide_key_of r = k)); simpl; now rewrite IH.
Qed.

(** The result as the groups of the frame, each row with the median of its
    group. *)
Lemma average_by_groups (dataset : list out_row) :
  average_peptide_intensities dataset
  = map (averaged dataset)
        (concat (map (fun k => List.filter
                                 (fun r => bool_decide (peptide_key_of r = k)) dataset)
                     (map fst (Pandas.groupby peptide_key_le
                                 (fun r => Some (peptide_key_of r)) dataset)))).
Proof.
  destruct (groupby_spec dataset) as (_ & _ & Hg). cbv zeta in Hg.
  unfold average_peptide_intensities, Pandas.merge_left. cbv zeta.
  rewrite concat_map, !map_map. f_equal.
  apply map_ext_in. intros g Hin. destruct (Hg g Hin) as [Hrows (r0 & Hr0 & Hk0)].
  simpl. rewrite filter_map_key.
  destruct (List.filter (fun r => bool_decide (peptide_key_of r = fst g)) dataset)
    as [|r rows] eqn:E.
  - exfalso.
    assert (In r0 (List.filter (fun r => bool_decide (peptide_key_of r = fst g))
                               dataset)) as Hin0
      by (apply filter_In; split; [exact Hr0|now apply bool_decide_eq_true_2]).
    now rewrite E in Hin0.
  - transitivity (map (fun r1 => (fst g, group_median (snd g), Some (ProteinName r1)))
                      (r :: rows)).
    { cbn [map fst snd]. now rewrite map_map. }
    apply map_ext_in. intros r' Hr'. rewrite <- E in Hr'.
    apply filter_In in Hr' as [_ Hk]. apply bool_decide_eq_true_1 in Hk.
    unfold averaged, group_of. rewrite Hk, Hrows, E. reflexivity.
Qed.

(** X21. [average_peptide_intensities] returns the rows of the frame up to
    their order, each with the median of the intensities present in its
    group (the rows with the same peptide, sample and condition) in place of
    its own intensity: no row is merged away and none is left without a
    protein name.  Rows of one group so get the same intensity. *)
Theorem average_keeps_every_row (dataset : list out_row) :
  Permutation (average_peptide_intensities dataset)
              (map (averaged dataset) dataset)
  /\ length (average_peptide_intensities dataset) = length dataset
  /\ (forall key m protein,
         In (key, m, protein) (average_peptide_intensities dataset) ->
         exists r, In r dataset /\ key = peptide_key_of r
                   /\ m = group_median (group_of dataset r)
                   /\ protein = Some (ProteinName r))
  /\ (forall k m1 m2 p1 p2,
         In (k, m1, p1) (average_peptide_intensities dataset) ->
         In (k, m2, p2) (average_peptide_intensities dataset) ->
         m1 = m2).
Proof.
  assert (Permutation (average_peptide_intensities dataset)
                      (map (averaged dataset) dataset)) as Hperm.
  { rewrite average_by_groups. apply Permutation_map.
    destruct (groupby_spec dataset) as (Hnd & Hall & _). cbv zeta in Hnd, Hall.
    apply (partition_Permutation peptide_key_of); assumption. }
  assert (forall key m protein,
             In (key, m, protein) (average_peptide_intensities dataset) ->
             exists r, In r dataset /\ key = peptide_key_of r
                       /\ m = group_median (group_of dataset r)
                       /\ protein = Some (ProteinName r)) as Hrow.
  { intros key m protein Hin.
    apply (Permutation_in _ Hperm), in_map_iff in Hin as (r & Hr & Hin).
    exists r. unfold averaged in Hr. injection Hr as <- <- <-. now repeat split. }
  split; [exact Hperm|]. split; [|split; [exact Hrow|]].
  - rewrite (Permutation_length Hperm). apply length_map.
  - intros k m1 m2 p1 p2 H1 H2.
    destruct (Hrow _ _ _ H1) as (r1 & _ & Hk1 & -> & _).
    destruct (Hrow _ _ _ H2) as (r2 & _ & Hk2 & -> & _).
    unfold group_of. now rewrite <- Hk1, <- Hk2.
Qed.

End RollupFacts.

(** ** The common processing of feature rows *)

Module DataCommonFacts.
Import Ibaq Ibaq.DataCommon Statements.DataCommon.

Lemma filter_filter_and {A : Type} (f g : A -> bool) (l : list A) :
  List.filter g (List.filter f l) = List.filter (fun x => f x && g x) l.
Proof.
  induction l as [|x l IH]; simpl; [reflexivity|].
  destruct (f x); simpl; [destruct (g x)|]; now rewrite IH.
Qed.

Lemma filter_map_comm {A : Type} (f : A -> bool) (h : A -> A) (l : list A) :
  (forall x, f (h x) = f x) ->
  List.filter f (map h l) = map h (List.filter f l).
Proof.
  intros Hf. induction l as [|x l IH]; simpl; [reflexivity|].
  rewrite Hf. destruct (f x); simpl; now rewrite IH.
Qed.

(** The function as one filter and one rewriting of the rows kept. *)
Lemma data_common_process_rows (data_df : frame) (min_aa : Z) :
  data_common_process data_df min_aa
  = mk_frame true
      (map (processed (has_fraction data_df))
           (List.filter (passes min_aa) (rows data_df))).
Proof.
  unfold data_common_process. cbv zeta.
  rewrite !filter_filter_and.
  rewrite (filter_ext _ (passes min_aa))
    by (intros x; unfold passes; now rewrite andb_assoc).
  destruct data_df as [[|] data]; simpl; rewrite !map_map; reflexivity.
Qed.

Lemma parse_uniprot_accession_twice uniprot_id :
  parse_uniprot_accession (parse_uniprot_accession uniprot_id)
  = parse_uniprot_accession uniprot_id.
Proof. apply (AccessionAgainFacts.parse_twice 1). lia. Qed.

(** X22. [data_common_process] keeps, in their order, exactly the rows with
    an intensity above 0 (a missing intensity fails the test), a condition
    other than [Empty] and a peptide of at least [min_aa] characters; in each
    row kept the protein name is parsed and the study is the part of the
    sample id before its first hyphen, and the fraction is 1 when the frame
    had no fraction column.  Applying it a second time changes nothing. *)
Theorem data_common_process_filters (data_df : frame) (min_aa : Z) :
  rows (data_common_process data_df min_aa)
  = map (processed (has_fraction data_df))
        (List.filter (passes min_aa) (rows data_df))
  /\ has_fraction (data_common_process data_df min_aa) = true
  /\ Forall (fun x => PrimFloat.ltb 0%float (Intensity x) = true
                      /\ PrimFloat.is_nan (Intensity x) = false
                      /\ Condition x <> "Empty"
                      /\ (min_aa <= Z.of_nat (String.length (PeptideCanonical x)))%Z
                      /\ parse_uniprot_accession (ProteinName x) = ProteinName x
                      /\ StudyID x = get_study_accession (SampleID x)
                      /\ (has_fraction data_df = false -> Fraction x = 1%Z))
            (rows (data_common_process data_df min_aa))
  /\ data_common_process (data_common_process data_df min_aa) min_aa
     = data_common_process data_df min_aa.
Proof.
  rewrite !data_common_process_rows. cbn [rows has_fraction].
  split; [reflexivity|]. split; [reflexivity|]. split.
  - apply List.Forall_forall. intros y Hy.
    apply in_map_iff in Hy as (x & <- & Hx).
    apply filter_In in Hx as [_ Hp]. unfold passes in Hp.
    apply andb_true_iff in Hp as [Hp Hlen].
    apply andb_true_iff in Hp as [Hint Hcond].
    unfold processed. cbn [Intensity Condition PeptideCanonical ProteinName
                             StudyID SampleID Fraction].
    split; [exact Hint|]. split.
    { unfold PrimFloat.is_nan. rewrite FloatAxioms.eqb_spec.
      rewrite FloatAxioms.ltb_spec in Hint.
      destruct (Prim2SF (Intensity x)) as [s|s| |s m e]; try discriminate.
      - now destruct s.
      - unfold SFeqb, SFcompare. rewrite Z.compare_refl, Pos.compare_refl.
        now destruct s. }
    split.
    { intros E. rewrite E in Hcond. discriminate. }
    split; [now apply Z.leb_le in Hlen|].
    split; [apply parse_uniprot_accession_twice|].
    split; [reflexivity|]. now intros ->.
  - f_equal. rewrite filter_map_comm by reflexivity.
    rewrite RemovalFacts.filter_filter_same, map_map.
    apply map_ext. intros x. unfold processed. cbn. f_equal.
    apply parse_uniprot_accession_twice.
Qed.

End DataCommonFacts.

(** ** The loop over the chunks *)

Module ChunkFacts.
Import Py Stream Stream.Chunks.

Lemma write_samples_lookup {A : Type} (sample_id : A -> option string)
  (result_df : list A) (sample : string) (sample_names : list string) :
  forall files,
    NoDup sample_names ->
    write_samples sample_id sample_names files result_df !! sample
    = if bool_decide (sample ∈ sample_names)
      then Some (default [] (files !! sample)
                 ++ List.filter (fun r => bool_decide (sample_id r = Some sample))
                                result_df)
      else files !! sample.
Proof.
  unfold write_samples.
  induction sample_names as [|n names IH]; intros files Hnd.
  - cbn [foldl]. case_bool_decide as H; [now apply elem_of_nil in H|reflexivity].
  - inversion Hnd as [|? ? Hn Hnd']; subst. cbn [foldl].
    rewrite IH by exact Hnd'.
    destruct (decide (sample = n)) as [->|Hne].
    + rewrite (bool_decide_eq_false_2 _ Hn), bool_decide_eq_true_2 by left.
      now rewrite lookup_insert_eq.
    + rewrite lookup_insert_ne by congruence.
      destruct (decide (sample ∈ names)) as [Hin|Hout].
      * rewrite !bool_decide_eq_true_2; [reflexivity|now right|exact Hin].
      * rewrite !bool_decide_eq_false_2; [reflexivity| |exact Hout].
        rewrite elem_of_cons. tauto.
Qed.

(** The file of one sample after the chunks. *)
Lemma write_chunks_lookup {A : Type}
  (sample_id : A -> option string) (sample_names : list string)
  (files : gmap string (list A)) (chunks : list (list A)) (sample : string) :
  NoDup sample_names ->
  write_chunks sample_id sample_names files chunks !! sample
  = if bool_decide (sample ∈ sample_names)
    then match chunks with
         | [] => files !! sample
         | _ :: _ =>
             Some (default [] (files !! sample)
                   ++ List.filter (fun r => bool_decide (sample_id r = Some sample))
                                  (concat chunks))
         end
    else files !! sample.
Proof.
  intros Hnd. unfold write_chunks. revert files.
  induction chunks as [|chunk chunks IH]; intros files.
  - simpl. now destruct (bool_decide _).
  - cbn [foldl]. rewrite IH.
    rewrite (write_samples_lookup sample_id chunk sample sample_names files Hnd).
    case_bool_decide; [|reflexivity].
    destruct chunks as [|chunk' chunks].
    + simpl. now rewrite app_nil_r.
    + unfold default at 1. cbn [from_option id].
      change (concat (chunk :: chunk' :: chunks))
        with (chunk ++ concat (chunk' :: chunks)).
      now rewrite (List.filter_app _ chunk), app_assoc.
Qed.

(** X23. The files of [ibaqpy_temp/] after the chunks have been read, for
    sample names without repetition.  The file of a listed sample holds what
    it held before, when it existed, followed by the rows of that sample from
    all chunks in their order: a file left by an earlier run is appended to,
    not replaced.  The file exists even when no row has the sample.  No
    other file is touched, so the rows of a sample that is not listed, or
    with no sample, are written nowhere. *)
Theorem sample_files_collect_rows_in_order {A : Type}
  (sample_id : A -> option string) (sample_names : list string)
  (files : gmap string (list A)) (chunks : list (list A)) (sample : string) :
  NoDup sample_names ->
  write_chunks sample_id sample_names files chunks !! sample
  = if bool_decide (sample ∈ sample_names)
    then match chunks with
         | [] => files !! sample
         | _ :: _ =>
             Some (default [] (files !! sample)
                   ++ List.filter (fun r => bool_decide (sample_id r = Some sample))
                                  (concat chunks))
         end
    else files !! sample.
Proof.
  intros Hnd. rewrite write_chunks_lookup by exact Hnd.
  case_bool_decide; reflexivity.
Qed.

(** [sample_files_collect_rows_in_order] at two chunks and a file left by an
    earlier run. *)
Lemma sample_files_collect_rows_in_order_witness :
  NoDup ["S1"; "S2"]
  /\ write_chunks (fun r : string * Z => Some (fst r)) ["S1"; "S2"]
       {["S1" := [("S1", 0%Z)]]}
       [[("S1", 1%Z); ("S3", 2%Z)]; [("S2", 3%Z); ("S1", 4%Z)]] !! "S1"
     = (if bool_decide ("S1" ∈ ["S1"; "S2"])
        then Some (default [] (({["S1" := [("S1", 0%Z)]]} : gmap string (list (string * Z)))
                               !! "S1")
                   ++ List.filter
                        (fun r : string * Z => bool_decide (Some (fst r) = Some "S1"))
                        (concat [[("S1", 1%Z); ("S3", 2%Z)]; [("S2", 3%Z); ("S1", 4%Z)]]))
        else ({["S1" := [("S1", 0%Z)]]} : gmap string (list (string * Z))) !! "S1").
Proof.
  assert (NoDup ["S1"; "S2"]) as Hnd.
  { apply NoDup_cons. split; [|apply NoDup_singleton].
    intros H. apply list_elem_of_singleton in H. discriminate. }
  split; [exact Hnd|].
  exact (sample_files_collect_rows_in_order
           (fun r : string * Z => Some (fst r)) ["S1"; "S2"]
           {["S1" := [("S1", 0%Z)]]}
           [[("S1", 1%Z); ("S3", 2%Z)]; [("S2", 3%Z); ("S1", 4%Z)]] "S1" Hnd).
Defined.

Lemma inner_canonical_dict_lookup (f : string -> string) (sequences : list string)
  (x : string) :
  x ∈ sequences -> inner_canonical_dict f sequences !! x = Some (f x).
Proof.
  intros Hx. unfold inner_canonical_dict, Support.dict_zip. cbv zeta.
  pose proof (UniqueFacts.NoDup_unique sequences) as Hnd.
  apply (UniqueFacts.elem_of_unique sequences) in Hx.
  apply elem_of_list_to_map_1.
  - rewrite fmap_reverse, reverse_Permutation.
    rewrite fst_zip; [exact Hnd|]. now rewrite length_map.
  - rewrite elem_of_reverse.
    apply list_elem_of_lookup in Hx as [i Hi].
    apply list_elem_of_lookup. exists i.
    apply lookup_zip_with_Some. exists x, (f x).
    split; [reflexivity|]. split; [exact Hi|].
    change (map f (Pandas.unique sequences)) with (f <$> Pandas.unique sequences).
    now rewrite list_lookup_fmap, Hi.
Qed.

(** X24. The cache of canonical peptides is transparent: the new column
    holds the canonical peptide of the sequence of each row, and the look-up
    never raises [KeyError], whatever function computes the canonical
    peptide and however often a sequence is repeated. *)
Theorem canonical_column_is_pointwise (get_canonical_peptide : string -> string)
  (sequences : list string) :
  add_canonical get_canonical_peptide sequences
  = Ok (map get_canonical_peptide sequences)
  /\ forall x,
       inner_canonical_dict get_canonical_peptide sequences !! x
       = if bool_decide (x ∈ sequences) then Some (get_canonical_peptide x) else None.
Proof.
  split.
  - unfold add_canonical. cbv zeta.
    apply CorrectBatchesFacts.traverse_ok. intros x Hx.
    now rewrite inner_canonical_dict_lookup by now apply list_elem_of_In.
  - intros x. case_bool_decide as Hx.
    + now apply inner_canonical_dict_lookup.
    + unfold inner_canonical_dict, Support.dict_zip. cbv zeta.
      apply not_elem_of_list_to_map_1.
      rewrite fmap_reverse, elem_of_reverse, fst_zip by now rewrite length_map.
      now rewrite UniqueFacts.elem_of_unique.
Qed.

(** X26. With the sample names that [extract_label_from_sdrf] returns and an
    empty [ibaqpy_temp/], every source name of the design table gets a file,
    which holds exactly the rows of the chunks with that sample id, in their
    order; there is no file for any other name. *)
Theorem design_samples_get_their_rows {A : Type}
  (sample_id : A -> option string) (sdrf_df : list sdrf_row)
  (label : string) (sample_names : list string) (choice : option Commons.channel_table)
  (chunk : list A) (chunks : list (list A)) (sample : string) :
  extract_label_from_sdrf sdrf_df = Ok (label, sample_names, choice) ->
  write_chunks sample_id sample_names ∅ (chunk :: chunks) !! sample
  = if bool_decide (sample ∈ map source_name sdrf_df)
    then Some (List.filter (fun r => bool_decide (sample_id r = Some sample))
                           (concat (chunk :: chunks)))
    else None.
Proof.
  intros Hsdrf.
  assert (sample_names = Pandas.unique (map source_name sdrf_df)) as ->.
  { unfold extract_label_from_sdrf in Hsdrf. cbv zeta in Hsdrf.
    repeat match type of Hsdrf with
           | (if ?c then _ else _) = _ => destruct c
           end; congruence. }
  rewrite write_chunks_lookup by apply UniqueFacts.NoDup_unique.
  rewrite lookup_empty.
  destruct (decide (sample ∈ map source_name sdrf_df)) as [Hin|Hout].
  - rewrite !bool_decide_eq_true_2;
      [reflexivity|exact Hin|now apply UniqueFacts.elem_of_unique].
  - rewrite !bool_decide_eq_false_2;
      [reflexivity|exact Hout|now rewrite UniqueFacts.elem_of_unique].
Qed.

(** [design_samples_get_their_rows] at a design table of two samples. *)
Lemma design_samples_get_their_rows_witness :
  extract_label_from_sdrf
    [mk_sdrf_row "S1" "a.raw" "label free sample";
     mk_sdrf_row "S2" "b.raw" "label free sample";
     mk_sdrf_row "S1" "c.raw" "label free sample"]
  = Ok ("LFQ", ["S1"; "S2"], None)
  /\ write_chunks (fun r : string * Z => Some (fst r)) ["S1"; "S2"] ∅
       ([("S2", 1%Z); ("S3", 2%Z)] :: [[("S1", 3%Z); ("S2", 4%Z)]]) !! "S2"
     = (if bool_decide
             ("S2" ∈ map source_name
                      [mk_sdrf_row "S1" "a.raw" "label free sample";
                       mk_sdrf_row "S2" "b.raw" "label free sample";
                       mk_sdrf_row "S1" "c.raw" "label free sample"])
        then Some (List.filter
                     (fun r : string * Z => bool_decide (Some (fst r) = Some "S2"))
                     (concat ([("S2", 1%Z); ("S3", 2%Z)]
                              :: [[("S1", 3%Z); ("S2", 4%Z)]])))
        else None).
Proof.
  assert (extract_label_from_sdrf
            [mk_sdrf_row "S1" "a.raw" "label free sample";
             mk_sdrf_row "S2" "b.raw" "label free sample";
             mk_sdrf_row "S1" "c.raw" "label free sample"]
          = Ok ("LFQ", ["S1"; "S2"], None)) as H by reflexivity.
  split; [exact H|].
  exact (design_samples_get_their_rows
           (fun r : string * Z => Some (fst r)) _ _ _ _
           [("S2", 1%Z); ("S3", 2%Z)] [[("S1", 3%Z); ("S2", 4%Z)]] "S2" H).
Defined.

End ChunkFacts.

(** ** Peptidoform selection, applied again *)

Module SelectionAgainFacts.
Import Py Pandas Ibaq Statements.Peptidoform Statements.Selection.

(** *** The order of the keys *)

Lemma good_string : good String.compare.
Proof.
  split.
  - exact OrderedTypeEx.String_as_OT.cmp_eq.
  - exact OrderedTypeEx.String_as_OT.cmp_antisym.
  - intros a b d H1 H2.
    apply OrderedTypeEx.String_as_OT.cmp_lt in H1, H2. apply OrderedTypeEx.String_as_OT.cmp_lt.
    eapply OrderedTypeEx.String_as_OT.lt_trans; eassumption.
Qed.

Lemma good_Z : good Z.compare.
Proof.
  split.
  - exact Z.compare_eq_iff.
  - intros a b. apply Z.compare_antisym.
  - intros a b d. rewrite !Z.compare_lt_iff. lia.
Qed.

Lemma good_lex {A B : Type} (cA : A -> A -> comparison) (cB : B -> B -> comparison) :
  good cA -> good cB ->
  good (fun p q : A * B => lex (cA (fst p) (fst q)) (cB (snd p) (snd q))).
Proof.
  intros [eA aA tA] [eB aB tB]. split.
  - intros [a b] [a' b']. simpl. unfold lex.
    destruct (cA a a') eqn:E.
    + apply eA in E. subst. rewrite eB. split; congruence.
    + split; [discriminate|]. intros [= Ha _]. apply eA in Ha. congruence.
    + split; [discriminate|]. intros [= Ha _]. apply eA in Ha. congruence.
  - intros [a b] [a' b']. simpl. unfold lex.
    rewrite (aA a a'), (aB b b'). now destruct (cA a' a).
  - intros [a b] [a' b'] [a'' b'']. simpl. unfold lex.
    destruct (cA a a') eqn:E1; try discriminate;
      destruct (cA a' a'') eqn:E2; try discriminate.
    + apply eA in E1, E2. subst.
      assert (cA a'' a'' = Eq) as -> by now apply eA. apply tB.
    + apply eA in E1. subst. now rewrite E2.
    + apply eA in E2. subst. now rewrite E1.
    + now rewrite (tA _ _ _ E1 E2).
Qed.

Lemma good_pull {A B : Type} (c : B -> B -> comparison) (f : A -> B) :
  (forall a b, f a = f b -> a = b) -> good c -> good (fun a b => c (f a) (f b)).
Proof.
  intros Hinj [e a t]. split.
  - intros x y. rewrite e. split; [apply Hinj|congruence].
  - intros x y. apply a.
  - intros x y z. apply t.
Qed.

Lemma good_key_compare : good key_compare.
Proof.
  pose proof (good_pull _
    (fun k : peptidoform_key =>
       let '(s, c, sa, co, b) := k in (s, (c, (sa, (co, b)))))
    ltac:(intros [[[[s c] sa] co] b] [[[[s' c'] sa'] co'] b']; simpl; congruence)
    (good_lex _ _ good_string
       (good_lex _ _ good_Z
          (good_lex _ _ good_string (good_lex _ _ good_string good_Z))))) as H.
  destruct H as [e a t]. split.
  - intros [[[[s c] sa] co] b] [[[[s' c'] sa'] co'] b'].
    exact (e (s, c, sa, co, b) (s', c', sa', co', b')).
  - intros [[[[s c] sa] co] b] [[[[s' c'] sa'] co'] b'].
    exact (a (s, c, sa, co, b) (s', c', sa', co', b')).
  - intros [[[[s c] sa] co] b] [[[[s' c'] sa'] co'] b'] [[[[s2 c2] sa2] co2] b2].
    exact (t (s, c, sa, co, b) (s', c', sa', co', b') (s2, c2, sa2, co2, b2)).
Qed.

#[local] Instance key_le_total : Total key_le.
Proof.
  intros a b. unfold key_le. rewrite (good_anti _ good_key_compare b a).
  destruct (key_compare a b); simpl; [left|left|right]; discriminate.
Qed.

#[local] Instance key_le_trans : Transitive key_le.
Proof.
  intros a b d. unfold key_le. intros H1 H2.
  destruct (key_compare a b) eqn:E1; [| |congruence].
  - apply (good_eq _ good_key_compare) in E1. now subst.
  - destruct (key_compare b d) eqn:E2; [| |congruence].
    + apply (good_eq _ good_key_compare) in E2. subst. now rewrite E1.
    + now rewrite (good_trans _ good_key_compare _ _ _ E1 E2).
Qed.

#[local] Instance key_le_antisymm : AntiSymm (=) key_le.
Proof.
  intros a b. unfold key_le. rewrite (good_anti _ good_key_compare b a).
  destruct (key_compare a b) eqn:E; simpl; intros H1 H2; try congruence.
  now apply (good_eq _ good_key_compare).
Qed.

(** Sorting a sorted list of distinct keys changes nothing. *)
Lemma merge_sort_sorted (keys : list peptidoform_key) :
  Sorted key_le keys -> NoDup keys ->
  merge_sort key_le (remove_dups keys) = keys.
Proof.
  intros Hs Hnd.
  assert (remove_dups keys = keys) as ->.
  { clear Hs. induction Hnd as [|k keys Hk _ IH]; simpl; [reflexivity|].
    destruct (decide_rel elem_of k keys); [contradiction|]. now rewrite IH. }
  apply (Sorted_unique key_le); [apply Sorted_merge_sort; apply _|exact Hs|].
  apply merge_sort_Permutation.
Qed.

(** *** The frame of the selected rows *)

Lemma omap_imap_snd {A B : Type} (g : A -> option B) (l : list A) :
  forall f : nat -> nat,
    omap (fun ir : nat * A => g (snd ir)) (imap (fun i r => (f i, r)) l) = omap g l.
Proof.
  induction l as [|x l IH]; intros f; [reflexivity|].
  cbn [imap].
  change (imap ((fun (i : nat) (r : A) => (f i, r)) ∘ S) l)
    with (imap (fun (i : nat) (r : A) => ((f ∘ S) i, r)) l).
  specialize (IH (f ∘ S)). unfold omap in *. cbn [list_omap]. simpl snd.
  now rewrite IH.
Qed.

Lemma omap_with_index {A B : Type} (g : A -> option B) (l : list A) :
  omap (fun ir : nat * A => g (snd ir)) (with_index l) = omap g l.
Proof. apply (omap_imap_snd g l (fun i => i)). Qed.

Lemma present_all (rows : list row) :
  (forall r, In r rows -> notna (NormIntensity r) = true) ->
  present rows = with_index rows.
Proof.
  intros Hall. unfold present. apply FrequencyLoopFacts.filter_all.
  intros [i r] Hin. apply PeptidoformFacts.In_with_index in Hin.
  apply nth_error_In in Hin. now apply Hall.
Qed.

Lemma group_keys_of_selected (rows : list row) (keys : list peptidoform_key) :
  map key_of rows = map Some keys ->
  Sorted key_le keys -> NoDup keys ->
  (forall r, In r rows -> notna (NormIntensity r) = true) ->
  map fst (groups rows) = keys.
Proof.
  intros Hk Hs Hnd Hall.
  rewrite PeptidoformFacts.group_keys_sorted, (present_all rows Hall),
    omap_with_index.
  assert (omap key_of rows = keys) as ->; [|now apply merge_sort_sorted].
  clear Hs Hnd Hall. revert keys Hk.
  induction rows as [|r rows IH]; intros [|k keys] Hk; simpl in *;
    try discriminate; [reflexivity|].
  injection Hk as Hr Hk. change (omap key_of (r :: rows))
    with (match key_of r with Some y => y :: omap key_of rows | None => omap key_of rows end).
  rewrite Hr. f_equal. now apply IH.
Qed.

(** Two lists with the same distinct keys, the rows of one among the rows of
    the other, are the same list. *)
Lemma same_keys_same_rows (keys : list peptidoform_key) :
  NoDup keys ->
  forall rows out,
    Forall2 (fun k r => key_of r = Some k) keys rows ->
    Forall2 (fun k r => key_of r = Some k /\ In r rows) keys out ->
    out = rows.
Proof.
  intros Hnd rows out Hrows Hout.
  assert (forall r k, In r rows -> key_of r = Some k ->
                      forall j, keys !! j = Some k -> rows !! j = Some r) as Hpos.
  { intros r k Hr Hk j Hj.
    apply list_elem_of_In, list_elem_of_lookup in Hr as [j' Hj'].
    destruct (Forall2_lookup_r _ _ _ _ _ Hrows Hj') as (k' & Hk' & Hkr).
    assert (k' = k) by congruence. subst k'.
    now rewrite (NoDup_lookup _ _ _ _ Hnd Hj Hk'). }
  apply list_eq. intros j.
  destruct (keys !! j) as [k|] eqn:Hj.
  - destruct (Forall2_lookup_l _ _ _ _ _ Hout Hj) as (r & Hr & Hkr & Hin).
    rewrite Hr. symmetry. now apply (Hpos r k).
  - pose proof (Forall2_length _ _ _ Hrows) as L1.
    pose proof (Forall2_length _ _ _ Hout) as L2.
    apply lookup_ge_None in Hj.
    rewrite (proj2 (lookup_ge_None out j)), (proj2 (lookup_ge_None rows j));
      [reflexivity|lia|lia].
Qed.

Lemma selected_rows (dataset rows : list row) :
  select_best NormIntensity dataset = Ok rows ->
  Forall2 (fun g r => best_of dataset (fst g) r) (groups dataset) rows.
Proof.
  intros H. destruct (PeptidoformFacts.select_best_groups dataset)
    as (rows' & Hrows' & HF).
  congruence.
Qed.

Lemma Forall2_map_l {A B C : Type} (P : B -> C -> Prop) (f : A -> B) la lc :
  Forall2 (fun a c => P (f a) c) la lc -> Forall2 P (map f la) lc.
Proof. induction 1; simpl; now constructor. Qed.

(** X25. Best-peptidoform selection in the default mode returns its rows in
    the order of their keys, and applying it to its own result returns the
    result unchanged, in the streaming program and in
    [ibaq/peptide_normalization.py]. *)
Theorem selection_is_sorted_and_idempotent (dataset rows : list row) :
  Ibaq.get_peptidoform_normalize_intensities dataset true = Ok rows ->
  sorted_by_key rows
  /\ Ibaq.get_peptidoform_normalize_intensities rows true = Ok rows
  /\ Stream.get_peptidoform_normalize_intensities dataset true = Ok rows
  /\ Stream.get_peptidoform_normalize_intensities rows true = Ok rows.
Proof.
  unfold Ibaq.get_peptidoform_normalize_intensities,
    Stream.get_peptidoform_normalize_intensities.
  intros Hsel. pose proof (selected_rows _ _ Hsel) as HF.
  set (keys := map fst (groups dataset)).
  assert (Forall2 (fun k r => key_of r = Some k) keys rows) as Hkeys.
  { apply Forall2_map_l. eapply Forall2_impl; [exact HF|].
    intros g r (Hk & _). exact Hk. }
  assert (map key_of rows = map Some keys) as Hmap.
  { clear -Hkeys. induction Hkeys as [|k r ks rs Hk _ IH]; simpl; [reflexivity|].
    now rewrite Hk, IH. }
  assert (Sorted key_le keys) as Hsorted.
  { unfold keys. rewrite PeptidoformFacts.group_keys_sorted.
    apply Sorted_merge_sort. apply _. }
  assert (NoDup keys) as Hnd by apply PeptidoformFacts.NoDup_group_keys.
  assert (forall r, In r rows -> notna (NormIntensity r) = true) as Hall.
  { intros r Hr.
    destruct (PeptidoformFacts.Forall2_In_r _ _ _ _ HF Hr) as (g & _ & _ & _ & Hna & _).
    exact Hna. }
  assert (select_best NormIntensity rows = Ok rows) as Hagain.
  { destruct (PeptidoformFacts.select_best_groups rows) as (out & Hout & HF2).
    rewrite Hout. f_equal.
    apply (same_keys_same_rows keys Hnd); [exact Hkeys|].
    rewrite <- (group_keys_of_selected rows keys Hmap Hsorted Hnd Hall).
    apply Forall2_map_l. eapply Forall2_impl; [exact HF2|].
    intros g r (Hk & Hin & _). now split. }
  split; [exists keys; now split|]. now repeat split.
Qed.

(** [selection_is_sorted_and_idempotent] at a frame with two peptidoforms. *)
Lemma selection_is_sorted_and_idempotent_witness :
  Ibaq.get_peptidoform_normalize_intensities
    [peptidoform "PEPTIDEK" 2 3%float 1%float;
     peptidoform "ACDEK" 2 5%float 1%float;
     peptidoform "PEPTIDEK" 2 7%float 1%float] true
  = Ok [peptidoform "ACDEK" 2 5%float 1%float;
        peptidoform "PEPTIDEK" 2 7%float 1%float]
  /\ sorted_by_key [peptidoform "ACDEK" 2 5%float 1%float;
                    peptidoform "PEPTIDEK" 2 7%float 1%float]
  /\ Ibaq.get_peptidoform_normalize_intensities
       [peptidoform "ACDEK" 2 5%float 1%float;
        peptidoform "PEPTIDEK" 2 7%float 1%float] true
     = Ok [peptidoform "ACDEK" 2 5%float 1%float;
           peptidoform "PEPTIDEK" 2 7%float 1%float]
  /\ Stream.get_peptidoform_normalize_intensities
       [peptidoform "PEPTIDEK" 2 3%float 1%float;
        peptidoform "ACDEK" 2 5%float 1%float;
        peptidoform "PEPTIDEK" 2 7%float 1%float] true
     = Ok [peptidoform "ACDEK" 2 5%float 1%float;
           peptidoform "PEPTIDEK" 2 7%float 1%float]
  /\ Stream.get_peptidoform_normalize_intensities
       [peptidoform "ACDEK" 2 5%float 1%float;
        peptidoform "PEPTIDEK" 2 7%float 1%float] true
     = Ok [peptidoform "ACDEK" 2 5%float 1%float;
           peptidoform "PEPTIDEK" 2 7%float 1%float].
Proof.
  assert (Ibaq.get_peptidoform_normalize_intensities
            [peptidoform "PEPTIDEK" 2 3%float 1%float;
             peptidoform "ACDEK" 2 5%float 1%float;
             peptidoform "PEPTIDEK" 2 7%float 1%float] true
          = Ok [peptidoform "ACDEK" 2 5%float 1%float;
                peptidoform "PEPTIDEK" 2 7%float 1%float]) as H
    by (vm_compute; reflexivity).
  split; [exact H|].
  exact (selection_is_sorted_and_idempotent _ _ H).
Defined.

End SelectionAgainFacts.

(** ** Removal by a file of protein ids *)

Module RemovalByIdFacts.
Import PyStr Ibaq Statements.IdLines.



End RemovalByIdFacts.

(** ** Label resolution and the order of the labels *)

Module LabelOrderFacts.
Import Py Commons PyStr Ibaq.

Lemma existsb_Permutation {A : Type} (f : A -> bool) (l l' : list A) :
  Permutation l l' -> existsb f l = existsb f l'.
Proof.
  induction 1 as [|x l l' _ IH|x y l|l l' l'' _ IH1 _ IH2]; simpl.
  - reflexivity.
  - now rewrite IH.
  - now rewrite !orb_assoc, (orb_comm (f y)).
  - now rewrite IH1.
Qed.

Lemma contains_join_Permutation word (l l' : list string) :
  word <> EmptyString -> count_char "," word = 0%nat ->
  Permutation l l' ->
  contains word (join "," l) = contains word (join "," l').
Proof.
  intros Hne Hc Hp.
  rewrite !(LabelMemberFacts.contains_join "," word _ Hne Hc).
  now apply existsb_Permutation.
Qed.

Lemma tmt_choice_Permutation (l l' : list string) :
  Permutation l l' -> tmt_choice l = tmt_choice l'.
Proof.
  intros Hp. unfold tmt_choice, mem.
  rewrite (Permutation_length Hp).
  now rewrite !(existsb_Permutation _ l l' Hp).
Qed.

Lemma itraq_choice_Permutation (l l' : list string) :
  Permutation l l' -> itraq_choice l = itraq_choice l'.
Proof. intros Hp. unfold itraq_choice. now rewrite (Permutation_length Hp). Qed.

Lemma get_label_Permutation (l l' : list string) :
  Permutation l l' -> get_label l = get_label l'.
Proof.
  intros Hp. unfold get_label.
  rewrite (Permutation_length Hp), (tmt_choice_Permutation _ _ Hp),
    (itraq_choice_Permutation _ _ Hp).
  rewrite (contains_join_Permutation "TMT" l l'),
    (contains_join_Permutation "tmt" l l'),
    (contains_join_Permutation "ITRAQ" l l'),
    (contains_join_Permutation "itraq" l l');
    (reflexivity || discriminate || assumption).
Qed.

Lemma Feature_get_label_Permutation (l l' : list string) :
  Permutation l l' -> Feature_get_label l = Feature_get_label l'.
Proof.
  intros Hp. unfold Feature_get_label.
  rewrite (Permutation_length Hp), (tmt_choice_Permutation _ _ Hp),
    (itraq_choice_Permutation _ _ Hp).
  rewrite (contains_join_Permutation "TMT" l l'),
    (contains_join_Permutation "tmt" l l'),
    (contains_join_Permutation "ITRAQ" l l'),
    (contains_join_Permutation "itraq" l l'),
    (contains_join_Permutation "LABEL FREE" l l'),
    (contains_join_Permutation "label free" l l');
    (reflexivity || discriminate || assumption).
Qed.

Lemma unique_Permutation (l l' : list string) :
  Permutation l l' -> Permutation (Pandas.unique l) (Pandas.unique l').
Proof.
  intros Hp. apply NoDup_Permutation; try apply UniqueFacts.NoDup_unique.
  intros x. rewrite !UniqueFacts.elem_of_unique. now rewrite Hp.
Qed.

Lemma extract_label_is_get_label (sdrf_df : list Stream.sdrf_row) :
  Stream.extract_label_from_sdrf sdrf_df
  = match get_label (Pandas.unique (map Stream.comment_label sdrf_df)) with
    | Ok (label, choice) =>
        Ok (label, Pandas.unique (map Stream.source_name sdrf_df), choice)
    | Raise _ => Raise (SystemExit "1")
    end.
Proof.
  unfold Stream.extract_label_from_sdrf, get_label. cbv zeta.
  repeat match goal with
         | |- context [if ?c then _ else _] => destruct c
         end; reflexivity.
Qed.

(** X28. Label resolution does not depend on the order of the labels, which
    reach it as a Python set: [get_label] and [Feature.get_label] return the
    same outcome for two orders of the same labels.  For
    [extract_label_from_sdrf], reordering the rows of the design table
    changes neither the label type nor the channel table, and the sample
    names are the same up to their order. *)
Theorem label_resolution_ignores_order (labels labels' : list string)
  (sdrf_df sdrf_df' : list Stream.sdrf_row) :
  Permutation labels labels' ->
  Permutation sdrf_df sdrf_df' ->
  get_label labels = get_label labels'
  /\ Feature_get_label labels = Feature_get_label labels'
  /\ match Stream.extract_label_from_sdrf sdrf_df,
           Stream.extract_label_from_sdrf sdrf_df' with
     | Ok (label, sample_names, choice), Ok (label', sample_names', choice') =>
         label = label' /\ choice = choice'
         /\ Permutation sample_names sample_names'
     | Raise e, Raise e' => e = e'
     | _, _ => False
     end.
Proof.
  intros Hl Hs.
  split; [now apply get_label_Permutation|].
  split; [now apply Feature_get_label_Permutation|].
  rewrite !extract_label_is_get_label.
  rewrite (get_label_Permutation
             (Pandas.unique (map Stream.comment_label sdrf_df))
             (Pandas.unique (map Stream.comment_label sdrf_df')))
    by now apply unique_Permutation, Permutation_map.
  destruct (get_label _) as [[label choice]|e]; [|reflexivity].
  split; [reflexivity|]. split; [reflexivity|].
  now apply unique_Permutation, Permutation_map.
Qed.

(** [label_resolution_ignores_order] at two labels and two rows, swapped. *)
Lemma label_resolution_ignores_order_witness :
  Permutation ["TMT126"; "TMT131C"] ["TMT131C"; "TMT126"]
  /\ Permutation [Stream.mk_sdrf_row "S1" "a.raw" "TMT126";
                  Stream.mk_sdrf_row "S2" "a.raw" "TMT131C"]
                 [Stream.mk_sdrf_row "S2" "a.raw" "TMT131C";
                  Stream.mk_sdrf_row "S1" "a.raw" "TMT126"]
  /\ get_label ["TMT126"; "TMT131C"] = get_label ["TMT131C"; "TMT126"]
  /\ Feature_get_label ["TMT126"; "TMT131C"] = Feature_get_label ["TMT131C"; "TMT126"]
  /\ match Stream.extract_label_from_sdrf
             [Stream.mk_sdrf_row "S1" "a.raw" "TMT126";
              Stream.mk_sdrf_row "S2" "a.raw" "TMT131C"],
           Stream.extract_label_from_sdrf
             [Stream.mk_sdrf_row "S2" "a.raw" "TMT131C";
              Stream.mk_sdrf_row "S1" "a.raw" "TMT126"] with
     | Ok (label, sample_names, choice), Ok (label', sample_names', choice') =>
         label = label' /\ choice = choice'
         /\ Permutation sample_names sample_names'
     | Raise e, Raise e' => e = e'
     | _, _ => False
     end.
Proof.
  assert (Permutation ["TMT126"; "TMT131C"] ["TMT131C"; "TMT126"]) as Hl
    by apply perm_swap.
  assert (Permutation [Stream.mk_sdrf_row "S1" "a.raw" "TMT126";
                       Stream.mk_sdrf_row "S2" "a.raw" "TMT131C"]
                      [Stream.mk_sdrf_row "S2" "a.raw" "TMT131C";
                       Stream.mk_sdrf_row "S1" "a.raw" "TMT126"]) as Hs
    by apply perm_swap.
  split; [exact Hl|]. split; [exact Hs|].
  exact (label_resolution_ignores_order _ _ _ _ Hl Hs).
Defined.

End LabelOrderFacts.
